(** * Neighbor Discovery cache and inbound ICMPv6 handler of the PyTCP stack

  A shallow embedding of
    - [lib/ip6_address.py]  (the address arithmetic the cache relies on),
    - [icmp6/nd_cache.py]   (class [NdCache]),
    - [icmp6/phrx.py]       (the inbound handler [_phrx_icmp6]),
  followed by the properties of the cache and of the handler.

  Conventions.  A Python [int] is a [Z]; an [Ip6Address] and a
  [MacAddress] are the integers they wrap.  [time.time()] is a number of
  clock units in [Z].  A [bytes] value is a [list byte].  The Python
  dictionary of the cache keeps its keys in insertion order and the
  maintenance loop walks them in that order, so the dictionary is an
  association list with the update rules of [dict].  A call of the
  transmit entry point [_phtx_icmp6] is recorded, with its arguments, in
  the list of effects a function returns; an uncaught Python exception is
  the result [None]. *)

From Stdlib Require Import ZArith List Bool Lia Sorted.
From Stdlib Require Import Strings.Byte.
Import ListNotations.
Open Scope Z_scope.

(* ===================================================================== *)
(** * lib/ip6_address.py *)
(* ===================================================================== *)

Module Ip6.

Definition Ip6Address := Z.

(** [Ip6Address(address)] for an [int]: accepted when
    [address in range(340282366920938463463374607431768211455)],
    otherwise [Ip6AddressFormatError]. *)
Definition of_int (address : Z) : option Ip6Address :=
  if (0 <=? address) && (address <? 340282366920938463463374607431768211455)
  then Some address else None.

(** [struct.unpack("!L", b)]: a big-endian unsigned integer. *)
Definition unpack_be (b : list byte) : Z :=
  fold_left (fun acc x => acc * 256 + Z.of_N (Byte.to_N x)) b 0.

(** [Ip6Address(address)] for [bytes]: sixteen bytes read as four
    big-endian 32-bit words, otherwise [Ip6AddressFormatError]. *)
Definition of_bytes (address : list byte) : option Ip6Address :=
  if (Z.of_nat (length address) =? 16) then
    let v1 := unpack_be (firstn 4 address) in
    let v2 := unpack_be (firstn 4 (skipn 4 address)) in
    let v3 := unpack_be (firstn 4 (skipn 8 address)) in
    let v4 := unpack_be (firstn 4 (skipn 12 address)) in
    Some (Z.shiftl v1 96 + Z.shiftl v2 64 + Z.shiftl v3 32 + v4)
  else None.

(** [Ip6Address("::")], also the value of the property [unspecified]. *)
Definition unspecified : Ip6Address := 0.

(** [Ip6Address("ff02::1")], the all-nodes group. *)
Definition all_nodes : Ip6Address := 0xff020000000000000000000000000001.

(** [Ip6Address("ff02::1:ff00:0")]. *)
Definition solicited_node_prefix : Ip6Address := 0xff0200000000000000000001ff000000.

(** Modelled from the spec: [is_unspecified] lives in the base class
    [IpAddress] of [lib/ip_address.py]; the unspecified address is [::]. *)
Definition is_unspecified (a : Ip6Address) : bool := a =? 0.

(** [is_multicast]: ff00::/8. *)
Definition is_multicast (a : Ip6Address) : bool :=
  (338953138925153547590470800371487866880 <=? a)
  && (a <? 340282366920938463463374607431768211456).

(** [is_solicited_node_multicast]: ff02::1:ff00:0/104. *)
Definition is_solicited_node_multicast (a : Ip6Address) : bool :=
  (338963523518870617245727861372719464448 <=? a)
  && (a <? 338963523518870617245727861372736241664).

(** The integer handed to the constructor by [solicited_node_multicast]:
    [self._address & 0xFFFFFF | int(Ip6Address("ff02::1:ff00:0"))]. *)
Definition solicited_node_multicast_int (a : Ip6Address) : Z :=
  Z.lor (Z.land a 0xFFFFFF) solicited_node_prefix.

(** [solicited_node_multicast], through the constructor. *)
Definition solicited_node_multicast (a : Ip6Address) : option Ip6Address :=
  of_int (solicited_node_multicast_int a).

Record Ip6Network := { net_address : Ip6Address; net_mask : Z }.

(** [Ip6Network((address, mask))]: the address is masked. *)
Definition network_of (address : Ip6Address) (mask : Z) : Ip6Network :=
  {| net_address := Z.land address mask; net_mask := mask |}.

(** The integer that [Ip6Network.last] hands to the constructor:
    [int(self._address) + (~int(self._mask) & 0xFFFF..FFFF)]. *)
Definition last_int (n : Ip6Network) : Z :=
  net_address n + Z.land (Z.lnot (net_mask n)) 0xFFFFFFFFFFFFFFFFFFFFFFFFFFFFFFFF.

(** [Ip6Network.last], through the constructor: [Ip6AddressFormatError]
    for a network that ends at the address of all ones, which the
    constructor refuses. *)
Definition last (n : Ip6Network) : option Ip6Address := of_int (last_int n).

(** Modelled from the spec: [IpNetwork.__contains__] lives in
    [lib/ip_address.py]; a network contains the addresses from its first
    to its [last].  The test reads the property [last], and ends in its
    exception when the network has no last address; it is taken to read
    it for every address, so that the test ends in the exception
    wherever the one of the code can. *)
Definition contains (n : Ip6Network) (a : Ip6Address) : option bool :=
  match last n with
  | Some l => Some ((net_address n <=? a) && (a <=? l))
  | None => None
  end.

Record Ip6Host := {
  address : Ip6Address;
  network : Ip6Network;
  gateway : option Ip6Address
}.

End Ip6.

(* ===================================================================== *)
(** * The Python dictionary, keyed by address *)
(* ===================================================================== *)

(** Keys compare by the integer they wrap.  Modelled from the spec:
  [IpAddress.__eq__] and [__hash__] live in [lib/ip_address.py]; the cache
  holds at most one entry per address. *)
Module PyDict.
Section Dict.

Context {V : Type}.

Definition t := list (Z * V).

(** [d.get(k, None)] *)
Fixpoint get (k : Z) (d : t) : option V :=
  match d with
  | [] => None
  | (k', v) :: d' => if k =? k' then Some v else get k d'
  end.

(** [d[k] = v]: an existing key keeps its place, a new key goes last. *)
Fixpoint set (k : Z) (v : V) (d : t) : t :=
  match d with
  | [] => [(k, v)]
  | (k', v') :: d' => if k =? k' then (k, v) :: d' else (k', v') :: set k v d'
  end.

(** [d.pop(k)], the dictionary that remains. *)
Fixpoint pop (k : Z) (d : t) : t :=
  match d with
  | [] => []
  | (k', v') :: d' => if k =? k' then d' else (k', v') :: pop k d'
  end.

(** [list(d)] *)
Definition keys (d : t) : list Z := map fst d.

(** What the hash table guarantees: one binding per key. *)
Definition wf (d : t) : Prop := NoDup (keys d).

End Dict.
Arguments t : clear implicits.
End PyDict.

(* ===================================================================== *)
(** * Exceptions *)
(* ===================================================================== *)

(** A computation that may end in an uncaught exception. *)
Definition Exc (A : Type) : Type := option A.

Definition bind {A B : Type} (m : Exc A) (k : A -> Exc B) : Exc B :=
  match m with
  | Some a => k a
  | None => None
  end.

Notation "x <- m ;; k" := (bind m (fun x => k))
  (at level 61, m at next level, right associativity).
Notation "' p <- m ;; k" := (bind m (fun x => match x with p => k end))
  (at level 61, p pattern, m at next level, right associativity).

(* ===================================================================== *)
(** * What is handed to the transmit entry point *)
(* ===================================================================== *)

Definition MacAddress := Z.

(** [icmp6.fpa.Icmp6NdOptSLLA(mac)] and [icmp6.fpa.Icmp6NdOptTLLA(mac)]. *)
Inductive Icmp6NdOpt : Type :=
| Icmp6NdOptSLLA (mac : MacAddress)
| Icmp6NdOptTLLA (mac : MacAddress).

(** The [icmp6_type] argument of [_phtx_icmp6] with the keyword arguments
    that go with it. *)
Inductive Icmp6Tx : Type :=
| ICMP6_NEIGHBOR_SOLICITATION
    (icmp6_ns_target_address : Ip6.Ip6Address) (icmp6_nd_options : list Icmp6NdOpt)
| ICMP6_NEIGHBOR_ADVERTISEMENT
    (icmp6_na_flag_s icmp6_na_flag_o : bool)
    (icmp6_na_target_address : Ip6.Ip6Address) (icmp6_nd_options : list Icmp6NdOpt)
| ICMP6_ECHOR_REPLY (icmp6_ec_id icmp6_ec_seq : Z) (icmp6_ec_data : list byte).

(** One call [_phtx_icmp6(ip6_src=.., ip6_dst=.., ip6_hop=.., icmp6_type=.., ..)].
    The [echo_tracker] argument only feeds the log and is left out. *)
Record PhtxIcmp6 : Type := {
  ip6_src : Ip6.Ip6Address;
  ip6_dst : Ip6.Ip6Address;
  ip6_hop : Z;
  icmp6_msg : Icmp6Tx
}.

(* ===================================================================== *)
(** * icmp6/nd_cache.py *)
(* ===================================================================== *)

(** The two values the cache reads from [config]. *)
Record Config : Type := {
  nd_cache_entry_max_age : Z;
  nd_cache_entry_refresh_time : Z
}.

Module NdCache.

(** [NdCache.CacheEntry].  [hit_count] starts at zero and is only ever
    incremented or reset, so it is a natural number. *)
Record CacheEntry : Type := {
  mac_address : MacAddress;
  permanent : bool;
  creation_time : Z;
  hit_count : N
}.

(** [CacheEntry.__init__(mac_address, permanent=False)], run when the clock
    reads [now]. *)
Definition CacheEntry_init (now : Z) (mac : MacAddress) (perm : bool) : CacheEntry :=
  {| mac_address := mac; permanent := perm; creation_time := now; hit_count := 0 |}.

(** Assignment to the attribute [hit_count] of an entry. *)
Definition set_hit_count (e : CacheEntry) (n : N) : CacheEntry :=
  {| mac_address := mac_address e; permanent := permanent e;
     creation_time := creation_time e; hit_count := n |}.

(** [self.nd_cache] *)
Definition t := PyDict.t CacheEntry.

(** [NdCache.__init__]: the empty dictionary. *)
Definition init : t := [].

Section WithStack.

(** [stack.packet_handler.ip6_host] and [stack.packet_handler.mac_unicast]. *)
Variable ip6_host : list Ip6.Ip6Host.
Variable mac_unicast : MacAddress.
Variable config : Config.

(** The loop of [_send_icmp6_neighbor_solicitation] that picks the source
    address: every host in turn, [ip6_src] being the address picked so
    far.  The loop ends in the exception of the test [in] when it meets a
    host whose network has no last address. *)
Fixpoint pick_source_loop (hosts : list Ip6.Ip6Host) (target : Ip6.Ip6Address)
    (ip6_src : Ip6.Ip6Address) : Exc Ip6.Ip6Address :=
  match hosts with
  | [] => Some ip6_src
  | h :: rest =>
      inside <- Ip6.contains (Ip6.network h) target ;;
      pick_source_loop rest target (if inside then Ip6.address h else ip6_src)
  end.

Definition pick_source (target : Ip6.Ip6Address) : Exc Ip6.Ip6Address :=
  pick_source_loop ip6_host target Ip6.unspecified.

(** [_send_icmp6_neighbor_solicitation(icmp6_ns_target_address)] *)
Definition _send_icmp6_neighbor_solicitation
    (icmp6_ns_target_address : Ip6.Ip6Address) : Exc (list PhtxIcmp6) :=
  src <- pick_source icmp6_ns_target_address ;;
  dst <- Ip6.solicited_node_multicast icmp6_ns_target_address ;;
  Some [ {| ip6_src := src;
            ip6_dst := dst;
            ip6_hop := 255;
            icmp6_msg := ICMP6_NEIGHBOR_SOLICITATION icmp6_ns_target_address
                           [Icmp6NdOptSLLA mac_unicast] |} ].

(** [add_entry(ip6_address, mac_address)], run when the clock reads [now]. *)
Definition add_entry (now : Z) (ip6_address : Ip6.Ip6Address) (mac : MacAddress)
    (c : t) : t :=
  PyDict.set ip6_address (CacheEntry_init now mac false) c.

(** [find_entry(ip6_address)]: the returned value, the cache afterwards and
    the calls of [_phtx_icmp6].  A [CacheEntry] has neither [__bool__] nor
    [__len__], so the walrus test succeeds exactly when the key is bound. *)
Definition find_entry (ip6_address : Ip6.Ip6Address) (c : t)
    : Exc (option MacAddress * t * list PhtxIcmp6) :=
  match PyDict.get ip6_address c with
  | Some nd_entry =>
      let nd_entry' := set_hit_count nd_entry (hit_count nd_entry + 1) in
      Some (Some (mac_address nd_entry'), PyDict.set ip6_address nd_entry' c, [])
  | None =>
      out <- _send_icmp6_neighbor_solicitation ip6_address ;;
      Some (None, c, out)
  end.

(** One turn of the loop of [_maintain_cache].  [self.nd_cache[ip6_address]]
    raises [KeyError] when the key is gone.  The loop reads the clock at
    each comparison; the whole sweep is taken at one reading [now].
    [hit_count] is true in a test when it is not zero.  When the sender
    ends in an exception the turn does too, after the hit count was
    reset; what the cache then holds is not part of the result. *)
Definition maintain_entry (now : Z) (ip6_address : Ip6.Ip6Address) (c : t)
    : Exc (t * list PhtxIcmp6) :=
  e <- PyDict.get ip6_address c ;;
  if permanent e then Some (c, [])
  else if now - creation_time e >? nd_cache_entry_max_age config then
    Some (PyDict.pop ip6_address c, [])
  else if (now - creation_time e >?
             nd_cache_entry_max_age config - nd_cache_entry_refresh_time config)
          && negb (hit_count e =? 0)%N
  then
    let c' := PyDict.set ip6_address (set_hit_count e 0) c in
    out <- _send_icmp6_neighbor_solicitation ip6_address ;;
    Some (c', out)
  else Some (c, []).

Fixpoint maintain_loop (now : Z) (snapshot : list Ip6.Ip6Address) (c : t)
    : Exc (t * list PhtxIcmp6) :=
  match snapshot with
  | [] => Some (c, [])
  | ip6_address :: rest =>
      '(c1, out1) <- maintain_entry now ip6_address c ;;
      '(c2, out2) <- maintain_loop now rest c1 ;;
      Some (c2, out1 ++ out2)
  end.

(** [_maintain_cache()], run when the clock reads [now]: the loop over
    [list(self.nd_cache)]. *)
Definition _maintain_cache (now : Z) (c : t) : Exc (t * list PhtxIcmp6) :=
  maintain_loop now (PyDict.keys c) c.

(** The calls the rest of the stack makes on the cache. *)
Inductive Call : Type :=
| CallAdd (now : Z) (ip6_address : Ip6.Ip6Address) (mac : MacAddress)
| CallFind (ip6_address : Ip6.Ip6Address)
| CallMaintain (now : Z).

Definition call (op : Call) (c : t) : Exc (t * list PhtxIcmp6) :=
  match op with
  | CallAdd now a m => Some (add_entry now a m c, [])
  | CallFind a => '(_, c', out) <- find_entry a c ;; Some (c', out)
  | CallMaintain now => _maintain_cache now c
  end.

Fixpoint calls (ops : list Call) (c : t) : Exc (t * list PhtxIcmp6) :=
  match ops with
  | [] => Some (c, [])
  | op :: rest =>
      '(c1, out1) <- call op c ;;
      '(c2, out2) <- calls rest c1 ;;
      Some (c2, out1 ++ out2)
  end.

End WithStack.
End NdCache.

(* ===================================================================== *)
(** * icmp6/phrx.py *)
(* ===================================================================== *)

(** Modelled from the spec: the Prefix Information option of
    [icmp6/fpp.py], with its autoconfiguration flag and its prefix. *)
Record Icmp6NdOptPI : Type := {
  pi_flag_a : bool;
  pi_prefix : Ip6.Ip6Network
}.

(** [packet_rx.icmp6] after [Icmp6Parser]: the message type with the
    fields the handler reads for it. *)
Inductive Icmp6Rx : Type :=
| RxNeighborSolicitation (ns_target_address : Ip6.Ip6Address) (nd_opt_slla : option MacAddress)
| RxNeighborAdvertisement (na_target_address : Ip6.Ip6Address) (nd_opt_tlla : option MacAddress)
| RxRouterSolicitation
| RxRouterAdvertisement (nd_opt_pi : list Icmp6NdOptPI)
| RxEchoRequest (ec_id ec_seq : Z) (ec_data : list byte)
| RxUnreachable (un_data : list byte)
| RxOther.

(** [PacketRx], as left by [Icmp6Parser(packet_rx)]. *)
Record PacketRx : Type := {
  parse_failed : bool;
  rx_ip6_src : Ip6.Ip6Address;
  rx_ip6_dst : Ip6.Ip6Address;
  rx_icmp6 : Icmp6Rx
}.

(** Modelled from the spec: the constants of [ip6/ps.py] and [udp/ps.py];
    the fixed IPv6 header has 40 bytes, the UDP header 8, and UDP is
    next-header 17. *)
Definition IP6_HEADER_LEN : Z := 40.
Definition UDP_HEADER_LEN : Z := 8.
Definition IP6_NEXT_HEADER_UDP : Z := 17.

(** [UdpMetadata(local_ip_address=.., remote_ip_address=.., local_port=..,
    remote_port=..)] *)
Record UdpMetadata : Type := {
  local_ip_address : Ip6.Ip6Address;
  remote_ip_address : Ip6.Ip6Address;
  local_port : Z;
  remote_port : Z
}.

(** [frame[i]] *)
Definition byte_at (frame : list byte) (i : nat) : Z :=
  Z.of_N (Byte.to_N (nth i frame x00)).

(** [frame[a:b]] *)
Definition slice (frame : list byte) (a b : nat) : list byte :=
  firstn (b - a) (skipn a frame).

(** The guard of the Unreachable branch. *)
Definition unreachable_guard (frame : list byte) : bool :=
  (IP6_HEADER_LEN + UDP_HEADER_LEN <=? Z.of_nat (length frame))
  && (Z.shiftr (byte_at frame 0) 4 =? 6)
  && (byte_at frame 6 =? IP6_NEXT_HEADER_UDP).

(** The [UdpMetadata] built from the embedded datagram. *)
Definition unreachable_metadata (frame : list byte) : Exc UdpMetadata :=
  let udp_offset := Z.to_nat IP6_HEADER_LEN in
  local <- Ip6.of_bytes (slice frame 8 24) ;;
  remote <- Ip6.of_bytes (slice frame 24 40) ;;
  Some {| local_ip_address := local;
          remote_ip_address := remote;
          local_port := Ip6.unpack_be (slice frame (udp_offset + 0) (udp_offset + 2));
          remote_port := Ip6.unpack_be (slice frame (udp_offset + 2) (udp_offset + 4)) |}.

(** [self] of the packet handler: the attributes [_phrx_icmp6] reads or
    writes.  The two events count their [release()] calls. *)
Record PacketHandler : Type := {
  ip6_unicast : list Ip6.Ip6Address;
  ip6_host : list Ip6.Ip6Host;
  mac_unicast : MacAddress;
  ip6_unicast_candidate : option Ip6.Ip6Address;
  icmp6_nd_dad_tlla : option MacAddress;
  event_icmp6_nd_dad : nat;
  icmp6_ra_prefixes : list (Icmp6NdOptPI * Ip6.Ip6Address);
  event_icmp6_ra : nat;
  icmp6_nd_cache : NdCache.t
}.

Definition with_cache (self : PacketHandler) (c : NdCache.t) : PacketHandler :=
  {| ip6_unicast := ip6_unicast self;
     ip6_host := ip6_host self;
     mac_unicast := mac_unicast self;
     ip6_unicast_candidate := ip6_unicast_candidate self;
     icmp6_nd_dad_tlla := icmp6_nd_dad_tlla self;
     event_icmp6_nd_dad := event_icmp6_nd_dad self;
     icmp6_ra_prefixes := icmp6_ra_prefixes self;
     event_icmp6_ra := event_icmp6_ra self;
     icmp6_nd_cache := c |}.

(** [self.icmp6_nd_dad_tlla = tlla; self.event_icmp6_nd_dad.release()] *)
Definition dad_release (self : PacketHandler) (tlla : option MacAddress) : PacketHandler :=
  {| ip6_unicast := ip6_unicast self;
     ip6_host := ip6_host self;
     mac_unicast := mac_unicast self;
     ip6_unicast_candidate := ip6_unicast_candidate self;
     icmp6_nd_dad_tlla := tlla;
     event_icmp6_nd_dad := S (event_icmp6_nd_dad self);
     icmp6_ra_prefixes := icmp6_ra_prefixes self;
     event_icmp6_ra := event_icmp6_ra self;
     icmp6_nd_cache := icmp6_nd_cache self |}.

(** [self.icmp6_ra_prefixes = prefixes; self.event_icmp6_ra.release()] *)
Definition ra_release (self : PacketHandler)
    (prefixes : list (Icmp6NdOptPI * Ip6.Ip6Address)) : PacketHandler :=
  {| ip6_unicast := ip6_unicast self;
     ip6_host := ip6_host self;
     mac_unicast := mac_unicast self;
     ip6_unicast_candidate := ip6_unicast_candidate self;
     icmp6_nd_dad_tlla := icmp6_nd_dad_tlla self;
     event_icmp6_nd_dad := event_icmp6_nd_dad self;
     icmp6_ra_prefixes := prefixes;
     event_icmp6_ra := S (event_icmp6_ra self);
     icmp6_nd_cache := icmp6_nd_cache self |}.

(** [x in l] for a list of addresses. *)
Definition mem (x : Ip6.Ip6Address) (l : list Ip6.Ip6Address) : bool :=
  existsb (Z.eqb x) l.

(** [na_target_address == self.ip6_unicast_candidate]; the candidate is
    [None] while no address is being probed. *)
Definition eq_candidate (a : Ip6.Ip6Address) (candidate : option Ip6.Ip6Address) : bool :=
  match candidate with
  | Some c => a =? c
  | None => false
  end.

Section Handler.

(** [stack.sockets], read through [get(pattern, None)], and
    [UdpMetadata.socket_patterns] of [udp/metadata.py], which lists the
    patterns to try for a datagram, in the order they are tried. *)
Variable Pattern : Type.
Variable Socket : Type.
Variable sockets : Pattern -> option Socket.
Variable socket_patterns : UdpMetadata -> list Pattern.

(** What the handler does to the outside. *)
Inductive Effect : Type :=
| Tx (call : PhtxIcmp6)
| NotifyUnreachable (socket : Socket).

(** The loop over [packet.socket_patterns]: the first pattern bound to a
    socket decides.  A socket object is true in a test. *)
Fixpoint match_socket (patterns : list Pattern) : option Socket :=
  match patterns with
  | [] => None
  | socket_pattern :: rest =>
      match sockets socket_pattern with
      | Some socket => Some socket
      | None => match_socket rest
      end
  end.

(** [_phrx_icmp6(self, packet_rx)], run when the clock reads [now]: the
    handler afterwards and what it did.  A [MacAddress] has no truth value
    of its own, so the test of an option asks whether it is there. *)
Definition _phrx_icmp6 (now : Z) (self : PacketHandler) (packet_rx : PacketRx)
    : Exc (PacketHandler * list Effect) :=
  if parse_failed packet_rx then Some (self, [])
  else
  match rx_icmp6 packet_rx with
  | RxNeighborSolicitation ns_target_address nd_opt_slla =>
      if negb (mem ns_target_address (ip6_unicast self)) then Some (self, [])
      else
        let src := rx_ip6_src packet_rx in
        let self1 :=
          if negb (Ip6.is_unspecified src || Ip6.is_multicast src) then
            match nd_opt_slla with
            | Some slla =>
                with_cache self (NdCache.add_entry now src slla (icmp6_nd_cache self))
            | None => self
            end
          else self in
        let ip6_nd_dad := Ip6.is_unspecified src in
        Some (self1,
              [Tx {| ip6_src := ns_target_address;
                     ip6_dst := if ip6_nd_dad then Ip6.all_nodes else src;
                     ip6_hop := 255;
                     icmp6_msg := ICMP6_NEIGHBOR_ADVERTISEMENT
                                    (negb ip6_nd_dad) ip6_nd_dad ns_target_address
                                    [Icmp6NdOptTLLA (mac_unicast self)] |}])
  | RxNeighborAdvertisement na_target_address nd_opt_tlla =>
      if eq_candidate na_target_address (ip6_unicast_candidate self)
      then Some (dad_release self nd_opt_tlla, [])
      else
        match nd_opt_tlla with
        | Some tlla =>
            Some (with_cache self
                    (NdCache.add_entry now na_target_address tlla (icmp6_nd_cache self)), [])
        | None => Some (self, [])
        end
  | RxRouterSolicitation => Some (self, [])
  | RxRouterAdvertisement nd_opt_pi =>
      Some (ra_release self (map (fun pi => (pi, rx_ip6_src packet_rx)) nd_opt_pi), [])
  | RxEchoRequest ec_id ec_seq ec_data =>
      Some (self,
            [Tx {| ip6_src := rx_ip6_dst packet_rx;
                   ip6_dst := rx_ip6_src packet_rx;
                   ip6_hop := 255;
                   icmp6_msg := ICMP6_ECHOR_REPLY ec_id ec_seq ec_data |}])
  | RxUnreachable frame =>
      if unreachable_guard frame then
        packet <- unreachable_metadata frame ;;
        match match_socket (socket_patterns packet) with
        | Some socket => Some (self, [NotifyUnreachable socket])
        | None => Some (self, [])
        end
      else Some (self, [])
  | RxOther => Some (self, [])
  end.

(** ** The stack around the cache and the handler *)

Variable config : Config.

(** What happens to the stack: a packet reaches the handler, the upper
    layers resolve or record an address, the timer runs the maintenance. *)
Inductive Event : Type :=
| EvRx (now : Z) (packet_rx : PacketRx)
| EvCache (op : NdCache.Call).

Definition step (self : PacketHandler) (ev : Event) : Exc (PacketHandler * list Effect) :=
  match ev with
  | EvRx now packet_rx => _phrx_icmp6 now self packet_rx
  | EvCache op =>
      '(c, out) <- NdCache.call (ip6_host self) (mac_unicast self) config op
                     (icmp6_nd_cache self) ;;
      Some (with_cache self c, map Tx out)
  end.

Fixpoint run (self : PacketHandler) (evs : list Event) : Exc (PacketHandler * list Effect) :=
  match evs with
  | [] => Some (self, [])
  | ev :: rest =>
      '(self1, out1) <- step self ev ;;
      '(self2, out2) <- run self1 rest ;;
      Some (self2, out1 ++ out2)
  end.

End Handler.

Arguments Tx {Socket} call.
Arguments NotifyUnreachable {Socket} socket.

(* ===================================================================== *)
(** * Vocabulary of the properties *)
(* ===================================================================== *)

(** The Neighbor Solicitations for [target] among the calls of
    [_phtx_icmp6]. *)
Definition solicits (target : Ip6.Ip6Address) (m : PhtxIcmp6) : bool :=
  match icmp6_msg m with
  | ICMP6_NEIGHBOR_SOLICITATION t _ => t =? target
  | _ => false
  end.

Definition solicitations_for (target : Ip6.Ip6Address) (out : list PhtxIcmp6)
    : list PhtxIcmp6 :=
  filter (solicits target) out.

(** The solicited-node group of an address, in the words of the
    specification: the prefix ff02::1:ff00:0/104 with the low 24 bits of
    the target. *)
Definition spec_solicited_node (target : Ip6.Ip6Address) : Ip6.Ip6Address :=
  Ip6.solicited_node_prefix + target mod 2 ^ 24.

(** A network contains an address, in the words of the specification:
    the address lies between the first address of the network and its
    last, as integers. *)
Definition within (n : Ip6.Ip6Network) (a : Ip6.Ip6Address) : bool :=
  (Ip6.net_address n <=? a) && (a <=? Ip6.last_int n).

(** The network of a host has a last address: it does not end at the
    address of all ones, which the constructor of addresses refuses. *)
Definition has_last (h : Ip6.Ip6Host) : Prop :=
  Ip6.last (Ip6.network h) <> None.

(** Every host of the registry has a network with a last address. *)
Definition all_have_last (hosts : list Ip6.Ip6Host) : Prop :=
  Forall has_last hosts.

(** The source of a solicitation, in the words of the specification: the
    address of the last host, in the order of the registry, whose network
    contains the target; the unspecified address when there is none. *)
Definition last_matching_host (hosts : list Ip6.Ip6Host) (target : Ip6.Ip6Address)
    : option Ip6.Ip6Host :=
  find (fun h => within (Ip6.network h) target) (rev hosts).

Definition spec_source (hosts : list Ip6.Ip6Host) (target : Ip6.Ip6Address)
    : Ip6.Ip6Address :=
  match last_matching_host hosts target with
  | Some h => Ip6.address h
  | None => Ip6.unspecified
  end.

(** The one message a solicitation for a target is, in the words of the
    specification. *)
Definition solicitation (hosts : list Ip6.Ip6Host) (mac : MacAddress)
    (target : Ip6.Ip6Address) : PhtxIcmp6 :=
  {| ip6_src := spec_source hosts target;
     ip6_dst := spec_solicited_node target;
     ip6_hop := 255;
     icmp6_msg := ICMP6_NEIGHBOR_SOLICITATION target [Icmp6NdOptSLLA mac] |}.

(** The branch the body of the loop of [_maintain_cache] takes for an
    entry, by the tests of the loop in their order. *)
Inductive Action : Type := SkipPermanent | Discard | Refresh | Leave.

Definition action (config : Config) (now : Z) (e : NdCache.CacheEntry) : Action :=
  if NdCache.permanent e then SkipPermanent
  else if now - NdCache.creation_time e >? nd_cache_entry_max_age config then Discard
  else if (now - NdCache.creation_time e >?
             nd_cache_entry_max_age config - nd_cache_entry_refresh_time config)
          && negb (NdCache.hit_count e =? 0)%N
  then Refresh
  else Leave.

(** What the maintenance leaves of an entry [e] bound to [k], by the
    branch the loop takes for it. *)
Definition sweep_outcome (hosts : list Ip6.Ip6Host) (mac : MacAddress) (cfg : Config)
    (now : Z) (k : Ip6.Ip6Address) (e : NdCache.CacheEntry)
    (c' : NdCache.t) (out : list PhtxIcmp6) : Prop :=
  match action cfg now e with
  | SkipPermanent | Leave =>
      PyDict.get k c' = Some e /\ solicitations_for k out = []
  | Discard =>
      PyDict.get k c' = None /\ solicitations_for k out = []
  | Refresh =>
      PyDict.get k c' = Some (NdCache.set_hit_count e 0)
      /\ solicitations_for k out = [solicitation hosts mac k]
  end.

(** A call on the cache that is no [add_entry] for [K] and that, when it is
    the maintenance, runs within the maximum age of an entry made at [t0]. *)
Definition keeps_binding (cfg : Config) (t0 : Z) (K : Ip6.Ip6Address)
    (op : NdCache.Call) : Prop :=
  match op with
  | NdCache.CallAdd _ a _ => a <> K
  | NdCache.CallFind _ => True
  | NdCache.CallMaintain now => now - t0 <= nd_cache_entry_max_age cfg
  end.

(** The cache binds [K] to a non-permanent entry for [M] made at [t0]. *)
Definition binds (K : Ip6.Ip6Address) (M : MacAddress) (t0 : Z) (c : NdCache.t) : Prop :=
  PyDict.wf c
  /\ exists e, PyDict.get K c = Some e
             /\ NdCache.mac_address e = M
             /\ NdCache.permanent e = false
             /\ NdCache.creation_time e = t0.

(** A call of [_phtx_icmp6] that is the solicitation of the cache for some
    target. *)
Definition is_solicitation (hosts : list Ip6.Ip6Host) (mac : MacAddress)
    (m : PhtxIcmp6) : Prop :=
  exists target, m = solicitation hosts mac target.

(** What the cache has sent is made of its solicitations, and when it has
    sent any, every host has a last address. *)
Definition sent_by (hosts : list Ip6.Ip6Host) (mac : MacAddress)
    (out : list PhtxIcmp6) : Prop :=
  Forall (is_solicitation hosts mac) out /\ (out <> [] -> all_have_last hosts).

(** In the words of the specification of the refresh: a solicitation goes
    to its target itself and not to a multicast group. *)
Definition unicast_to_target (m : PhtxIcmp6) : Prop :=
  match icmp6_msg m with
  | ICMP6_NEIGHBOR_SOLICITATION target _ =>
      ip6_dst m = target /\ Ip6.is_multicast (ip6_dst m) = false
  | _ => True
  end.

(** The guard of the Unreachable branch, in the words of the
    specification: the embedded datagram is at least as long as an IPv6
    header and a UDP header, its first nibble is 6 and the byte at offset 6
    says UDP. *)
Definition spec_guard (frame : list byte) : Prop :=
  IP6_HEADER_LEN + UDP_HEADER_LEN <= Z.of_nat (length frame)
  /\ byte_at frame 0 / 16 = 6
  /\ byte_at frame 6 = IP6_NEXT_HEADER_UDP.

(** The four-tuple of the embedded datagram, in the words of the
    specification: the big-endian integers at bytes 8..24, 24..40, 40..42
    and 42..44. *)
Definition spec_four_tuple (frame : list byte) : UdpMetadata :=
  {| local_ip_address := Ip6.unpack_be (slice frame 8 24);
     remote_ip_address := Ip6.unpack_be (slice frame 24 40);
     local_port := Ip6.unpack_be (slice frame 40 42);
     remote_port := Ip6.unpack_be (slice frame 42 44) |}.

(** [s] is the socket of the first of the patterns that is bound. *)
Definition first_match {Pattern Socket : Type} (sockets : Pattern -> option Socket)
    (patterns : list Pattern) (s : Socket) : Prop :=
  exists l1 p l2,
    patterns = l1 ++ p :: l2
    /\ sockets p = Some s
    /\ forall p', In p' l1 -> sockets p' = None.

(** No entry of the cache is permanent. *)
Definition all_nonpermanent (c : NdCache.t) : Prop :=
  forall k e, PyDict.get k c = Some e -> NdCache.permanent e = false.

(** The invariant of the cache: one binding per key, none permanent. *)
Definition cache_inv (c : NdCache.t) : Prop :=
  PyDict.wf c /\ all_nonpermanent c.

(** The hop limit of an effect that is a transmission. *)
Definition hop_limit_255 {Socket : Type} (e : Effect Socket) : Prop :=
  match e with
  | Tx m => ip6_hop m = 255
  | NotifyUnreachable _ => True
  end.

(* ===================================================================== *)
(** * A sample stack *)
(* ===================================================================== *)

Module Sample.

(** 2001:db8::1 and 2001:db8::2, two neighbours. *)
Definition neighbour1 : Ip6.Ip6Address := 0x20010db8000000000000000000000001.
Definition neighbour2 : Ip6.Ip6Address := 0x20010db8000000000000000000000002.

(** 2001:db8::10/64 and 2001:db8::20/32, the addresses of the stack. *)
Definition host1 : Ip6.Ip6Host :=
  {| Ip6.address := 0x20010db8000000000000000000000010;
     Ip6.network := Ip6.network_of 0x20010db8000000000000000000000010
                      0xffffffffffffffff0000000000000000;
     Ip6.gateway := None |}.

Definition host2 : Ip6.Ip6Host :=
  {| Ip6.address := 0x20010db8000000000000000000000020;
     Ip6.network := Ip6.network_of 0x20010db8000000000000000000000020
                      0xffffffff000000000000000000000000;
     Ip6.gateway := None |}.

Definition hosts : list Ip6.Ip6Host := [host1; host2].

(** 02:00:00:00:00:01, the address of the interface, and
    aa:bb:cc:dd:ee:ff, the address of a neighbour. *)
Definition mac : MacAddress := 0x020000000001.
Definition peer_mac : MacAddress := 0xaabbccddeeff.

(** The constants the specification recommends, in seconds. *)
Definition cfg : Config :=
  {| nd_cache_entry_max_age := 60; nd_cache_entry_refresh_time := 5 |}.

(** An entry made at time 0 and looked up once since. *)
Definition used_entry : NdCache.CacheEntry :=
  {| NdCache.mac_address := peer_mac; NdCache.permanent := false;
     NdCache.creation_time := 0; NdCache.hit_count := 1 |}.

Definition cache1 : NdCache.t := [(neighbour1, used_entry)].

(** fe80::1, an address being probed for duplicates. *)
Definition candidate : Ip6.Ip6Address := 0xfe800000000000000000000000000001.

Definition self : PacketHandler :=
  {| ip6_unicast := [Ip6.address host1; Ip6.address host2];
     ip6_host := hosts;
     mac_unicast := mac;
     ip6_unicast_candidate := Some candidate;
     icmp6_nd_dad_tlla := None;
     event_icmp6_nd_dad := 0;
     icmp6_ra_prefixes := [];
     event_icmp6_ra := 0;
     icmp6_nd_cache := cache1 |}.

(** The same stack as [NdCache.__init__] leaves its cache. *)
Definition fresh : PacketHandler := with_cache self NdCache.init.

(** A Neighbor Solicitation from 2001:db8::2 for 2001:db8::10, with the
    link-layer address of its sender. *)
Definition ns_packet : PacketRx :=
  {| parse_failed := false;
     rx_ip6_src := neighbour2;
     rx_ip6_dst := Ip6.address host1;
     rx_icmp6 := RxNeighborSolicitation (Ip6.address host1) (Some peer_mac) |}.

(** A Neighbor Solicitation from the unspecified address, as a probe for
    duplicates sends it. *)
Definition dad_packet : PacketRx :=
  {| parse_failed := false;
     rx_ip6_src := Ip6.unspecified;
     rx_ip6_dst := 0xff0200000000000000000001ff000010;
     rx_icmp6 := RxNeighborSolicitation (Ip6.address host1) None |}.

(** Neighbor Advertisements for fe80::1 and for 2001:db8::2. *)
Definition na_candidate_packet : PacketRx :=
  {| parse_failed := false;
     rx_ip6_src := candidate;
     rx_ip6_dst := Ip6.all_nodes;
     rx_icmp6 := RxNeighborAdvertisement candidate (Some peer_mac) |}.

Definition na_packet : PacketRx :=
  {| parse_failed := false;
     rx_ip6_src := neighbour2;
     rx_ip6_dst := Ip6.address host1;
     rx_icmp6 := RxNeighborAdvertisement neighbour2 (Some peer_mac) |}.

Definition echo_packet : PacketRx :=
  {| parse_failed := false;
     rx_ip6_src := neighbour1;
     rx_ip6_dst := Ip6.address host1;
     rx_icmp6 := RxEchoRequest 7 1 [x68; x69] |}.

(** The start of a datagram from 2001:db8::10 port 4660 to 2001:db8::1 port
    53: the IPv6 header and the UDP header. *)
Definition datagram : list byte :=
  [x60; x00; x00; x00; x00; x08; x11; x40;
   x20; x01; x0d; xb8; x00; x00; x00; x00; x00; x00; x00; x00; x00; x00; x00; x10;
   x20; x01; x0d; xb8; x00; x00; x00; x00; x00; x00; x00; x00; x00; x00; x00; x01;
   x12; x34; x00; x35; x00; x08; x00; x00].

Definition unreachable_packet : PacketRx :=
  {| parse_failed := false;
     rx_ip6_src := neighbour1;
     rx_ip6_dst := Ip6.address host1;
     rx_icmp6 := RxUnreachable datagram |}.

(** Socket patterns as pairs of a local address, zero for any, and a local
    port, the exact one first; one socket, numbered 7, on port 4660 of any
    address. *)
Definition socket_patterns (packet : UdpMetadata) : list (Z * Z) :=
  [(local_ip_address packet, local_port packet); (0, local_port packet)].

Definition sockets (pattern : Z * Z) : option nat :=
  if (fst pattern =? 0) && (snd pattern =? 4660) then Some 7%nat else None.

(** A run of the stack: a solicitation comes in, two addresses are
    resolved, an echo request and an unreachable report come in, and the
    timer runs the maintenance at time 66. *)
Definition events : list (Event) :=
  [EvRx 10 ns_packet;
   EvCache (NdCache.CallFind neighbour2);
   EvCache (NdCache.CallFind neighbour1);
   EvRx 20 echo_packet;
   EvRx 30 unreachable_packet;
   EvCache (NdCache.CallMaintain 66)].

End Sample.

(* ===================================================================== *)
(** * protocols/ip6/phrx.py *)
(* ===================================================================== *)

Module Ip6Rx.

(** The counters of [self.packet_stats_rx] that [_phrx_ip6] raises; each
    starts at zero and is only ever incremented. *)
Record PacketStatsRx : Type := {
  ip6__pre_parse : N;
  ip6__failed_parse__drop : N;
  ip6__dst_unknown__drop : N;
  ip6__dst_unicast : N;
  ip6__dst_multicast : N
}.

(** [packet_rx.ip6.next], by the constant of [protocols/ip6/ps.py] it
    equals, if any. *)
Inductive Ip6Next : Type :=
| IP6_NEXT_EXT_FRAG
| IP6_NEXT_ICMP6
| IP6_NEXT_UDP
| IP6_NEXT_TCP
| IP6_NEXT_OTHER.

(** [packet_rx] as [Ip6Parser(packet_rx)] leaves it: whether the parse
    failed, the next header, and the packet with the addresses of its IPv6
    header, as the ICMPv6 parser will leave it. *)
Record Ip6PacketRx : Type := {
  ip6_parse_failed : bool;
  ip6_next : Ip6Next;
  packet : PacketRx
}.

(** [self]: the handler of the ICMPv6 module with the multicast addresses
    and the counters [_phrx_ip6] reads and writes. *)
Record Stack : Type := {
  handler : PacketHandler;
  ip6_multicast : list Ip6.Ip6Address;
  packet_stats_rx : PacketStatsRx
}.

Definition with_stats (self : Stack) (stats : PacketStatsRx) : Stack :=
  {| handler := handler self;
     ip6_multicast := ip6_multicast self;
     packet_stats_rx := stats |}.

Definition with_handler (self : Stack) (h : PacketHandler) : Stack :=
  {| handler := h;
     ip6_multicast := ip6_multicast self;
     packet_stats_rx := packet_stats_rx self |}.

(** [self.packet_stats_rx.ip6__pre_parse += 1] and its likes. *)
Definition bump_pre_parse (s : PacketStatsRx) : PacketStatsRx :=
  {| ip6__pre_parse := ip6__pre_parse s + 1;
     ip6__failed_parse__drop := ip6__failed_parse__drop s;
     ip6__dst_unknown__drop := ip6__dst_unknown__drop s;
     ip6__dst_unicast := ip6__dst_unicast s;
     ip6__dst_multicast := ip6__dst_multicast s |}.

Definition bump_failed_parse (s : PacketStatsRx) : PacketStatsRx :=
  {| ip6__pre_parse := ip6__pre_parse s;
     ip6__failed_parse__drop := ip6__failed_parse__drop s + 1;
     ip6__dst_unknown__drop := ip6__dst_unknown__drop s;
     ip6__dst_unicast := ip6__dst_unicast s;
     ip6__dst_multicast := ip6__dst_multicast s |}.

Definition bump_dst_unknown (s : PacketStatsRx) : PacketStatsRx :=
  {| ip6__pre_parse := ip6__pre_parse s;
     ip6__failed_parse__drop := ip6__failed_parse__drop s;
     ip6__dst_unknown__drop := ip6__dst_unknown__drop s + 1;
     ip6__dst_unicast := ip6__dst_unicast s;
     ip6__dst_multicast := ip6__dst_multicast s |}.

Definition bump_dst_unicast (s : PacketStatsRx) : PacketStatsRx :=
  {| ip6__pre_parse := ip6__pre_parse s;
     ip6__failed_parse__drop := ip6__failed_parse__drop s;
     ip6__dst_unknown__drop := ip6__dst_unknown__drop s;
     ip6__dst_unicast := ip6__dst_unicast s + 1;
     ip6__dst_multicast := ip6__dst_multicast s |}.

Definition bump_dst_multicast (s : PacketStatsRx) : PacketStatsRx :=
  {| ip6__pre_parse := ip6__pre_parse s;
     ip6__failed_parse__drop := ip6__failed_parse__drop s;
     ip6__dst_unknown__drop := ip6__dst_unknown__drop s;
     ip6__dst_unicast := ip6__dst_unicast s;
     ip6__dst_multicast := ip6__dst_multicast s + 1 |}.

Section Dispatch.

Variable Pattern : Type.
Variable Socket : Type.
Variable sockets : Pattern -> option Socket.
Variable socket_patterns : UdpMetadata -> list Pattern.

(** The handlers of the other protocols, which are not in this
    development: what each does to the stack and to the outside. *)
Variable _phrx_ip6_ext_frag : Stack -> Ip6PacketRx -> Exc (Stack * list (Effect Socket)).
Variable _phrx_udp : Stack -> Ip6PacketRx -> Exc (Stack * list (Effect Socket)).
Variable _phrx_tcp : Stack -> Ip6PacketRx -> Exc (Stack * list (Effect Socket)).

(** [_phrx_ip6(self, packet_rx)], run when the clock reads [now].  The
    test of the destination is a membership in the set of the unicast and
    the multicast addresses. *)
Definition _phrx_ip6 (now : Z) (self : Stack) (packet_rx : Ip6PacketRx)
    : Exc (Stack * list (Effect Socket)) :=
  let self := with_stats self (bump_pre_parse (packet_stats_rx self)) in
  if ip6_parse_failed packet_rx then
    Some (with_stats self (bump_failed_parse (packet_stats_rx self)), [])
  else
  let dst := rx_ip6_dst (packet packet_rx) in
  if negb (mem dst (ip6_unicast (handler self) ++ ip6_multicast self)) then
    Some (with_stats self (bump_dst_unknown (packet_stats_rx self)), [])
  else
  let self :=
    if mem dst (ip6_unicast (handler self))
    then with_stats self (bump_dst_unicast (packet_stats_rx self)) else self in
  let self :=
    if mem dst (ip6_multicast self)
    then with_stats self (bump_dst_multicast (packet_stats_rx self)) else self in
  match ip6_next packet_rx with
  | IP6_NEXT_EXT_FRAG => _phrx_ip6_ext_frag self packet_rx
  | IP6_NEXT_ICMP6 =>
      '(h, out) <- _phrx_icmp6 Pattern Socket sockets socket_patterns now
                     (handler self) (packet packet_rx) ;;
      Some (with_handler self h, out)
  | IP6_NEXT_UDP => _phrx_udp self packet_rx
  | IP6_NEXT_TCP => _phrx_tcp self packet_rx
  | IP6_NEXT_OTHER => Some (self, [])
  end.

(** The packets of a list, handled one after the other, each at its time. *)
Fixpoint receive (self : Stack) (packets : list (Z * Ip6PacketRx))
    : Exc (Stack * list (Effect Socket)) :=
  match packets with
  | [] => Some (self, [])
  | (now, packet_rx) :: rest =>
      '(self1, out1) <- _phrx_ip6 now self packet_rx ;;
      '(self2, out2) <- receive self1 rest ;;
      Some (self2, out1 ++ out2)
  end.

(** A handler of another protocol that leaves the counters of the IPv6
    layer alone. *)
Definition keeps_stats (h : Stack -> Ip6PacketRx -> Exc (Stack * list (Effect Socket)))
    : Prop :=
  forall self packet_rx self' out,
    h self packet_rx = Some (self', out) ->
    packet_stats_rx self' = packet_stats_rx self.

End Dispatch.

(** The counters as [PacketStatsRx()] makes them. *)
Definition zero_stats : PacketStatsRx :=
  {| ip6__pre_parse := 0; ip6__failed_parse__drop := 0; ip6__dst_unknown__drop := 0;
     ip6__dst_unicast := 0; ip6__dst_multicast := 0 |}.

End Ip6Rx.

Module Sample3.

(** The sample stack with the groups it listens to, all-nodes and the
    solicited-node group of 2001:db8::10, and fresh counters. *)
Definition stack : Ip6Rx.Stack :=
  {| Ip6Rx.handler := Sample.self;
     Ip6Rx.ip6_multicast := [Ip6.all_nodes; 0xff0200000000000000000001ff000010];
     Ip6Rx.packet_stats_rx := Ip6Rx.zero_stats |}.

(** A handler of another protocol that does nothing. *)
Definition idle (self : Ip6Rx.Stack) (packet_rx : Ip6Rx.Ip6PacketRx)
    : Exc (Ip6Rx.Stack * list (Effect nat)) :=
  Some (self, []).

(** The solicitation of the sample, as an IPv6 packet for the stack; the
    same sent to 2001:db8::99, which is not the stack; a packet whose IPv6
    header did not parse; a UDP datagram to the all-nodes group. *)
Definition ns_for_us : Ip6Rx.Ip6PacketRx :=
  {| Ip6Rx.ip6_parse_failed := false;
     Ip6Rx.ip6_next := Ip6Rx.IP6_NEXT_ICMP6;
     Ip6Rx.packet := Sample.ns_packet |}.

Definition ns_for_other : Ip6Rx.Ip6PacketRx :=
  {| Ip6Rx.ip6_parse_failed := false;
     Ip6Rx.ip6_next := Ip6Rx.IP6_NEXT_ICMP6;
     Ip6Rx.packet :=
       {| parse_failed := false;
          rx_ip6_src := Sample.neighbour2;
          rx_ip6_dst := 0x20010db8000000000000000000000099;
          rx_icmp6 := RxNeighborSolicitation (Ip6.address Sample.host1)
                        (Some Sample.peer_mac) |} |}.

Definition broken : Ip6Rx.Ip6PacketRx :=
  {| Ip6Rx.ip6_parse_failed := true;
     Ip6Rx.ip6_next := Ip6Rx.IP6_NEXT_OTHER;
     Ip6Rx.packet := Sample.ns_packet |}.

Definition udp_to_all_nodes : Ip6Rx.Ip6PacketRx :=
  {| Ip6Rx.ip6_parse_failed := false;
     Ip6Rx.ip6_next := Ip6Rx.IP6_NEXT_UDP;
     Ip6Rx.packet :=
       {| parse_failed := false;
          rx_ip6_src := Sample.neighbour1;
          rx_ip6_dst := Ip6.all_nodes;
          rx_icmp6 := RxOther |} |}.

Definition packets : list (Z * Ip6Rx.Ip6PacketRx) :=
  [(10, ns_for_us); (11, ns_for_other); (12, broken); (13, udp_to_all_nodes)].

End Sample3.

(* ===================================================================== *)
(** * The struct module of Python *)
(* ===================================================================== *)

Module Struct.

(** The byte of an integer between 0 and 255. *)
Definition byte_of_Z (z : Z) : byte :=
  match Byte.of_N (Z.to_N z) with
  | Some b => b
  | None => x00
  end.

(** The [n] low bytes of an integer, the most significant first. *)
Fixpoint be_bytes (n : nat) (v : Z) : list byte :=
  match n with
  | O => []
  | S n' => byte_of_Z (Z.land (Z.shiftr v (8 * Z.of_nat n')) 0xFF) :: be_bytes n' v
  end.

(** [struct.pack("!B", v)], [struct.pack("!H", v)] and
    [struct.pack("!L", v)], for [n] of 1, 2 and 4: an unsigned integer in
    network order, [struct.error] when it does not fit. *)
Definition pack_uint (n : nat) (v : Z) : Exc (list byte) :=
  if (0 <=? v) && (v <? 2 ^ (8 * Z.of_nat n)) then Some (be_bytes n v) else None.

(** [struct.pack_into(format, frame, offset, ..)], given the bytes the
    format yields: they replace the bytes of the buffer from [offset] on,
    [struct.error] when the buffer is too short for them. *)
Definition pack_into (packed frame : list byte) (offset : nat) : Exc (list byte) :=
  if (offset + length packed <=? length frame)%nat
  then Some (firstn offset frame ++ packed ++ skipn (offset + length packed) frame)
  else None.

(** The format [ns] for a [bytes] argument: its first [n] bytes, with
    zero bytes behind them when it has fewer. *)
Definition pack_s (n : nat) (b : list byte) : list byte :=
  firstn n b ++ repeat x00 (n - length b).

End Struct.

(* ===================================================================== *)
(** * lib/ip6_address.py, the rest of it *)
(* ===================================================================== *)

Module Ip6Lib.

(** [Ip6Address.__bytes__] *)
Definition to_bytes (a : Ip6.Ip6Address) : Exc (list byte) :=
  b1 <- Struct.pack_uint 4 (Z.land (Z.shiftr a 96) 0xFFFFFFFF) ;;
  b2 <- Struct.pack_uint 4 (Z.land (Z.shiftr a 64) 0xFFFFFFFF) ;;
  b3 <- Struct.pack_uint 4 (Z.land (Z.shiftr a 32) 0xFFFFFFFF) ;;
  b4 <- Struct.pack_uint 4 (Z.land a 0xFFFFFFFF) ;;
  Some (b1 ++ b2 ++ b3 ++ b4).

(** [is_loopback]: ::1/128. *)
Definition is_loopback (a : Ip6.Ip6Address) : bool := a =? 1.

(** [is_global]: 2000::/3. *)
Definition is_global (a : Ip6.Ip6Address) : bool :=
  (42535295865117307932921825928971026432 <=? a)
  && (a <? 85070591730234615865843651857942052864).

(** [is_private]: fc00::/7. *)
Definition is_private (a : Ip6.Ip6Address) : bool :=
  (334965454937798799971759379190646833152 <=? a)
  && (a <? 337623910929368631717566993311207522304).

(** [is_link_local]: fe80::/10. *)
Definition is_link_local (a : Ip6.Ip6Address) : bool :=
  (338288524927261089654018896841347694592 <=? a)
  && (a <? 338620831926207318622244848606417780736).

(** Modelled from the spec: [MacAddress(address)] of [lib/mac_address.py]
    for an [int]; a link-layer address has 48 bits. *)
Definition mac_of_int (address : Z) : Exc MacAddress :=
  if (0 <=? address) && (address <? 2 ^ 48) then Some address else None.

(** [multicast_mac]: an [AssertionError] for an address that is not
    multicast. *)
Definition multicast_mac (a : Ip6.Ip6Address) : Exc MacAddress :=
  if Ip6.is_multicast a then
    prefix <- mac_of_int 0x333300000000 ;;
    mac_of_int (Z.lor prefix (Z.land a 0xFFFFFFFF))
  else None.

(** ** [Ip6Mask] *)

(** [f"{mask:0128b}"] for a mask between 0 and 2^128: its 128 binary
    digits, the most significant first; [true] is the digit 1. *)
Definition bit_mask (mask : Z) : list bool :=
  map (fun i => Z.testbit mask (Z.of_nat i)) (rev (seq 0 128)).

(** [s[s.index("0"):]], [ValueError] when there is no digit 0. *)
Fixpoint from_first_zero (s : list bool) : option (list bool) :=
  match s with
  | [] => None
  | b :: rest => if b then from_first_zero rest else Some (b :: rest)
  end.

(** [_validate_bits()]: no digit 1 after the first digit 0. *)
Definition _validate_bits (mask : Z) : bool :=
  match from_first_zero (bit_mask mask) with
  | Some rest => Nat.eqb (length (filter (fun b => b) rest)) 0
  | None => true
  end.

(** [Ip6Mask(mask)] for an [int]. *)
Definition mask_of_int (mask : Z) : Exc Z :=
  if (0 <=? mask) && (mask <? 340282366920938463463374607431768211456)
     && _validate_bits mask
  then Some mask else None.

(** [Ip6Mask(mask)] for [bytes]. *)
Definition mask_of_bytes (mask : list byte) : Exc Z :=
  if (Z.of_nat (length mask) =? 16) then
    let v1 := Ip6.unpack_be (firstn 4 mask) in
    let v2 := Ip6.unpack_be (firstn 4 (skipn 4 mask)) in
    let v3 := Ip6.unpack_be (firstn 4 (skipn 8 mask)) in
    let v4 := Ip6.unpack_be (firstn 4 (skipn 12 mask)) in
    let m := Z.shiftl v1 96 + Z.shiftl v2 64 + Z.shiftl v3 32 + v4 in
    if _validate_bits m then Some m else None
  else None.

(** [int(s, 2)] *)
Definition int_of_bits (s : list bool) : Z :=
  fold_left (fun acc (b : bool) => 2 * acc + (if b then 1 else 0)) s 0.

(** [Ip6Mask("/n")], once the regular expression and [int] have read the
    number [bit_count] after the slash. *)
Definition mask_of_prefix (bit_count : Z) : Exc Z :=
  if (0 <=? bit_count) && (bit_count <? 129) then
    Some (int_of_bits (repeat true (Z.to_nat bit_count)
                       ++ repeat false (Z.to_nat (128 - bit_count))))
  else None.

(** Modelled from the spec: [IpMask.__len__] of [lib/ip_address.py], the
    length of the prefix, which is the number of bits set. *)
Definition mask_len (mask : Z) : Z :=
  Z.of_nat (length (filter (fun b => b) (bit_mask mask))).

(** ** [Ip6Network] and [Ip6Host] *)

(** [Ip6Network((address, mask))], through the constructor of the
    address. *)
Definition network_init (address : Ip6.Ip6Address) (mask : Z) : Exc Ip6.Ip6Network :=
  a <- Ip6.of_int (Z.land address mask) ;;
  Some {| Ip6.net_address := a; Ip6.net_mask := mask |}.

(** [Ip6Host((address, mask))] *)
Definition host_init (address : Ip6.Ip6Address) (mask : Z) : Exc Ip6.Ip6Host :=
  n <- network_init address mask ;;
  Some {| Ip6.address := address; Ip6.network := n; Ip6.gateway := None |}.

(** The interface identifier [eui64] computes from a link-layer address. *)
Definition interface_id (mac_address : MacAddress) : Z :=
  Z.lxor
    (Z.lor (Z.lor (Z.shiftl (Z.land mac_address 0xFFFFFF000000) 16)
                  (Z.land mac_address 0xFFFFFF))
           0xFFFE000000)
    0x0200000000000000.

(** [Ip6Network.eui64(mac_address)]: an [AssertionError] for a network
    whose mask is not 64 bits long. *)
Definition eui64 (n : Ip6.Ip6Network) (mac_address : MacAddress) : Exc Ip6.Ip6Host :=
  if mask_len (Ip6.net_mask n) =? 64 then
    a <- Ip6.of_int (Z.lor (Ip6.net_address n) (interface_id mac_address)) ;;
    m <- mask_of_prefix 64 ;;
    host_init a m
  else None.

End Ip6Lib.

(* ===================================================================== *)
(** * Vocabulary of the further properties of the cache *)
(* ===================================================================== *)

(** An entry that differs from [e] by its hit count at most. *)
Definition same_binding (e e' : NdCache.CacheEntry) : Prop :=
  NdCache.mac_address e' = NdCache.mac_address e
  /\ NdCache.permanent e' = NdCache.permanent e
  /\ NdCache.creation_time e' = NdCache.creation_time e.

(** A call on the cache that is no [add_entry]. *)
Definition no_add (op : NdCache.Call) : Prop :=
  match op with
  | NdCache.CallAdd _ _ _ => False
  | _ => True
  end.

(** A call on the cache that is neither the maintenance nor an [add_entry]
    for [K]. *)
Definition counts_for (K : Ip6.Ip6Address) (op : NdCache.Call) : Prop :=
  match op with
  | NdCache.CallAdd _ a _ => a <> K
  | NdCache.CallFind _ => True
  | NdCache.CallMaintain _ => False
  end.

(** The number of lookups of [K] among some calls. *)
Fixpoint lookups_of (K : Ip6.Ip6Address) (ops : list NdCache.Call) : N :=
  match ops with
  | [] => 0
  | NdCache.CallFind a :: rest =>
      ((if (a =? K)%Z then 1 else 0) + lookups_of K rest)%N
  | _ :: rest => lookups_of K rest
  end.

(* ===================================================================== *)
(** * More sample data *)
(* ===================================================================== *)

Module Sample2.

(** 2001:db8::3, a neighbour configured by hand. *)
Definition neighbour3 : Ip6.Ip6Address := 0x20010db8000000000000000000000003.

(** Three entries: one made at time 0 and used once, one made at time 30
    and never used, one permanent. *)
Definition cache3 : NdCache.t :=
  [(Sample.neighbour1, Sample.used_entry);
   (Sample.neighbour2,
    {| NdCache.mac_address := Sample.peer_mac; NdCache.permanent := false;
       NdCache.creation_time := 30; NdCache.hit_count := 0 |});
   (neighbour3,
    {| NdCache.mac_address := Sample.mac; NdCache.permanent := true;
       NdCache.creation_time := 0; NdCache.hit_count := 5 |})].

End Sample2.

(* ===================================================================== *)
(** * tcp/fpa.py *)
(* ===================================================================== *)

Module Tcp.

(** The constants of [tcp/ps.py] the assembler reads; that file is not
    among the sources, so they are left open. *)
Record Ps : Type := {
  TCP_HEADER_LEN : Z;
  TCP_OPT_EOL : Z;
  TCP_OPT_EOL_LEN : Z;
  TCP_OPT_NOP : Z;
  TCP_OPT_NOP_LEN : Z;
  TCP_OPT_MSS : Z;
  TCP_OPT_MSS_LEN : Z;
  TCP_OPT_WSCALE : Z;
  TCP_OPT_WSCALE_LEN : Z;
  TCP_OPT_SACKPERM : Z;
  TCP_OPT_SACKPERM_LEN : Z;
  TCP_OPT_TIMESTAMP : Z;
  TCP_OPT_TIMESTAMP_LEN : Z
}.

(** The six classes of options. *)
Inductive TcpOpt : Type :=
| TcpOptEol
| TcpOptNop
| TcpOptMss (_mss : Z)
| TcpOptWscale (_wscale : Z)
| TcpOptSackPerm
| TcpOptTimestamp (_tsval _tsecr : Z).

(** [TcpAssembler], without its tracker. *)
Record TcpAssembler : Type := {
  _sport : Z;
  _dport : Z;
  _seq : Z;
  _ack : Z;
  _flag_ns : bool;
  _flag_crw : bool;
  _flag_ece : bool;
  _flag_urg : bool;
  _flag_ack : bool;
  _flag_psh : bool;
  _flag_rst : bool;
  _flag_syn : bool;
  _flag_fin : bool;
  _win : Z;
  _urp : Z;
  _options : list TcpOpt;
  _data : list byte;
  _hlen : Z
}.

(** A [bool] where Python takes it as an [int]. *)
Definition int_of_bool (b : bool) : Z := if b then 1 else 0.

(** [len(x)] for an [x] whose [__len__] returns [n]: a [ValueError] when
    [n] is negative. *)
Definition py_len (n : Z) : Exc Z := if 0 <=? n then Some n else None.

Section Assembler.

Variable ps : Ps.

(** [misc.ip_helper.inet_cksum], which is not among the sources. *)
Variable inet_cksum : list byte -> Z -> Z.

(** [__len__] of an option. *)
Definition opt_len (option : TcpOpt) : Z :=
  match option with
  | TcpOptEol => TCP_OPT_EOL_LEN ps
  | TcpOptNop => TCP_OPT_NOP_LEN ps
  | TcpOptMss _ => TCP_OPT_MSS_LEN ps
  | TcpOptWscale _ => TCP_OPT_WSCALE_LEN ps
  | TcpOptSackPerm => TCP_OPT_SACKPERM_LEN ps
  | TcpOptTimestamp _ _ => TCP_OPT_TIMESTAMP_LEN ps
  end.

(** [raw_option] of an option. *)
Definition raw_option (option : TcpOpt) : Exc (list byte) :=
  match option with
  | TcpOptEol => Struct.pack_uint 1 (TCP_OPT_EOL ps)
  | TcpOptNop => Struct.pack_uint 1 (TCP_OPT_NOP ps)
  | TcpOptMss mss =>
      b1 <- Struct.pack_uint 1 (TCP_OPT_MSS ps) ;;
      b2 <- Struct.pack_uint 1 (TCP_OPT_MSS_LEN ps) ;;
      b3 <- Struct.pack_uint 2 mss ;;
      Some (b1 ++ b2 ++ b3)
  | TcpOptWscale wscale =>
      b1 <- Struct.pack_uint 1 (TCP_OPT_WSCALE ps) ;;
      b2 <- Struct.pack_uint 1 (TCP_OPT_WSCALE_LEN ps) ;;
      b3 <- Struct.pack_uint 1 wscale ;;
      Some (b1 ++ b2 ++ b3)
  | TcpOptSackPerm =>
      b1 <- Struct.pack_uint 1 (TCP_OPT_SACKPERM ps) ;;
      b2 <- Struct.pack_uint 1 (TCP_OPT_SACKPERM_LEN ps) ;;
      Some (b1 ++ b2)
  | TcpOptTimestamp tsval tsecr =>
      b1 <- Struct.pack_uint 1 (TCP_OPT_TIMESTAMP ps) ;;
      b2 <- Struct.pack_uint 1 (TCP_OPT_TIMESTAMP_LEN ps) ;;
      b3 <- Struct.pack_uint 4 tsval ;;
      b4 <- Struct.pack_uint 4 tsecr ;;
      Some (b1 ++ b2 ++ b3 ++ b4)
  end.

(** [[len(_) for _ in self._options]] *)
Fixpoint lens (options : list TcpOpt) : Exc (list Z) :=
  match options with
  | [] => Some []
  | option :: rest =>
      n <- py_len (opt_len option) ;;
      ns <- lens rest ;;
      Some (n :: ns)
  end.

(** [sum(..)] *)
Definition sum (l : list Z) : Z := fold_left Z.add l 0.

(** [TcpAssembler.__init__]: an [AssertionError] when the length of the
    header is no multiple of 4. *)
Definition init (sport dport seq ack : Z)
    (flag_ns flag_crw flag_ece flag_urg flag_ack flag_psh flag_rst flag_syn
       flag_fin : bool)
    (win urp : Z) (options : option (list TcpOpt)) (data : option (list byte))
  : Exc TcpAssembler :=
  let options := match options with None => [] | Some o => o end in
  let data := match data with None => [] | Some d => d end in
  ls <- lens options ;;
  let hlen := TCP_HEADER_LEN ps + sum ls in
  if hlen mod 4 =? 0 then
    Some {| _sport := sport; _dport := dport; _seq := seq; _ack := ack;
            _flag_ns := flag_ns; _flag_crw := flag_crw; _flag_ece := flag_ece;
            _flag_urg := flag_urg; _flag_ack := flag_ack; _flag_psh := flag_psh;
            _flag_rst := flag_rst; _flag_syn := flag_syn; _flag_fin := flag_fin;
            _win := win; _urp := urp; _options := options; _data := data;
            _hlen := hlen |}
  else None.

(** [TcpAssembler.__len__], through [len]. *)
Definition len (self : TcpAssembler) : Exc Z :=
  py_len (_hlen self + Z.of_nat (length (_data self))).

(** The loop of [_raw_options]. *)
Fixpoint raw_options_loop (options : list TcpOpt) (raw_options : list byte)
  : Exc (list byte) :=
  match options with
  | [] => Some raw_options
  | option :: rest =>
      r <- raw_option option ;;
      raw_options_loop rest (raw_options ++ r)
  end.

(** [TcpAssembler._raw_options] *)
Definition _raw_options (self : TcpAssembler) : Exc (list byte) :=
  raw_options_loop (_options self) [].

(** The thirteenth byte: [self._hlen << 2 | self._flag_ns]. *)
Definition offset_byte (self : TcpAssembler) : Z :=
  Z.lor (Z.shiftl (_hlen self) 2) (int_of_bool (_flag_ns self)).

(** The fourteenth byte, of the eight other flags. *)
Definition flags_byte (self : TcpAssembler) : Z :=
  Z.lor (Z.lor (Z.lor (Z.lor (Z.lor (Z.lor (Z.lor
    (Z.shiftl (int_of_bool (_flag_crw self)) 7)
    (Z.shiftl (int_of_bool (_flag_ece self)) 6))
    (Z.shiftl (int_of_bool (_flag_urg self)) 5))
    (Z.shiftl (int_of_bool (_flag_ack self)) 4))
    (Z.shiftl (int_of_bool (_flag_psh self)) 3))
    (Z.shiftl (int_of_bool (_flag_rst self)) 2))
    (Z.shiftl (int_of_bool (_flag_syn self)) 1))
    (int_of_bool (_flag_fin self)).

(** [TcpAssembler.assemble(frame, pshdr_sum)]: the frame after the two
    [struct.pack_into], a [struct.error] when a field does not fit its
    format or the frame is too short. *)
Definition assemble (self : TcpAssembler) (frame : list byte) (pshdr_sum : Z)
  : Exc (list byte) :=
  raw_options <- _raw_options self ;;
  sport <- Struct.pack_uint 2 (_sport self) ;;
  dport <- Struct.pack_uint 2 (_dport self) ;;
  seq <- Struct.pack_uint 4 (_seq self) ;;
  ack <- Struct.pack_uint 4 (_ack self) ;;
  offset <- Struct.pack_uint 1 (offset_byte self) ;;
  flags <- Struct.pack_uint 1 (flags_byte self) ;;
  win <- Struct.pack_uint 2 (_win self) ;;
  cksum <- Struct.pack_uint 2 0 ;;
  urp <- Struct.pack_uint 2 (_urp self) ;;
  frame <- Struct.pack_into
             (sport ++ dport ++ seq ++ ack ++ offset ++ flags ++ win ++ cksum
              ++ urp ++ raw_options ++ _data self)
             frame 0 ;;
  cksum <- Struct.pack_uint 2 (inet_cksum frame pshdr_sum) ;;
  Struct.pack_into cksum frame 16.

End Assembler.

(** ** Vocabulary of the properties of the assembler *)

(** The number of bytes of the raw form of an option. *)
Definition raw_len (option : TcpOpt) : nat :=
  match option with
  | TcpOptEol => 1
  | TcpOptNop => 1
  | TcpOptMss _ => 4
  | TcpOptWscale _ => 3
  | TcpOptSackPerm => 2
  | TcpOptTimestamp _ _ => 10
  end.

Definition raw_lens (options : list TcpOpt) : nat :=
  fold_right (fun o n => (raw_len o + n)%nat) 0%nat options.

Definition is_byte (v : Z) : Prop := 0 <= v < 2 ^ 8.

(** The values of an option fit the fields of its raw form. *)
Definition opt_fits (ps : Ps) (option : TcpOpt) : Prop :=
  match option with
  | TcpOptEol => is_byte (TCP_OPT_EOL ps)
  | TcpOptNop => is_byte (TCP_OPT_NOP ps)
  | TcpOptMss mss =>
      is_byte (TCP_OPT_MSS ps) /\ is_byte (TCP_OPT_MSS_LEN ps) /\ 0 <= mss < 2 ^ 16
  | TcpOptWscale wscale =>
      is_byte (TCP_OPT_WSCALE ps) /\ is_byte (TCP_OPT_WSCALE_LEN ps)
      /\ is_byte wscale
  | TcpOptSackPerm =>
      is_byte (TCP_OPT_SACKPERM ps) /\ is_byte (TCP_OPT_SACKPERM_LEN ps)
  | TcpOptTimestamp tsval tsecr =>
      is_byte (TCP_OPT_TIMESTAMP ps) /\ is_byte (TCP_OPT_TIMESTAMP_LEN ps)
      /\ 0 <= tsval < 2 ^ 32 /\ 0 <= tsecr < 2 ^ 32
  end.

(** The fields of the fixed header fit their formats. *)
Definition fields_fit (self : TcpAssembler) : Prop :=
  0 <= _sport self < 2 ^ 16 /\ 0 <= _dport self < 2 ^ 16
  /\ 0 <= _seq self < 2 ^ 32 /\ 0 <= _ack self < 2 ^ 32
  /\ 0 <= _win self < 2 ^ 16 /\ 0 <= _urp self < 2 ^ 16.

(** The constants give every option the length of its raw form, and the
    fixed header its twenty bytes. *)
Definition lengths_agree (ps : Ps) : Prop :=
  TCP_HEADER_LEN ps = 20
  /\ TCP_OPT_EOL_LEN ps = 1 /\ TCP_OPT_NOP_LEN ps = 1 /\ TCP_OPT_MSS_LEN ps = 4
  /\ TCP_OPT_WSCALE_LEN ps = 3 /\ TCP_OPT_SACKPERM_LEN ps = 2
  /\ TCP_OPT_TIMESTAMP_LEN ps = 10.

(** The twenty bytes of the fixed header, the checksum still zero. *)
Definition header (self : TcpAssembler) : list byte :=
  Struct.be_bytes 2 (_sport self) ++ Struct.be_bytes 2 (_dport self)
  ++ Struct.be_bytes 4 (_seq self) ++ Struct.be_bytes 4 (_ack self)
  ++ Struct.be_bytes 1 (offset_byte self) ++ Struct.be_bytes 1 (flags_byte self)
  ++ Struct.be_bytes 2 (_win self) ++ Struct.be_bytes 2 0
  ++ Struct.be_bytes 2 (_urp self).

(** The frame with the two bytes of its checksum cleared. *)
Definition without_cksum (frame : list byte) : list byte :=
  firstn 16 frame ++ [x00; x00] ++ skipn 18 frame.

End Tcp.

Module SampleTcp.

(** The kinds and lengths of RFC 9293 and RFC 7323. *)
Definition ps : Tcp.Ps :=
  {| Tcp.TCP_HEADER_LEN := 20;
     Tcp.TCP_OPT_EOL := 0; Tcp.TCP_OPT_EOL_LEN := 1;
     Tcp.TCP_OPT_NOP := 1; Tcp.TCP_OPT_NOP_LEN := 1;
     Tcp.TCP_OPT_MSS := 2; Tcp.TCP_OPT_MSS_LEN := 4;
     Tcp.TCP_OPT_WSCALE := 3; Tcp.TCP_OPT_WSCALE_LEN := 3;
     Tcp.TCP_OPT_SACKPERM := 4; Tcp.TCP_OPT_SACKPERM_LEN := 2;
     Tcp.TCP_OPT_TIMESTAMP := 8; Tcp.TCP_OPT_TIMESTAMP_LEN := 10 |}.

(** A checksum to run the assembler with: the sum of the bytes and of the
    pseudo header, on sixteen bits. *)
Definition cksum (frame : list byte) (pshdr_sum : Z) : Z :=
  (fold_left (fun a b => a + Z.of_N (Byte.to_N b)) frame pshdr_sum) mod 2 ^ 16.

(** A SYN from port 49152 to port 80 with three options and two bytes of
    data. *)
Definition syn : Tcp.TcpAssembler :=
  {| Tcp._sport := 49152; Tcp._dport := 80; Tcp._seq := 1000; Tcp._ack := 0;
     Tcp._flag_ns := false; Tcp._flag_crw := false; Tcp._flag_ece := false;
     Tcp._flag_urg := false; Tcp._flag_ack := false; Tcp._flag_psh := false;
     Tcp._flag_rst := false; Tcp._flag_syn := true; Tcp._flag_fin := false;
     Tcp._win := 65535; Tcp._urp := 0;
     Tcp._options := [Tcp.TcpOptMss 1460; Tcp.TcpOptNop; Tcp.TcpOptWscale 7];
     Tcp._data := [x68; x69];
     Tcp._hlen := 28 |}.

Definition frame : list byte := repeat xff 32.

End SampleTcp.

(* ===================================================================== *)
(** * protocols/arp/fpa.py *)
(* ===================================================================== *)

Module Arp.

Definition Ip4Address := Z.

(** The constants of [protocols/arp/ps.py] the assembler reads; that file
    is not among the sources, so they are left open. *)
Record Ps : Type := {
  ARP_HEADER_LEN : Z;
  ARP_OP_REQUEST : Z;
  ARP_OP_REPLY : Z
}.

(** [ArpAssembler], without its tracker. *)
Record ArpAssembler : Type := {
  _hrtype : Z;
  _prtype : Z;
  _hrlen : Z;
  _prlen : Z;
  _oper : Z;
  _sha : MacAddress;
  _spa : Ip4Address;
  _tha : MacAddress;
  _tpa : Ip4Address
}.

Section Assembler.

Variable ps : Ps.

(** [bytes(..)] of a [MacAddress] and of an [Ip4Address]; their classes
    are not among the sources. *)
Variable mac_bytes : MacAddress -> list byte.
Variable ip4_bytes : Ip4Address -> list byte.

(** [ArpAssembler.__init__]; an argument left out is [None] here and takes
    its default.  An [AssertionError] when the operation is neither a
    request nor a reply. *)
Definition init (sha : option MacAddress) (spa : option Ip4Address)
    (tha : option MacAddress) (tpa : option Ip4Address) (oper : option Z)
  : Exc ArpAssembler :=
  let sha := match sha with Some a => a | None => 0 end in
  let spa := match spa with Some a => a | None => 0 end in
  let tha := match tha with Some a => a | None => 0 end in
  let tpa := match tpa with Some a => a | None => 0 end in
  let oper := match oper with Some o => o | None => ARP_OP_REQUEST ps end in
  if (oper =? ARP_OP_REQUEST ps) || (oper =? ARP_OP_REPLY ps) then
    Some {| _hrtype := 1; _prtype := 0x0800; _hrlen := 6; _prlen := 4;
            _oper := oper; _sha := sha; _spa := spa; _tha := tha; _tpa := tpa |}
  else None.

(** [ArpAssembler.__len__], through [len]. *)
Definition len (self : ArpAssembler) : Exc Z := Tcp.py_len (ARP_HEADER_LEN ps).

(** [ArpAssembler.assemble(frame)]: the frame after [struct.pack_into]. *)
Definition assemble (self : ArpAssembler) (frame : list byte) : Exc (list byte) :=
  hrtype <- Struct.pack_uint 2 (_hrtype self) ;;
  prtype <- Struct.pack_uint 2 (_prtype self) ;;
  hrlen <- Struct.pack_uint 1 (_hrlen self) ;;
  prlen <- Struct.pack_uint 1 (_prlen self) ;;
  oper <- Struct.pack_uint 2 (_oper self) ;;
  Struct.pack_into
    (hrtype ++ prtype ++ hrlen ++ prlen ++ oper
     ++ Struct.pack_s 6 (mac_bytes (_sha self))
     ++ Struct.pack_s 4 (ip4_bytes (_spa self))
     ++ Struct.pack_s 6 (mac_bytes (_tha self))
     ++ Struct.pack_s 4 (ip4_bytes (_tpa self)))
    frame 0.

End Assembler.

End Arp.

Module SampleArp.

(** The operations of RFC 826. *)
Definition ps : Arp.Ps :=
  {| Arp.ARP_HEADER_LEN := 28; Arp.ARP_OP_REQUEST := 1; Arp.ARP_OP_REPLY := 2 |}.

(** The six bytes of a link-layer address and the four of an IPv4
    address, the most significant first. *)
Definition mac_bytes (a : MacAddress) : list byte := Struct.be_bytes 6 a.
Definition ip4_bytes (a : Arp.Ip4Address) : list byte := Struct.be_bytes 4 a.

(** A reply of 192.168.1.1 to 192.168.1.2. *)
Definition reply : Arp.ArpAssembler :=
  {| Arp._hrtype := 1; Arp._prtype := 0x0800; Arp._hrlen := 6; Arp._prlen := 4;
     Arp._oper := 2;
     Arp._sha := 0x0050569a0b1c; Arp._spa := 0xc0a80101;
     Arp._tha := 0x0050569a0b1d; Arp._tpa := 0xc0a80102 |}.

Definition frame : list byte := repeat xff 30.

End SampleArp.

(* ===================================================================== *)
(** * dhcp4/client.py *)
(* ===================================================================== *)

Module Dhcp4.

Definition Ip4Mask := Z.

(** The constants of [dhcp4/ps.py] the client reads; that file is not
    among the sources, so they are left open. *)
Record Ps : Type := {
  DHCP4_OP_REQUEST : Z;
  DHCP4_MSG_DISCOVER : Z;
  DHCP4_MSG_OFFER : Z;
  DHCP4_MSG_REQUEST : Z;
  DHCP4_MSG_ACK : Z;
  DHCP4_OPT_SUBNET_MASK : Z;
  DHCP4_OPT_ROUTER : Z
}.

(** [dhcp4.ps.Dhcp4Packet]: the attributes the client gives or reads.  One
    of the last six that the client leaves out, or that a packet received
    lacks, is [None]. *)
Record Dhcp4Packet : Type := {
  dhcp_op : Z;
  dhcp_xid : Z;
  dhcp_ciaddr : Arp.Ip4Address;
  dhcp_yiaddr : Arp.Ip4Address;
  dhcp_siaddr : Arp.Ip4Address;
  dhcp_giaddr : Arp.Ip4Address;
  dhcp_chaddr : list byte;
  dhcp_msg_type : Z;
  dhcp_srv_id : option Arp.Ip4Address;
  dhcp_req_ip_addr : option Arp.Ip4Address;
  dhcp_param_req_list : option (list Z);
  dhcp_host_name : option (list byte);
  dhcp_subnet_mask : option Ip4Mask;
  dhcp_router : option (list Arp.Ip4Address)
}.

(** The calls on the socket [s], in the order the client makes them; an
    address given as a string is written as its number. *)
Inductive SocketCall : Type :=
| CallSocket
| CallBind (address : Arp.Ip4Address) (port : Z)
| CallConnect (address : Arp.Ip4Address) (port : Z)
| CallSend (packet : Dhcp4Packet)
| CallRecv (timeout : Z)
| CallClose.

(** [Dhcp4Packet(s.recv(timeout=5))]: [socket.ReceiveTimeout], the packet
    read from what was received, or any other exception, of [s.recv] or of
    the reading of the packet; [fetch] catches the first only. *)
Inductive Received : Type :=
| ReceiveTimeout
| Packet (dhcp_packet_rx : Dhcp4Packet)
| Raised.

Section Client.

Variable ps : Ps.

(** [bytes(..)] of a [MacAddress], and [str(..)] of an [Ip4Address] and of
    an [Ip4Mask]; their classes are not among the sources. *)
Variable mac_bytes : MacAddress -> list byte.
Variable str_address : Arp.Ip4Address -> list byte.
Variable str_mask : Ip4Mask -> list byte.

(** The DHCP Discover of [fetch]. *)
Definition discover (_mac_address : MacAddress) (dhcp_xid : Z) : Dhcp4Packet :=
  {| dhcp_op := DHCP4_OP_REQUEST ps;
     dhcp_xid := dhcp_xid;
     dhcp_ciaddr := 0;
     dhcp_yiaddr := 0;
     dhcp_siaddr := 0;
     dhcp_giaddr := 0;
     dhcp_chaddr := mac_bytes _mac_address;
     dhcp_msg_type := DHCP4_MSG_DISCOVER ps;
     dhcp_srv_id := None;
     dhcp_req_ip_addr := None;
     dhcp_param_req_list := Some [DHCP4_OPT_SUBNET_MASK ps; DHCP4_OPT_ROUTER ps];
     dhcp_host_name := Some [x50; x79; x54; x43; x50];
     dhcp_subnet_mask := None;
     dhcp_router := None |}.

(** The DHCP Request of [fetch]. *)
Definition request (_mac_address : MacAddress) (dhcp_xid : Z)
    (dhcp_srv_id : option Arp.Ip4Address) (dhcp_yiaddr : Arp.Ip4Address)
  : Dhcp4Packet :=
  {| dhcp_op := DHCP4_OP_REQUEST ps;
     dhcp_xid := dhcp_xid;
     dhcp_ciaddr := 0;
     dhcp_yiaddr := 0;
     dhcp_siaddr := 0;
     dhcp_giaddr := 0;
     dhcp_chaddr := mac_bytes _mac_address;
     dhcp_msg_type := DHCP4_MSG_REQUEST ps;
     dhcp_srv_id := dhcp_srv_id;
     dhcp_req_ip_addr := Some dhcp_yiaddr;
     dhcp_param_req_list := Some [DHCP4_OPT_SUBNET_MASK ps; DHCP4_OPT_ROUTER ps];
     dhcp_host_name := Some [x50; x79; x54; x43; x50];
     dhcp_subnet_mask := None;
     dhcp_router := None |}.

(** [Dhcp4Client.fetch()]: the calls it makes on its socket and what it
    returns, for the number [dhcp_xid] that [random.randint] gave and the
    outcomes [recv] of its calls of [s.recv], counted from 0.  The result
    is an exception for an Ack without a subnet mask ([AssertionError]) or
    with an empty list of routers ([IndexError]), both after [s.close()],
    and for an exception other than [socket.ReceiveTimeout] of a receive,
    which leaves [fetch] at once: there is no [finally], so the socket is
    not closed.  The construction of the socket, [bind], [connect], [send],
    [close] and the building of the two packets are taken to return. *)
Definition fetch (_mac_address : MacAddress) (dhcp_xid : Z)
    (recv : nat -> Received)
  : list SocketCall * Exc (option (list byte) * option (list byte)) :=
  let calls :=
    [CallSocket; CallBind 0 68; CallConnect 0xFFFFFFFF 67;
     CallSend (discover _mac_address dhcp_xid); CallRecv 5] in
  match recv 0%nat with
  | ReceiveTimeout => (calls ++ [CallClose], Some (None, None))
  | Raised => (calls, None)
  | Packet dhcp_packet_rx =>
      if negb (dhcp_msg_type dhcp_packet_rx =? DHCP4_MSG_OFFER ps) then
        (calls ++ [CallClose], Some (None, None))
      else
        let dhcp_srv_id := dhcp_srv_id dhcp_packet_rx in
        let dhcp_yiaddr := dhcp_yiaddr dhcp_packet_rx in
        let calls :=
          calls ++ [CallSend (request _mac_address dhcp_xid dhcp_srv_id dhcp_yiaddr);
                    CallRecv 5] in
        match recv 1%nat with
        | ReceiveTimeout => (calls ++ [CallClose], Some (None, None))
        | Raised => (calls, None)
        | Packet dhcp_packet_rx =>
            if negb (Dhcp4.dhcp_msg_type dhcp_packet_rx =? DHCP4_MSG_ACK ps) then
              (calls ++ [CallClose], Some (None, None))
            else
              (calls ++ [CallClose],
               match dhcp_subnet_mask dhcp_packet_rx with
               | None => None
               | Some mask =>
                   let lease :=
                     str_address (Dhcp4.dhcp_yiaddr dhcp_packet_rx)
                     ++ str_mask mask in
                   match dhcp_router dhcp_packet_rx with
                   | None => Some (Some lease, None)
                   | Some [] => None
                   | Some (router :: _) =>
                       Some (Some lease, Some (str_address router))
                   end
               end)
        end
  end.

End Client.

(** ** Vocabulary of the properties of the client *)

Definition is_send (c : SocketCall) : bool :=
  match c with CallSend _ => true | _ => false end.

Definition is_close (c : SocketCall) : bool :=
  match c with CallClose => true | _ => false end.

(** The packets sent, in order. *)
Definition sent (calls : list SocketCall) : list Dhcp4Packet :=
  flat_map (fun c => match c with CallSend p => [p] | _ => [] end) calls.

(** A receive that [fetch] makes ends in an exception other than
    [socket.ReceiveTimeout]: the first one, or the second one, which is
    made after an Offer only. *)
Definition recv_raises (ps : Ps) (recv : nat -> Received) : Prop :=
  recv 0%nat = Raised
  \/ exists offer,
       recv 0%nat = Packet offer
       /\ dhcp_msg_type offer = DHCP4_MSG_OFFER ps
       /\ recv 1%nat = Raised.

End Dhcp4.

(* ===================================================================== *)
(** * Facts about the dictionary *)
(* ===================================================================== *)

Module PyDictFacts.
Section Facts.

Context {V : Type}.
Implicit Types (d : PyDict.t V) (k : Z) (v : V).

Lemma get_set_eq k v d : PyDict.get k (PyDict.set k v d) = Some v.
Proof.
  induction d as [|[k' v'] d IH]; simpl.
  - now rewrite Z.eqb_refl.
  - destruct (k =? k') eqn:E; simpl; rewrite ?Z.eqb_refl, ?E; auto.
Qed.

Lemma get_set_neq k k' v d : k <> k' -> PyDict.get k (PyDict.set k' v d) = PyDict.get k d.
Proof.
  intros Hne. induction d as [|[k0 v0] d IH]; simpl.
  - destruct (k =? k') eqn:E; auto. apply Z.eqb_eq in E. contradiction.
  - destruct (k' =? k0) eqn:E; simpl.
    + apply Z.eqb_eq in E. subst k0.
      destruct (k =? k') eqn:E'; auto.
      apply Z.eqb_eq in E'. contradiction.
    + destruct (k =? k0); auto.
Qed.

Lemma get_pop_neq k k' d : k <> k' -> PyDict.get k (PyDict.pop k' d) = PyDict.get k d.
Proof.
  intros Hne. induction d as [|[k0 v0] d IH]; simpl; auto.
  destruct (k' =? k0) eqn:E; simpl.
  - apply Z.eqb_eq in E. subst k0.
    destruct (k =? k') eqn:E'; auto. apply Z.eqb_eq in E'. contradiction.
  - destruct (k =? k0); auto.
Qed.

Lemma get_None_notin k d : PyDict.get k d = None <-> ~ In k (PyDict.keys d).
Proof.
  induction d as [|[k0 v0] d IH]; simpl.
  - tauto.
  - destruct (k =? k0) eqn:E.
    + apply Z.eqb_eq in E. split; [discriminate | intros H; exfalso; apply H; auto].
    + apply Z.eqb_neq in E. rewrite IH. split.
      * intros H [H'|H']; [congruence | contradiction].
      * intros H H'. apply H. auto.
Qed.

Lemma get_Some_in k v d : PyDict.get k d = Some v -> In k (PyDict.keys d).
Proof.
  intros H. destruct (in_dec Z.eq_dec k (PyDict.keys d)) as [|n]; auto.
  apply get_None_notin in n. congruence.
Qed.

Lemma in_get_Some k d : In k (PyDict.keys d) -> exists v, PyDict.get k d = Some v.
Proof.
  intros H. destruct (PyDict.get k d) eqn:E; eauto.
  apply get_None_notin in E. contradiction.
Qed.

Lemma get_pop_eq k d : PyDict.wf d -> PyDict.get k (PyDict.pop k d) = None.
Proof.
  unfold PyDict.wf. induction d as [|[k0 v0] d IH]; simpl; auto.
  intros Hnd. inversion Hnd as [|? ? Hnotin Hnd']; subst.
  destruct (k =? k0) eqn:E; simpl.
  - apply Z.eqb_eq in E. subst k0. now apply get_None_notin.
  - rewrite E. auto.
Qed.

Lemma keys_set_in k v d : In k (PyDict.keys d) -> PyDict.keys (PyDict.set k v d) = PyDict.keys d.
Proof.
  induction d as [|[k0 v0] d IH]; simpl; [tauto|].
  intros H. destruct (k =? k0) eqn:E; simpl.
  - apply Z.eqb_eq in E. now subst.
  - f_equal. apply IH. destruct H as [H|H]; auto.
    apply Z.eqb_neq in E. congruence.
Qed.

Lemma keys_set_notin k v d : ~ In k (PyDict.keys d) -> PyDict.keys (PyDict.set k v d) = PyDict.keys d ++ [k].
Proof.
  induction d as [|[k0 v0] d IH]; simpl; auto.
  intros H. destruct (k =? k0) eqn:E; simpl.
  - apply Z.eqb_eq in E. exfalso. apply H. auto.
  - f_equal. apply IH. auto.
Qed.

Lemma wf_nil : PyDict.wf (V := V) [].
Proof. constructor. Qed.

Lemma wf_set k v d : PyDict.wf d -> PyDict.wf (PyDict.set k v d).
Proof.
  unfold PyDict.wf. intros H.
  destruct (in_dec Z.eq_dec k (PyDict.keys d)) as [i|n].
  - now rewrite keys_set_in.
  - rewrite keys_set_notin by assumption.
    apply NoDup_rev in H. rewrite <- (rev_involutive (PyDict.keys d ++ [k])).
    apply NoDup_rev. rewrite rev_app_distr. simpl.
    constructor; auto. now rewrite <- in_rev.
Qed.

Lemma keys_pop_incl k d : incl (PyDict.keys (PyDict.pop k d)) (PyDict.keys d).
Proof.
  induction d as [|[k0 v0] d IH]; simpl; [apply incl_refl|].
  destruct (k =? k0); simpl.
  - apply incl_tl, incl_refl.
  - intros x [Hx|Hx]; [left; auto | right; auto].
Qed.

Lemma wf_pop k d : PyDict.wf d -> PyDict.wf (PyDict.pop k d).
Proof.
  unfold PyDict.wf. induction d as [|[k0 v0] d IH]; simpl; auto.
  intros H. inversion H as [|? ? Hnotin Hnd]; subst.
  destruct (k =? k0); simpl; auto.
  constructor; auto. intros Hin. apply Hnotin. eapply keys_pop_incl; eauto.
Qed.

End Facts.
End PyDictFacts.

(* ===================================================================== *)
(** * Facts about addresses *)
(* ===================================================================== *)

Module Ip6Facts.

Lemma land_low_shiftl x p n :
  0 <= n -> 0 <= x < 2 ^ n -> Z.land x (Z.shiftl p n) = 0.
Proof.
  intros Hn Hx. apply Z.bits_inj'. intros i Hi.
  rewrite Z.land_spec, Z.bits_0.
  destruct (Z.lt_ge_cases i n) as [Hlt|Hge].
  - rewrite (Z.shiftl_spec_low p n i Hlt). apply andb_false_r.
  - rewrite <- (Z.mod_small x (2 ^ n)) by lia.
    rewrite Z.mod_pow2_bits_high by lia. reflexivity.
Qed.

Lemma lor_low_shiftl x p n :
  0 <= n -> 0 <= x < 2 ^ n -> Z.lor x (Z.shiftl p n) = Z.shiftl p n + x.
Proof.
  intros Hn Hx. pose proof (land_low_shiftl x p n Hn Hx) as Hland.
  rewrite <- Z.lxor_lor by assumption.
  rewrite <- Z.add_nocarry_lxor by assumption. lia.
Qed.

(** The low 24 bits of an integer, under the prefix ff02::1:ff00:0/104. *)
Lemma solicited_node_multicast_int_eq a :
  Ip6.solicited_node_multicast_int a = Ip6.solicited_node_prefix + a mod 2 ^ 24.
Proof.
  unfold Ip6.solicited_node_multicast_int.
  change 0xFFFFFF with (Z.ones 24). rewrite Z.land_ones by lia.
  change Ip6.solicited_node_prefix with (Z.shiftl 0xff0200000000000000000001ff 24).
  apply lor_low_shiftl; [lia|]. apply Z.mod_pos_bound. lia.
Qed.

(** The constructor never refuses what [solicited_node_multicast] hands it. *)
Lemma solicited_node_multicast_eq a :
  Ip6.solicited_node_multicast a = Some (Ip6.solicited_node_prefix + a mod 2 ^ 24).
Proof.
  unfold Ip6.solicited_node_multicast, Ip6.of_int.
  rewrite solicited_node_multicast_int_eq.
  pose proof (Z.mod_pos_bound a (2 ^ 24) ltac:(lia)) as Hb.
  unfold Ip6.solicited_node_prefix.
  destruct (0 <=? _) eqn:E1; [|apply Z.leb_gt in E1; lia].
  destruct (_ <? _) eqn:E2; [reflexivity|apply Z.ltb_ge in E2; lia].
Qed.

Lemma solicited_node_is_multicast a :
  Ip6.is_multicast (Ip6.solicited_node_prefix + a mod 2 ^ 24) = true.
Proof.
  pose proof (Z.mod_pos_bound a (2 ^ 24) ltac:(lia)) as Hb.
  unfold Ip6.is_multicast, Ip6.solicited_node_prefix.
  apply andb_true_iff. split; [apply Z.leb_le | apply Z.ltb_lt]; lia.
Qed.

Lemma solicited_node_is_solicited_node a :
  Ip6.is_solicited_node_multicast (Ip6.solicited_node_prefix + a mod 2 ^ 24) = true.
Proof.
  pose proof (Z.mod_pos_bound a (2 ^ 24) ltac:(lia)) as Hb.
  unfold Ip6.is_solicited_node_multicast, Ip6.solicited_node_prefix.
  apply andb_true_iff. split; [apply Z.leb_le | apply Z.ltb_lt]; lia.
Qed.

End Ip6Facts.

(* ===================================================================== *)
(** * Facts about the cache *)
(* ===================================================================== *)

Lemma some_inj {A : Type} (x y : A) : Some x = Some y -> x = y.
Proof. intros H. now injection H. Qed.

Module NdCacheFacts.
Import NdCache.

(** ** The test [in] and the source of a solicitation *)

Lemma last_cases n : Ip6.last n = Some (Ip6.last_int n) \/ Ip6.last n = None.
Proof. unfold Ip6.last, Ip6.of_int. destruct (_ && _); auto. Qed.

(** When the test [in] returns, it says what the specification says. *)
Lemma contains_inv n a b :
  Ip6.contains n a = Some b -> b = within n a /\ Ip6.last n <> None.
Proof.
  unfold Ip6.contains, within.
  destruct (last_cases n) as [H|H]; rewrite H; [|discriminate].
  intros Hb. injection Hb as <-. split; [reflexivity | discriminate].
Qed.

Lemma contains_some n a :
  Ip6.last n <> None -> Ip6.contains n a = Some (within n a).
Proof.
  unfold Ip6.contains, within.
  destruct (last_cases n) as [H|H]; rewrite H; [reflexivity | intros Hn; now elim Hn].
Qed.

Lemma pick_source_loop_inv target hs : forall init s,
  pick_source_loop hs target init = Some s ->
  all_have_last hs
  /\ s = fold_left
           (fun src h => if within (Ip6.network h) target then Ip6.address h else src)
           hs init.
Proof.
  induction hs as [|h hs IH]; intros init s; cbn [pick_source_loop fold_left].
  - intros H. injection H as <-. split; [constructor | reflexivity].
  - destruct (Ip6.contains (Ip6.network h) target) as [b|] eqn:Hc;
      cbn [bind]; [|discriminate].
    apply contains_inv in Hc. destruct Hc as [-> Hlast].
    intros H. destruct (IH _ _ H) as [Hall ->].
    split; [now constructor | reflexivity].
Qed.

Lemma pick_source_loop_some target hs : forall init,
  all_have_last hs ->
  pick_source_loop hs target init
  = Some (fold_left
            (fun src h => if within (Ip6.network h) target then Ip6.address h else src)
            hs init).
Proof.
  induction hs as [|h hs IH]; intros init Hall; cbn [pick_source_loop fold_left].
  - reflexivity.
  - inversion Hall as [|? ? Hh Hrest]; subst.
    rewrite (contains_some _ target Hh). cbn [bind]. now apply IH.
Qed.

(** The loop keeps the last host that matches. *)
Lemma fold_source target hs :
  fold_left
    (fun src h => if within (Ip6.network h) target then Ip6.address h else src)
    hs Ip6.unspecified
  = spec_source hs target.
Proof.
  unfold spec_source, last_matching_host.
  generalize Ip6.unspecified as init.
  induction hs as [|h l IH] using rev_ind; intros init; simpl.
  - reflexivity.
  - rewrite fold_left_app, rev_app_distr. simpl.
    destruct (within (Ip6.network h) target); [reflexivity|].
    apply IH.
Qed.

Section WithStack.

Variable hosts : list Ip6.Ip6Host.
Variable mac : MacAddress.
Variable cfg : Config.

(** The loop of the sender, when it ends, has picked the source of the
    specification; it ends when every host has a last address. *)
Lemma pick_source_inv target s :
  pick_source hosts target = Some s ->
  s = spec_source hosts target /\ all_have_last hosts.
Proof.
  unfold pick_source. intros H.
  destruct (pick_source_loop_inv target hosts _ _ H) as [Hall ->].
  split; [apply fold_source | exact Hall].
Qed.

Lemma pick_source_spec target :
  all_have_last hosts -> pick_source hosts target = Some (spec_source hosts target).
Proof.
  intros Hall. unfold pick_source.
  rewrite (pick_source_loop_some target hosts _ Hall). now rewrite fold_source.
Qed.

Lemma send_inv target out :
  _send_icmp6_neighbor_solicitation hosts mac target = Some out ->
  out = [solicitation hosts mac target] /\ all_have_last hosts.
Proof.
  unfold _send_icmp6_neighbor_solicitation.
  destruct (pick_source hosts target) as [s|] eqn:Hs; cbn [bind]; [|discriminate].
  apply pick_source_inv in Hs. destruct Hs as [-> Hall].
  rewrite Ip6Facts.solicited_node_multicast_eq. cbn [bind].
  intros H. apply some_inj in H. subst out. split; [reflexivity | exact Hall].
Qed.

Lemma send_eq target :
  all_have_last hosts ->
  _send_icmp6_neighbor_solicitation hosts mac target = Some [solicitation hosts mac target].
Proof.
  intros Hall. unfold _send_icmp6_neighbor_solicitation.
  rewrite (pick_source_spec target Hall). cbn [bind].
  rewrite Ip6Facts.solicited_node_multicast_eq. reflexivity.
Qed.

Lemma solicits_solicitation k target :
  solicits k (solicitation hosts mac target) = (target =? k).
Proof. reflexivity. Qed.

Lemma solicitations_for_app k o1 o2 :
  solicitations_for k (o1 ++ o2) = solicitations_for k o1 ++ solicitations_for k o2.
Proof. apply filter_app. Qed.

Lemma solicitations_for_other k target :
  k <> target -> solicitations_for k [solicitation hosts mac target] = [].
Proof.
  intros Hne. unfold solicitations_for. cbn [filter].
  rewrite solicits_solicitation.
  destruct (target =? k) eqn:E; [|reflexivity].
  apply Z.eqb_eq in E. congruence.
Qed.

Lemma solicitations_for_same k :
  solicitations_for k [solicitation hosts mac k] = [solicitation hosts mac k].
Proof.
  unfold solicitations_for. cbn [filter].
  now rewrite solicits_solicitation, Z.eqb_refl.
Qed.

(** One turn of the loop that ended without an exception: its key was
    bound, it touched the binding of its own key only and solicited for
    that key only. *)
Lemma maintain_entry_inv now k c c1 out1 :
  PyDict.wf c ->
  maintain_entry hosts mac cfg now k c = Some (c1, out1) ->
  exists e,
    PyDict.get k c = Some e
    /\ PyDict.wf c1
    /\ (forall k', k' <> k ->
          PyDict.get k' c1 = PyDict.get k' c /\ solicitations_for k' out1 = [])
    /\ sweep_outcome hosts mac cfg now k e c1 out1.
Proof.
  intros Hwf. unfold maintain_entry.
  destruct (PyDict.get k c) as [e|] eqn:Hget; cbn [bind]; [|discriminate].
  intros H. exists e. split; [reflexivity|]. revert H.
  unfold sweep_outcome, action.
  destruct (permanent e); [|destruct (_ >? _); [|destruct (_ && _)]].
  - intros H. apply some_inj in H. injection H as <- <-. repeat split; auto.
  - intros H. apply some_inj in H. injection H as <- <-. repeat split; auto.
    + now apply PyDictFacts.wf_pop.
    + now apply PyDictFacts.get_pop_neq.
    + now apply PyDictFacts.get_pop_eq.
  - destruct (_send_icmp6_neighbor_solicitation hosts mac k) as [out|] eqn:Hsend;
      cbn [bind]; [|discriminate].
    apply send_inv in Hsend. destruct Hsend as [-> _].
    intros H. apply some_inj in H.
    assert (c1 = PyDict.set k (set_hit_count e 0) c
            /\ out1 = [solicitation hosts mac k]) as [-> ->]
      by (split; congruence).
    repeat split.
    + now apply PyDictFacts.wf_set.
    + now apply PyDictFacts.get_set_neq.
    + now apply solicitations_for_other.
    + apply PyDictFacts.get_set_eq.
    + apply solicitations_for_same.
  - intros H. apply some_inj in H. injection H as <- <-. repeat split; auto.
Qed.

(** One turn of the loop ends without an exception when its key is bound
    and every host has a last address. *)
Lemma maintain_entry_some now k c e :
  all_have_last hosts -> PyDict.get k c = Some e ->
  exists c1 out1, maintain_entry hosts mac cfg now k c = Some (c1, out1).
Proof.
  intros Hall Hget. unfold maintain_entry. rewrite Hget. cbn [bind].
  destruct (permanent e); [|destruct (_ >? _); [|destruct (_ && _)]]; eauto.
  rewrite (send_eq k Hall). cbn [bind]. eauto.
Qed.

Lemma sweep_outcome_later now k e c1 out1 c2 out2 :
  sweep_outcome hosts mac cfg now k e c1 out1 ->
  PyDict.get k c2 = PyDict.get k c1 -> solicitations_for k out2 = [] ->
  sweep_outcome hosts mac cfg now k e c2 (out1 ++ out2).
Proof.
  unfold sweep_outcome. intros H Hg Hs.
  rewrite solicitations_for_app, Hs, app_nil_r, Hg. exact H.
Qed.

Lemma sweep_outcome_earlier now k e c2 out1 out2 :
  sweep_outcome hosts mac cfg now k e c2 out2 ->
  solicitations_for k out1 = [] ->
  sweep_outcome hosts mac cfg now k e c2 (out1 ++ out2).
Proof.
  unfold sweep_outcome. intros H Hs.
  rewrite solicitations_for_app, Hs. exact H.
Qed.

(** The loop over a snapshot without repetition, when it ended without an
    exception. *)
Lemma maintain_loop_inv now ks :
  NoDup ks ->
  forall c c' out,
    PyDict.wf c ->
    maintain_loop hosts mac cfg now ks c = Some (c', out) ->
    PyDict.wf c'
    /\ (forall k, ~ In k ks ->
          PyDict.get k c' = PyDict.get k c /\ solicitations_for k out = [])
    /\ (forall k e, In k ks -> PyDict.get k c = Some e ->
          sweep_outcome hosts mac cfg now k e c' out).
Proof.
  induction 1 as [|k0 ks Hnotin Hnd IH]; intros c c' out Hwf Hrun.
  - simpl in Hrun. injection Hrun as <- <-. repeat split; auto. intros k e [].
  - simpl in Hrun.
    destruct (maintain_entry hosts mac cfg now k0 c) as [[c1 out1]|] eqn:Hstep;
      simpl in Hrun; [|discriminate].
    destruct (maintain_loop hosts mac cfg now ks c1) as [[c2 out2]|] eqn:Hloop;
      simpl in Hrun; [|discriminate].
    injection Hrun as <- <-.
    destruct (maintain_entry_inv now k0 c c1 out1 Hwf Hstep)
      as (e0 & Hget0 & Hwf1 & Hother1 & Hout1).
    destruct (IH c1 c2 out2 Hwf1 Hloop) as (Hwf2 & Hother2 & Hin2).
    split; [exact Hwf2|]. split.
    + intros k Hk. split.
      * destruct (Hother2 k) as [-> _]; [simpl in Hk; tauto|].
        apply Hother1. intros ->. apply Hk. now left.
      * rewrite solicitations_for_app.
        destruct (Hother2 k) as [_ ->]; [simpl in Hk; tauto|].
        destruct (Hother1 k) as [_ ->]; [intros ->; apply Hk; now left|]. reflexivity.
    + intros k e [<-|Hk] Hget.
      * assert (e = e0) as -> by congruence.
        destruct (Hother2 k0 Hnotin) as [Hg Hs].
        now apply sweep_outcome_later with (c1 := c1).
      * assert (k <> k0) as Hne by (intros ->; contradiction).
        destruct (Hother1 k Hne) as [Hg Hs].
        apply sweep_outcome_earlier; auto.
        apply Hin2; auto. congruence.
Qed.

(** The loop ends without an exception over a snapshot without repetition
    whose keys are all bound, when every host has a last address. *)
Lemma maintain_loop_some now ks :
  all_have_last hosts ->
  NoDup ks ->
  forall c,
    PyDict.wf c ->
    (forall k, In k ks -> PyDict.get k c <> None) ->
    exists c' out, maintain_loop hosts mac cfg now ks c = Some (c', out).
Proof.
  intros Hall. induction 1 as [|k0 ks Hnotin Hnd IH]; intros c Hwf Hbound.
  - exists c, []. reflexivity.
  - destruct (PyDict.get k0 c) as [e0|] eqn:Hget0;
      [|exfalso; apply (Hbound k0); simpl; auto].
    destruct (maintain_entry_some now k0 c e0 Hall Hget0) as (c1 & out1 & Hstep).
    destruct (maintain_entry_inv now k0 c c1 out1 Hwf Hstep)
      as (_ & _ & Hwf1 & Hother1 & _).
    destruct (IH c1 Hwf1) as (c2 & out2 & Hloop).
    { intros k Hk. assert (k <> k0) as Hne by (intros ->; contradiction).
      destruct (Hother1 k Hne) as [-> _]. apply Hbound. simpl. auto. }
    exists c2, (out1 ++ out2). simpl. rewrite Hstep. simpl. rewrite Hloop. reflexivity.
Qed.

(** The whole maintenance, entry by entry, when it ended without an
    exception. *)
Lemma maintain_cache_inv now c c' out :
  PyDict.wf c ->
  _maintain_cache hosts mac cfg now c = Some (c', out) ->
  PyDict.wf c'
  /\ (forall k, PyDict.get k c = None ->
        PyDict.get k c' = None /\ solicitations_for k out = [])
  /\ (forall k e, PyDict.get k c = Some e ->
        sweep_outcome hosts mac cfg now k e c' out).
Proof.
  intros Hwf Hrun. unfold _maintain_cache in Hrun.
  destruct (maintain_loop_inv now (PyDict.keys c) Hwf c c' out Hwf Hrun)
    as (Hwf' & Hother & Hin).
  split; [exact Hwf'|]. split.
  - intros k Hnone. apply PyDictFacts.get_None_notin in Hnone.
    destruct (Hother k Hnone) as [Hg Hs]. split; [|exact Hs].
    rewrite Hg. now apply PyDictFacts.get_None_notin.
  - intros k e Hget. apply Hin; auto. eapply PyDictFacts.get_Some_in; eauto.
Qed.

(** The maintenance ends without an exception when every host has a last
    address. *)
Lemma maintain_cache_some now c :
  all_have_last hosts -> PyDict.wf c ->
  exists c' out, _maintain_cache hosts mac cfg now c = Some (c', out).
Proof.
  intros Hall Hwf. unfold _maintain_cache.
  apply maintain_loop_some; auto.
  intros k Hk. destruct (PyDictFacts.in_get_Some k c Hk) as [v ->]. discriminate.
Qed.

Lemma maintain_cache_spec now c :
  all_have_last hosts -> PyDict.wf c ->
  exists c' out,
    _maintain_cache hosts mac cfg now c = Some (c', out)
    /\ PyDict.wf c'
    /\ (forall k, PyDict.get k c = None ->
          PyDict.get k c' = None /\ solicitations_for k out = [])
    /\ (forall k e, PyDict.get k c = Some e ->
          sweep_outcome hosts mac cfg now k e c' out).
Proof.
  intros Hall Hwf.
  destruct (maintain_cache_some now c Hall Hwf) as (c' & out & Hrun).
  exists c', out. split; [exact Hrun|].
  now apply maintain_cache_inv.
Qed.

(** ** The branch taken, from the comparisons of the loop *)

Lemma action_permanent now e :
  permanent e = true -> action cfg now e = SkipPermanent.
Proof. unfold action. now intros ->. Qed.

Lemma action_discard now e :
  permanent e = false ->
  now - creation_time e > nd_cache_entry_max_age cfg ->
  action cfg now e = Discard.
Proof.
  unfold action. intros -> H.
  destruct (Z.gtb_spec (now - creation_time e) (nd_cache_entry_max_age cfg)); [reflexivity|lia].
Qed.

Lemma action_refresh now e :
  permanent e = false ->
  now - creation_time e <= nd_cache_entry_max_age cfg ->
  now - creation_time e > nd_cache_entry_max_age cfg - nd_cache_entry_refresh_time cfg ->
  (0 < hit_count e)%N ->
  action cfg now e = Refresh.
Proof.
  unfold action. intros -> H1 H2 H3.
  destruct (Z.gtb_spec (now - creation_time e) (nd_cache_entry_max_age cfg)); [lia|].
  destruct (Z.gtb_spec (now - creation_time e)
              (nd_cache_entry_max_age cfg - nd_cache_entry_refresh_time cfg)); [|lia].
  destruct (N.eqb_spec (hit_count e) 0); [lia|reflexivity].
Qed.

Lemma action_refresh_inv now e :
  action cfg now e = Refresh ->
  permanent e = false
  /\ now - creation_time e <= nd_cache_entry_max_age cfg
  /\ now - creation_time e > nd_cache_entry_max_age cfg - nd_cache_entry_refresh_time cfg
  /\ (0 < hit_count e)%N.
Proof.
  unfold action. destruct (permanent e); [discriminate|].
  destruct (Z.gtb_spec (now - creation_time e) (nd_cache_entry_max_age cfg));
    [discriminate|].
  destruct (Z.gtb_spec (now - creation_time e)
              (nd_cache_entry_max_age cfg - nd_cache_entry_refresh_time cfg));
    [|discriminate].
  destruct (N.eqb_spec (hit_count e) 0); [discriminate|].
  intros _. repeat split; lia.
Qed.

Lemma action_leave now e :
  permanent e = false ->
  now - creation_time e <= nd_cache_entry_max_age cfg ->
  ~ (now - creation_time e > nd_cache_entry_max_age cfg - nd_cache_entry_refresh_time cfg
     /\ (0 < hit_count e)%N) ->
  action cfg now e = Leave.
Proof.
  unfold action. intros -> H1 H2.
  destruct (Z.gtb_spec (now - creation_time e) (nd_cache_entry_max_age cfg)); [lia|].
  destruct (Z.gtb_spec (now - creation_time e)
              (nd_cache_entry_max_age cfg - nd_cache_entry_refresh_time cfg));
    [|reflexivity].
  destruct (N.eqb_spec (hit_count e) 0); [reflexivity|].
  exfalso. apply H2. split; lia.
Qed.

(** Within the maximum age the maintenance keeps the entry, whatever the
    branch. *)
Lemma sweep_outcome_kept now k e c' out :
  permanent e = false ->
  now - creation_time e <= nd_cache_entry_max_age cfg ->
  sweep_outcome hosts mac cfg now k e c' out ->
  exists e', PyDict.get k c' = Some e'
             /\ mac_address e' = mac_address e
             /\ permanent e' = false
             /\ creation_time e' = creation_time e.
Proof.
  unfold sweep_outcome, action. intros Hp Hage. rewrite Hp.
  destruct (Z.gtb_spec (now - creation_time e) (nd_cache_entry_max_age cfg)); [lia|].
  destruct (_ && _); intros [Hg _].
  - exists (set_hit_count e 0). simpl. auto.
  - exists e. auto.
Qed.

(** Whatever the branch, an entry that survives keeps its permanence. *)
Lemma sweep_outcome_permanent now k e c' out e' :
  sweep_outcome hosts mac cfg now k e c' out ->
  PyDict.get k c' = Some e' -> permanent e' = permanent e.
Proof.
  unfold sweep_outcome.
  destruct (action cfg now e); intros [Hg _] Hg'; rewrite Hg in Hg';
    inversion Hg'; reflexivity.
Qed.

(** Whatever the branch, at most one solicitation goes out for the key. *)
Lemma sweep_outcome_one now k e c' out :
  sweep_outcome hosts mac cfg now k e c' out ->
  (length (solicitations_for k out) <= 1)%nat.
Proof.
  unfold sweep_outcome.
  destruct (action cfg now e); intros [_ ->]; cbn [length]; lia.
Qed.

(** ** [find_entry] *)

Lemma find_entry_hit k c e :
  PyDict.get k c = Some e ->
  find_entry hosts mac k c
  = Some (Some (mac_address e),
          PyDict.set k (set_hit_count e (hit_count e + 1)) c, []).
Proof. unfold find_entry. now intros ->. Qed.

Lemma find_entry_miss k c :
  all_have_last hosts ->
  PyDict.get k c = None ->
  find_entry hosts mac k c = Some (None, c, [solicitation hosts mac k]).
Proof. unfold find_entry. intros Hall ->. now rewrite (send_eq k Hall). Qed.

(** A lookup that missed and ended without an exception. *)
Lemma find_entry_miss_inv k c r c' out :
  PyDict.get k c = None ->
  find_entry hosts mac k c = Some (r, c', out) ->
  r = None /\ c' = c /\ out = [solicitation hosts mac k] /\ all_have_last hosts.
Proof.
  unfold find_entry. intros ->.
  destruct (_send_icmp6_neighbor_solicitation hosts mac k) as [o|] eqn:Hsend;
    cbn [bind]; [|discriminate].
  apply send_inv in Hsend. destruct Hsend as [-> Hall].
  intros H. apply some_inj in H.
  assert (r = None /\ c' = c /\ out = [solicitation hosts mac k]) as (-> & -> & ->)
    by (repeat split; congruence).
  auto.
Qed.

End WithStack.
End NdCacheFacts.

(* ===================================================================== *)
(** * The maintenance sweep *)
(* ===================================================================== *)

(** C1.  The maintenance, run at time [now] over a cache that binds [k] to
    [e], ends without an exception in a stack whose hosts all have a
    network with a last address, and whenever it ends without one it has
    treated the entry by its state: a permanent entry stays as it is and
    nothing is sent for it; a non-permanent entry older than the maximum
    age is removed; a non-permanent entry within the maximum age, older
    than the maximum age less the refresh time and with a positive hit
    count stays with its hit count at zero and its creation time, address
    and permanence as they were, and exactly one Neighbor Solicitation is
    sent for its key; any other entry stays as it is and nothing is sent
    for it. *)
Theorem maintain_cache_postcondition
    (hosts : list Ip6.Ip6Host) (mac : MacAddress) (cfg : Config)
    (now : Z) (c : NdCache.t) (k : Ip6.Ip6Address) (e : NdCache.CacheEntry) :
  PyDict.wf c ->
  PyDict.get k c = Some e ->
  (all_have_last hosts ->
   exists c' out, NdCache._maintain_cache hosts mac cfg now c = Some (c', out))
  /\ (forall c' out,
        NdCache._maintain_cache hosts mac cfg now c = Some (c', out) ->
        (NdCache.permanent e = true ->
         PyDict.get k c' = Some e /\ solicitations_for k out = [])
        /\ (NdCache.permanent e = false ->
            now - NdCache.creation_time e > nd_cache_entry_max_age cfg ->
            PyDict.get k c' = None /\ solicitations_for k out = [])
        /\ (NdCache.permanent e = false ->
            now - NdCache.creation_time e <= nd_cache_entry_max_age cfg ->
            now - NdCache.creation_time e
              > nd_cache_entry_max_age cfg - nd_cache_entry_refresh_time cfg ->
            (0 < NdCache.hit_count e)%N ->
            PyDict.get k c'
              = Some {| NdCache.mac_address := NdCache.mac_address e;
                        NdCache.permanent := NdCache.permanent e;
                        NdCache.creation_time := NdCache.creation_time e;
                        NdCache.hit_count := 0 |}
            /\ solicitations_for k out = [solicitation hosts mac k])
        /\ (NdCache.permanent e = false ->
            now - NdCache.creation_time e <= nd_cache_entry_max_age cfg ->
            ~ (now - NdCache.creation_time e
                 > nd_cache_entry_max_age cfg - nd_cache_entry_refresh_time cfg
               /\ (0 < NdCache.hit_count e)%N) ->
            PyDict.get k c' = Some e /\ solicitations_for k out = [])).
Proof.
  intros Hwf Hget. split.
  { intros Hall. now apply NdCacheFacts.maintain_cache_some. }
  intros c' out Hrun.
  destruct (NdCacheFacts.maintain_cache_inv hosts mac cfg now c c' out Hwf Hrun)
    as (_ & _ & Hin).
  specialize (Hin k e Hget). unfold sweep_outcome in Hin.
  split; [|split; [|split]].
  - intros Hperm.
    now rewrite (NdCacheFacts.action_permanent cfg now e Hperm) in Hin.
  - intros Hperm Hold.
    now rewrite (NdCacheFacts.action_discard cfg now e Hperm Hold) in Hin.
  - intros Hperm Hage Hnear Hhit.
    rewrite (NdCacheFacts.action_refresh cfg now e Hperm Hage Hnear Hhit) in Hin.
    exact Hin.
  - intros Hperm Hage Hno.
    now rewrite (NdCacheFacts.action_leave cfg now e Hperm Hage Hno) in Hin.
Qed.

Lemma wf_cache1 : PyDict.wf Sample.cache1.
Proof.
  unfold PyDict.wf. simpl. constructor; [intros [] | constructor].
Defined.

Lemma sample_hosts_have_last : all_have_last Sample.hosts.
Proof.
  repeat constructor; unfold has_last; vm_compute; discriminate.
Defined.

Lemma maintain_cache_postcondition_witness :
  all_have_last Sample.hosts
  /\ PyDict.wf Sample.cache1
  /\ PyDict.get Sample.neighbour1 Sample.cache1 = Some Sample.used_entry
  /\ exists c' out,
       NdCache._maintain_cache Sample.hosts Sample.mac Sample.cfg 56 Sample.cache1
       = Some (c', out)
       /\ PyDict.get Sample.neighbour1 c'
          = Some (NdCache.set_hit_count Sample.used_entry 0)
       /\ solicitations_for Sample.neighbour1 out
          = [solicitation Sample.hosts Sample.mac Sample.neighbour1].
Proof.
  split; [exact sample_hosts_have_last|].
  split; [exact wf_cache1|]. split; [reflexivity|].
  destruct (maintain_cache_postcondition Sample.hosts Sample.mac Sample.cfg 56
              Sample.cache1 Sample.neighbour1 Sample.used_entry
              wf_cache1 eq_refl)
    as [Hends Hpost].
  destruct (Hends sample_hosts_have_last) as (c' & out & Hrun).
  destruct (Hpost c' out Hrun) as (_ & _ & Hrefresh & _).
  exists c', out. split; [exact Hrun|].
  apply Hrefresh; [reflexivity | simpl; lia | simpl; lia | reflexivity].
Defined.

(* ===================================================================== *)
(** * Lookup *)
(* ===================================================================== *)

(** C2.  [find_entry] on a key bound to [e] returns the link-layer address
    of [e], leaves the entry with its hit count raised by exactly one and
    every other field and every other binding as it was, and sends nothing;
    on a key that is not bound, in a stack whose hosts all have a network
    with a last address, it returns [None], sends exactly one Neighbor
    Solicitation for the key and leaves the cache as it was; and whenever
    a lookup of a key that is not bound ends without an exception, that
    is what it has done. *)
Theorem find_entry_postcondition
    (hosts : list Ip6.Ip6Host) (mac : MacAddress)
    (k : Ip6.Ip6Address) (c : NdCache.t) :
  (forall e, PyDict.get k c = Some e ->
     exists c',
       NdCache.find_entry hosts mac k c = Some (Some (NdCache.mac_address e), c', [])
       /\ PyDict.get k c'
          = Some {| NdCache.mac_address := NdCache.mac_address e;
                    NdCache.permanent := NdCache.permanent e;
                    NdCache.creation_time := NdCache.creation_time e;
                    NdCache.hit_count := NdCache.hit_count e + 1 |}
       /\ (forall k', k' <> k -> PyDict.get k' c' = PyDict.get k' c)
       /\ PyDict.keys c' = PyDict.keys c)
  /\ (PyDict.get k c = None ->
      all_have_last hosts ->
      NdCache.find_entry hosts mac k c = Some (None, c, [solicitation hosts mac k])
      /\ solicitations_for k [solicitation hosts mac k] = [solicitation hosts mac k])
  /\ (PyDict.get k c = None ->
      forall r c' out,
        NdCache.find_entry hosts mac k c = Some (r, c', out) ->
        r = None /\ c' = c /\ out = [solicitation hosts mac k]).
Proof.
  split.
  - intros e Hget.
    exists (PyDict.set k (NdCache.set_hit_count e (NdCache.hit_count e + 1)) c).
    split; [now apply NdCacheFacts.find_entry_hit|].
    split; [apply PyDictFacts.get_set_eq|].
    split.
    + intros k' Hne. now apply PyDictFacts.get_set_neq.
    + apply PyDictFacts.keys_set_in. eapply PyDictFacts.get_Some_in; eauto.
  - split.
    + intros Hget Hall. split.
      * now apply NdCacheFacts.find_entry_miss.
      * apply NdCacheFacts.solicitations_for_same.
    + intros Hget r c' out Hrun.
      destruct (NdCacheFacts.find_entry_miss_inv hosts mac k c r c' out Hget Hrun)
        as (Hr & Hc & Hout & _).
      auto.
Qed.

Lemma find_entry_postcondition_witness :
  (exists c',
     NdCache.find_entry Sample.hosts Sample.mac Sample.neighbour1 Sample.cache1
     = Some (Some Sample.peer_mac, c', [])
     /\ PyDict.get Sample.neighbour1 c'
        = Some (NdCache.set_hit_count Sample.used_entry 2))
  /\ NdCache.find_entry Sample.hosts Sample.mac Sample.neighbour2 Sample.cache1
     = Some (None, Sample.cache1,
             [solicitation Sample.hosts Sample.mac Sample.neighbour2]).
Proof.
  split.
  - destruct (proj1 (find_entry_postcondition Sample.hosts Sample.mac
                       Sample.neighbour1 Sample.cache1)
                Sample.used_entry eq_refl) as (c' & Hrun & Hget & _).
    exists c'. split; [exact Hrun | exact Hget].
  - exact (proj1 (proj1 (proj2 (find_entry_postcondition Sample.hosts Sample.mac
                                  Sample.neighbour2 Sample.cache1))
                    eq_refl sample_hosts_have_last)).
Defined.

(* ===================================================================== *)
(** * Adding an entry and finding it again *)
(* ===================================================================== *)

Section AddThenFind.

Variable hosts : list Ip6.Ip6Host.
Variable mac : MacAddress.
Variable cfg : Config.
Hypothesis Hall : all_have_last hosts.

Lemma binds_add t0 K M c : PyDict.wf c -> binds K M t0 (NdCache.add_entry t0 K M c).
Proof.
  intros Hwf. split.
  - now apply PyDictFacts.wf_set.
  - exists (NdCache.CacheEntry_init t0 M false).
    unfold NdCache.add_entry. rewrite PyDictFacts.get_set_eq. auto.
Qed.

Lemma binds_find t0 K M k c :
  binds K M t0 c ->
  exists r c' out,
    NdCache.find_entry hosts mac k c = Some (r, c', out) /\ binds K M t0 c'.
Proof.
  intros [Hwf (e & Hget & Hm & Hp & Ht)].
  destruct (PyDict.get k c) as [e'|] eqn:Hk.
  - rewrite (NdCacheFacts.find_entry_hit hosts mac k c e' Hk).
    do 3 eexists. split; [reflexivity|]. split; [now apply PyDictFacts.wf_set|].
    destruct (Z.eq_dec K k) as [->|Hne].
    + assert (e' = e) as -> by congruence.
      eexists. rewrite PyDictFacts.get_set_eq. split; [reflexivity|]. simpl. auto.
    + exists e. rewrite PyDictFacts.get_set_neq by assumption. auto.
  - rewrite (NdCacheFacts.find_entry_miss hosts mac k c Hall Hk).
    do 3 eexists. split; [reflexivity|]. split; [assumption|]. eauto.
Qed.

Lemma binds_call t0 K M op c :
  keeps_binding cfg t0 K op -> binds K M t0 c ->
  exists c' out, NdCache.call hosts mac cfg op c = Some (c', out) /\ binds K M t0 c'.
Proof.
  intros Hop Hb. destruct op as [now a m | a | now]; simpl in *.
  - do 2 eexists. split; [reflexivity|].
    destruct Hb as [Hwf (e & Hget & Hm & Hp & Ht)]. split.
    + now apply PyDictFacts.wf_set.
    + exists e. unfold NdCache.add_entry.
      rewrite PyDictFacts.get_set_neq by (intros ->; contradiction). auto.
  - destruct (binds_find t0 K M a c Hb) as (r & c' & out & -> & Hb').
    simpl. eauto.
  - destruct Hb as [Hwf (e & Hget & Hm & Hp & Ht)].
    destruct (NdCacheFacts.maintain_cache_spec hosts mac cfg now c Hall Hwf)
      as (c' & out & Hrun & Hwf' & _ & Hin).
    exists c', out. split; [exact Hrun|]. split; [exact Hwf'|].
    destruct (NdCacheFacts.sweep_outcome_kept hosts mac cfg now K e c' out Hp)
      as (e' & Hget' & Hm' & Hp' & Ht'); [rewrite Ht; exact Hop | now apply Hin |].
    exists e'. repeat split; congruence.
Qed.

Lemma binds_calls t0 K M ops :
  Forall (keeps_binding cfg t0 K) ops ->
  forall c, binds K M t0 c ->
  exists c' out, NdCache.calls hosts mac cfg ops c = Some (c', out) /\ binds K M t0 c'.
Proof.
  induction 1 as [|op ops Hop Hops IH]; intros c Hb; simpl.
  - eauto.
  - destruct (binds_call t0 K M op c Hop Hb) as (c1 & out1 & -> & Hb1).
    simpl. destruct (IH c1 Hb1) as (c2 & out2 & -> & Hb2).
    simpl. eauto.
Qed.

Lemma binds_call_inv t0 K M op c c' out :
  keeps_binding cfg t0 K op -> binds K M t0 c ->
  NdCache.call hosts mac cfg op c = Some (c', out) -> binds K M t0 c'.
Proof.
  intros Hop Hb. destruct op as [now a m | a | now]; simpl in *.
  - intros H. apply some_inj in H.
    assert (c' = NdCache.add_entry now a m c) as -> by congruence.
    destruct Hb as [Hwf (e & Hget & Hm & Hp & Ht)]. split.
    + now apply PyDictFacts.wf_set.
    + exists e. unfold NdCache.add_entry.
      rewrite PyDictFacts.get_set_neq by (intros ->; contradiction). auto.
  - destruct (NdCache.find_entry hosts mac a c) as [[[r c1] out1]|] eqn:Hf;
      simpl; [|discriminate].
    intros H. apply some_inj in H.
    assert (c1 = c') as -> by congruence.
    destruct Hb as [Hwf (e & Hget & Hm & Hp & Ht)].
    destruct (PyDict.get a c) as [e'|] eqn:Hk.
    + rewrite (NdCacheFacts.find_entry_hit hosts mac a c e' Hk) in Hf.
      apply some_inj in Hf.
      assert (c' = PyDict.set a (NdCache.set_hit_count e' (NdCache.hit_count e' + 1)) c)
        as -> by congruence.
      split; [now apply PyDictFacts.wf_set|].
      destruct (Z.eq_dec K a) as [->|Hne].
      * assert (e' = e) as -> by congruence.
        eexists. rewrite PyDictFacts.get_set_eq. split; [reflexivity|]. simpl. auto.
      * exists e. rewrite PyDictFacts.get_set_neq by assumption. auto.
    + destruct (NdCacheFacts.find_entry_miss_inv hosts mac a c r c' out1 Hk Hf)
        as (_ & -> & _).
      split; [assumption|]. eauto.
  - intros Hrun. destruct Hb as [Hwf (e & Hget & Hm & Hp & Ht)].
    destruct (NdCacheFacts.maintain_cache_inv hosts mac cfg now c c' out Hwf Hrun)
      as (Hwf' & _ & Hin).
    split; [exact Hwf'|].
    destruct (NdCacheFacts.sweep_outcome_kept hosts mac cfg now K e c' out Hp)
      as (e' & Hget' & Hm' & Hp' & Ht'); [rewrite Ht; exact Hop | now apply Hin |].
    exists e'. repeat split; congruence.
Qed.

Lemma binds_calls_inv t0 K M ops :
  Forall (keeps_binding cfg t0 K) ops ->
  forall c c' out, binds K M t0 c ->
  NdCache.calls hosts mac cfg ops c = Some (c', out) -> binds K M t0 c'.
Proof.
  induction 1 as [|op ops Hop Hops IH]; intros c c' out Hb; simpl.
  - intros H. apply some_inj in H. now replace c' with c by congruence.
  - destruct (NdCache.call hosts mac cfg op c) as [[c1 out1]|] eqn:H1;
      simpl; [|discriminate].
    destruct (NdCache.calls hosts mac cfg ops c1) as [[c2 out2]|] eqn:H2;
      simpl; [|discriminate].
    intros H. apply some_inj in H.
    assert (c2 = c') as -> by congruence.
    exact (IH c1 c' out2 (binds_call_inv t0 K M op c c1 out1 Hop Hb H1) H2).
Qed.

End AddThenFind.

(** C3.  [add_entry(K, M)] at time [t0] binds [K] to a fresh entry with the
    address [M], a hit count of zero, not permanent and made at [t0],
    whatever [K] was bound to, and touches no other key.  After it and
    after any calls on the cache that are no [add_entry] for [K], with
    every maintenance run no later than the maximum age after [t0], a
    lookup of [K] returns [M] and sends nothing; those calls end without
    an exception in a stack whose hosts all have a network with a last
    address. *)
Theorem add_entry_then_find_entry
    (hosts : list Ip6.Ip6Host) (mac : MacAddress) (cfg : Config)
    (t0 : Z) (K : Ip6.Ip6Address) (M : MacAddress) (c : NdCache.t)
    (ops : list NdCache.Call) :
  PyDict.wf c ->
  Forall (keeps_binding cfg t0 K) ops ->
  PyDict.get K (NdCache.add_entry t0 K M c)
  = Some {| NdCache.mac_address := M; NdCache.permanent := false;
            NdCache.creation_time := t0; NdCache.hit_count := 0 |}
  /\ (forall k, k <> K -> PyDict.get k (NdCache.add_entry t0 K M c) = PyDict.get k c)
  /\ (all_have_last hosts ->
      exists c' out,
        NdCache.calls hosts mac cfg ops (NdCache.add_entry t0 K M c) = Some (c', out))
  /\ (forall c' out,
        NdCache.calls hosts mac cfg ops (NdCache.add_entry t0 K M c) = Some (c', out) ->
        exists c'', NdCache.find_entry hosts mac K c' = Some (Some M, c'', [])).
Proof.
  intros Hwf Hops. split; [apply PyDictFacts.get_set_eq|]. split; [|split].
  - intros k Hne. now apply PyDictFacts.get_set_neq.
  - intros Hall.
    destruct (binds_calls hosts mac cfg Hall t0 K M ops Hops _
                (binds_add t0 K M c Hwf))
      as (c' & out & Hrun & _).
    now exists c', out.
  - intros c' out Hrun.
    destruct (binds_calls_inv hosts mac cfg t0 K M ops Hops _ c' out
                (binds_add t0 K M c Hwf) Hrun)
      as (_ & e & Hget & Hm & _).
    rewrite (NdCacheFacts.find_entry_hit hosts mac K c' e Hget), Hm. eauto.
Qed.

Lemma add_entry_then_find_entry_witness :
  all_have_last Sample.hosts
  /\ PyDict.wf Sample.cache1
  /\ Forall (keeps_binding Sample.cfg 20 Sample.neighbour2)
       [NdCache.CallFind Sample.neighbour1; NdCache.CallMaintain 56;
        NdCache.CallAdd 57 Sample.neighbour1 Sample.peer_mac;
        NdCache.CallFind Sample.neighbour2; NdCache.CallMaintain 80]
  /\ exists c' out,
       NdCache.calls Sample.hosts Sample.mac Sample.cfg
         [NdCache.CallFind Sample.neighbour1; NdCache.CallMaintain 56;
          NdCache.CallAdd 57 Sample.neighbour1 Sample.peer_mac;
          NdCache.CallFind Sample.neighbour2; NdCache.CallMaintain 80]
         (NdCache.add_entry 20 Sample.neighbour2 Sample.mac Sample.cache1)
       = Some (c', out)
       /\ exists c'',
            NdCache.find_entry Sample.hosts Sample.mac Sample.neighbour2 c'
            = Some (Some Sample.mac, c'', []).
Proof.
  assert (Forall (keeps_binding Sample.cfg 20 Sample.neighbour2)
            [NdCache.CallFind Sample.neighbour1; NdCache.CallMaintain 56;
             NdCache.CallAdd 57 Sample.neighbour1 Sample.peer_mac;
             NdCache.CallFind Sample.neighbour2; NdCache.CallMaintain 80]) as Hops.
  { repeat constructor; simpl; try lia. discriminate. }
  split; [exact sample_hosts_have_last|].
  split; [exact wf_cache1|]. split; [exact Hops|].
  destruct (add_entry_then_find_entry Sample.hosts Sample.mac Sample.cfg
              20 Sample.neighbour2 Sample.mac Sample.cache1 _ wf_cache1 Hops)
    as (_ & _ & Hends & Hpost).
  destruct (Hends sample_hosts_have_last) as (c' & out & Hrun).
  exists c', out. split; [exact Hrun | exact (Hpost c' out Hrun)].
Defined.

(* ===================================================================== *)
(** * What the cache sends *)
(* ===================================================================== *)

Section Sent.

Variable hosts : list Ip6.Ip6Host.
Variable mac : MacAddress.
Variable cfg : Config.

Local Abbreviation sent_by := (sent_by hosts mac).

Lemma sent_nil : sent_by [].
Proof. split; [constructor | intros H; now elim H]. Qed.

Lemma sent_app o1 o2 : sent_by o1 -> sent_by o2 -> sent_by (o1 ++ o2).
Proof.
  intros [F1 H1] [F2 H2]. split; [apply Forall_app; now split|].
  intros Hne. destruct o1 as [|m o1]; [apply H2; exact Hne | apply H1; discriminate].
Qed.

Lemma sent_one k (Hall : all_have_last hosts) : sent_by [solicitation hosts mac k].
Proof. split; [constructor; [now exists k | constructor] | intros _; exact Hall]. Qed.

Lemma maintain_entry_sent now k c c' out :
  NdCache.maintain_entry hosts mac cfg now k c = Some (c', out) -> sent_by out.
Proof.
  unfold NdCache.maintain_entry.
  destruct (PyDict.get k c) as [e|]; cbn [bind]; [|discriminate].
  destruct (NdCache.permanent e); [|destruct (_ >? _); [|destruct (_ && _)]].
  - intros H. inversion H. apply sent_nil.
  - intros H. inversion H. apply sent_nil.
  - destruct (NdCache._send_icmp6_neighbor_solicitation hosts mac k)
      as [o|] eqn:Hsend; cbn [bind]; [|discriminate].
    apply NdCacheFacts.send_inv in Hsend. destruct Hsend as [-> Hall].
    intros H. apply some_inj in H.
    assert (out = [solicitation hosts mac k]) as -> by congruence.
    now apply sent_one.
  - intros H. inversion H. apply sent_nil.
Qed.

Lemma maintain_loop_sent now ks :
  forall c c' out,
    NdCache.maintain_loop hosts mac cfg now ks c = Some (c', out) -> sent_by out.
Proof.
  induction ks as [|k ks IH]; intros c c' out; simpl.
  - intros H. inversion H. apply sent_nil.
  - destruct (NdCache.maintain_entry hosts mac cfg now k c) as [[c1 out1]|] eqn:H1;
      simpl; [|discriminate].
    destruct (NdCache.maintain_loop hosts mac cfg now ks c1) as [[c2 out2]|] eqn:H2;
      simpl; [|discriminate].
    intros H. inversion H. subst. apply sent_app.
    + eapply maintain_entry_sent; eauto.
    + eapply IH; eauto.
Qed.

Lemma find_entry_sent k c r c' out :
  NdCache.find_entry hosts mac k c = Some (r, c', out) -> sent_by out.
Proof.
  destruct (PyDict.get k c) as [e|] eqn:Hget.
  - rewrite (NdCacheFacts.find_entry_hit hosts mac k c e Hget).
    intros H. inversion H. apply sent_nil.
  - intros H.
    destruct (NdCacheFacts.find_entry_miss_inv hosts mac k c r c' out Hget H)
      as (_ & _ & -> & Hall).
    now apply sent_one.
Qed.

Lemma call_sent op c c' out :
  NdCache.call hosts mac cfg op c = Some (c', out) -> sent_by out.
Proof.
  destruct op as [now a m | a | now]; simpl.
  - intros H. inversion H. apply sent_nil.
  - destruct (NdCache.find_entry hosts mac a c) as [[[r c1] out1]|] eqn:Hf;
      simpl; [|discriminate].
    intros H. inversion H. subst. eapply find_entry_sent; eauto.
  - apply maintain_loop_sent.
Qed.

Lemma calls_sent ops :
  forall c c' out,
    NdCache.calls hosts mac cfg ops c = Some (c', out) -> sent_by out.
Proof.
  induction ops as [|op ops IH]; intros c c' out; simpl.
  - intros H. inversion H. apply sent_nil.
  - destruct (NdCache.call hosts mac cfg op c) as [[c1 out1]|] eqn:H1;
      simpl; [|discriminate].
    destruct (NdCache.calls hosts mac cfg ops c1) as [[c2 out2]|] eqn:H2;
      simpl; [|discriminate].
    intros H. inversion H. subst. apply sent_app.
    + eapply call_sent; eauto.
    + eapply IH; eauto.
Qed.

End Sent.

(** The last host that matches, by position in the registry. *)
Lemma spec_source_last hosts target l1 h l2 :
  hosts = l1 ++ h :: l2 ->
  within (Ip6.network h) target = true ->
  (forall h', In h' l2 -> within (Ip6.network h') target = false) ->
  spec_source hosts target = Ip6.address h.
Proof.
  intros -> Hh Hl2. unfold spec_source, last_matching_host.
  rewrite rev_app_distr. simpl. rewrite <- app_assoc. simpl.
  assert (forall l rest,
            (forall h', In h' l -> within (Ip6.network h') target = false) ->
            find (fun h0 => within (Ip6.network h0) target) (l ++ rest)
            = find (fun h0 => within (Ip6.network h0) target) rest) as Hskip.
  { induction l as [|x l IH]; intros rest Hl; simpl; [reflexivity|].
    rewrite (Hl x) by (now left). apply IH. intros h' Hin. apply Hl. now right. }
  rewrite Hskip.
  - simpl. now rewrite Hh.
  - intros h' Hin. apply Hl2. now apply in_rev.
Qed.

Lemma spec_source_none hosts target :
  (forall h, In h hosts -> within (Ip6.network h) target = false) ->
  spec_source hosts target = Ip6.unspecified.
Proof.
  intros Hnone. unfold spec_source, last_matching_host.
  destruct (find _ (rev hosts)) as [h|] eqn:Hf; [|reflexivity].
  apply find_some in Hf. destruct Hf as [Hin Hc].
  apply in_rev in Hin. rewrite (Hnone h Hin) in Hc. discriminate.
Qed.

(** C6.  Every call of [_phtx_icmp6] made by the cache, on a lookup that
    misses or on a refresh by the maintenance, within any calls on the
    cache, is a Neighbor Solicitation for some target whose destination is
    the prefix ff02::1:ff00:0/104 with the low 24 bits of the target, whose
    hop limit is 255, whose only option is the source link-layer address of
    the interface, and whose source is the address of the last host of the
    registry whose network contains the target, or the unspecified address
    when there is none; for every host the test of the code has then said
    whether the target lies between the first and the last address of its
    network. *)
Theorem solicitation_shape_and_source
    (hosts : list Ip6.Ip6Host) (mac : MacAddress) (cfg : Config)
    (ops : list NdCache.Call) (c c' : NdCache.t) (out : list PhtxIcmp6)
    (m : PhtxIcmp6) :
  NdCache.calls hosts mac cfg ops c = Some (c', out) ->
  In m out ->
  exists target,
    icmp6_msg m = ICMP6_NEIGHBOR_SOLICITATION target [Icmp6NdOptSLLA mac]
    /\ Ip6.solicited_node_multicast target = Some (ip6_dst m)
    /\ ip6_dst m = Ip6.solicited_node_prefix + target mod 2 ^ 24
    /\ Ip6.is_solicited_node_multicast (ip6_dst m) = true
    /\ ip6_hop m = 255
    /\ ip6_src m = spec_source hosts target
    /\ (forall l1 h l2,
          hosts = l1 ++ h :: l2 ->
          within (Ip6.network h) target = true ->
          (forall h', In h' l2 -> within (Ip6.network h') target = false) ->
          ip6_src m = Ip6.address h)
    /\ ((forall h, In h hosts -> within (Ip6.network h) target = false) ->
        ip6_src m = Ip6.unspecified)
    /\ (forall h, In h hosts ->
          Ip6.contains (Ip6.network h) target
          = Some (within (Ip6.network h) target)).
Proof.
  intros Hrun Hin.
  destruct (calls_sent hosts mac cfg ops c c' out Hrun) as [Hall Hlast].
  assert (all_have_last hosts) as Hhosts.
  { apply Hlast. intros ->. exact Hin. }
  rewrite Forall_forall in Hall. destruct (Hall m Hin) as [target ->].
  exists target. unfold solicitation, spec_solicited_node.
  cbn [icmp6_msg ip6_dst ip6_hop ip6_src].
  split; [reflexivity|].
  split; [apply Ip6Facts.solicited_node_multicast_eq|].
  split; [reflexivity|].
  split; [apply Ip6Facts.solicited_node_is_solicited_node|].
  split; [reflexivity|].
  split; [reflexivity|].
  split; [|split].
  - intros l1 h l2 Hsplit Hh Hl2. eapply spec_source_last; eauto.
  - intros Hnone. now apply spec_source_none.
  - intros h Hh. apply NdCacheFacts.contains_some.
    unfold all_have_last in Hhosts. rewrite Forall_forall in Hhosts.
    exact (Hhosts h Hh).
Qed.

Example pick_source_takes_the_last_match :
  NdCache.pick_source Sample.hosts Sample.neighbour2
  = Some (Ip6.address Sample.host2)
  /\ Ip6.contains (Ip6.network Sample.host1) Sample.neighbour2 = Some true
  /\ Ip6.contains (Ip6.network Sample.host2) Sample.neighbour2 = Some true.
Proof. vm_compute. auto. Qed.

Example find_entry_miss_sample :
  NdCache.find_entry Sample.hosts Sample.mac Sample.neighbour2 Sample.cache1
  = Some (None, Sample.cache1,
          [ {| ip6_src := 0x20010db8000000000000000000000020;
               ip6_dst := 0xff0200000000000000000001ff000002;
               ip6_hop := 255;
               icmp6_msg := ICMP6_NEIGHBOR_SOLICITATION Sample.neighbour2
                              [Icmp6NdOptSLLA Sample.mac] |} ]).
Proof. vm_compute. reflexivity. Qed.

Lemma solicitation_shape_and_source_witness :
  NdCache.calls Sample.hosts Sample.mac Sample.cfg
    [NdCache.CallFind Sample.neighbour2; NdCache.CallMaintain 56] Sample.cache1
  = Some ([(Sample.neighbour1, NdCache.set_hit_count Sample.used_entry 0)],
          [solicitation Sample.hosts Sample.mac Sample.neighbour2;
           solicitation Sample.hosts Sample.mac Sample.neighbour1])
  /\ exists target,
       icmp6_msg (solicitation Sample.hosts Sample.mac Sample.neighbour1)
       = ICMP6_NEIGHBOR_SOLICITATION target [Icmp6NdOptSLLA Sample.mac]
       /\ ip6_src (solicitation Sample.hosts Sample.mac Sample.neighbour1)
          = spec_source Sample.hosts target.
Proof.
  assert (NdCache.calls Sample.hosts Sample.mac Sample.cfg
            [NdCache.CallFind Sample.neighbour2; NdCache.CallMaintain 56] Sample.cache1
          = Some ([(Sample.neighbour1, NdCache.set_hit_count Sample.used_entry 0)],
                  [solicitation Sample.hosts Sample.mac Sample.neighbour2;
                   solicitation Sample.hosts Sample.mac Sample.neighbour1])) as Hrun.
  { vm_compute. reflexivity. }
  split; [exact Hrun|].
  destruct (solicitation_shape_and_source Sample.hosts Sample.mac Sample.cfg _ _ _ _
              (solicitation Sample.hosts Sample.mac Sample.neighbour1)
              Hrun (or_intror (or_introl eq_refl)))
    as (target & Hmsg & _ & _ & _ & _ & Hsrc & _).
  exists target. split; [exact Hmsg | exact Hsrc].
Defined.

(* ===================================================================== *)
(** * The destination of the refresh *)
(* ===================================================================== *)

Example maintain_cache_refresh_sample :
  NdCache._maintain_cache Sample.hosts Sample.mac Sample.cfg 56 Sample.cache1
  = Some ([(Sample.neighbour1, NdCache.set_hit_count Sample.used_entry 0)],
          [ {| ip6_src := 0x20010db8000000000000000000000020;
               ip6_dst := 0xff0200000000000000000001ff000001;
               ip6_hop := 255;
               icmp6_msg := ICMP6_NEIGHBOR_SOLICITATION Sample.neighbour1
                              [Icmp6NdOptSLLA Sample.mac] |} ]).
Proof. vm_compute. reflexivity. Qed.

(** C7, as the specification words it, fails: the maintenance at time 56
    over an entry for 2001:db8::1 made at time 0 and used once sends its
    solicitation to ff02::1:ff00:1, not to 2001:db8::1. *)
Lemma refresh_solicitation_not_unicast :
  ~ (forall (hosts : list Ip6.Ip6Host) (mac : MacAddress) (cfg : Config)
            (now : Z) (c c' : NdCache.t) (out : list PhtxIcmp6) (m : PhtxIcmp6),
       NdCache._maintain_cache hosts mac cfg now c = Some (c', out) ->
       In m out ->
       unicast_to_target m).
Proof.
  intros H.
  specialize (H Sample.hosts Sample.mac Sample.cfg 56 Sample.cache1 _ _ _
                maintain_cache_refresh_sample (or_introl eq_refl)).
  destruct H as [Hdst _]. vm_compute in Hdst. discriminate Hdst.
Qed.

Lemma own_solicited_node k :
  Ip6.solicited_node_prefix + k mod 2 ^ 24 = k
  <-> Ip6.is_solicited_node_multicast k = true.
Proof.
  unfold Ip6.is_solicited_node_multicast, Ip6.solicited_node_prefix.
  pose proof (Z.div_mod k (2 ^ 24) ltac:(lia)) as Hdm.
  pose proof (Z.mod_pos_bound k (2 ^ 24) ltac:(lia)) as Hb.
  rewrite andb_true_iff, Z.leb_le, Z.ltb_lt. split; intros H; lia.
Qed.

(** C7, amended.  When the maintenance refreshes the entry of a key, the
    one solicitation it sends for the key is the message that a lookup of
    the key that misses sends: its target is the key and it is addressed
    to the solicited-node multicast group of the key, the prefix
    ff02::1:ff00:0/104 with the low 24 bits of the key, a multicast
    address.  It is addressed to the key itself only when the key is its
    own solicited-node address, which no unicast key is.  Every message
    the maintenance sends is such a solicitation, for a key whose entry it
    refreshes. *)
Theorem refresh_solicitation_is_multicast
    (hosts : list Ip6.Ip6Host) (mac : MacAddress) (cfg : Config)
    (now : Z) (c c' : NdCache.t) (out : list PhtxIcmp6)
    (k : Ip6.Ip6Address) (e : NdCache.CacheEntry) :
  PyDict.wf c ->
  PyDict.get k c = Some e ->
  NdCache.permanent e = false ->
  now - NdCache.creation_time e <= nd_cache_entry_max_age cfg ->
  now - NdCache.creation_time e
    > nd_cache_entry_max_age cfg - nd_cache_entry_refresh_time cfg ->
  (0 < NdCache.hit_count e)%N ->
  NdCache._maintain_cache hosts mac cfg now c = Some (c', out) ->
  (exists m,
     solicitations_for k out = [m]
     /\ icmp6_msg m = ICMP6_NEIGHBOR_SOLICITATION k [Icmp6NdOptSLLA mac]
     /\ Ip6.solicited_node_multicast k = Some (ip6_dst m)
     /\ ip6_dst m = Ip6.solicited_node_prefix + k mod 2 ^ 24
     /\ Ip6.is_solicited_node_multicast (ip6_dst m) = true
     /\ Ip6.is_multicast (ip6_dst m) = true
     /\ (ip6_dst m = k <-> Ip6.is_solicited_node_multicast k = true)
     /\ (Ip6.is_multicast k = false -> ip6_dst m <> k)
     /\ (forall c0, PyDict.get k c0 = None ->
           NdCache.find_entry hosts mac k c0 = Some (None, c0, [m])))
  /\ (forall m', In m' out ->
        exists k' e',
          PyDict.get k' c = Some e'
          /\ NdCache.permanent e' = false
          /\ now - NdCache.creation_time e' <= nd_cache_entry_max_age cfg
          /\ now - NdCache.creation_time e'
               > nd_cache_entry_max_age cfg - nd_cache_entry_refresh_time cfg
          /\ (0 < NdCache.hit_count e')%N
          /\ icmp6_msg m' = ICMP6_NEIGHBOR_SOLICITATION k' [Icmp6NdOptSLLA mac]
          /\ ip6_dst m' = Ip6.solicited_node_prefix + k' mod 2 ^ 24
          /\ Ip6.is_multicast (ip6_dst m') = true
          /\ solicitations_for k' out = [m']).
Proof.
  intros Hwf Hget Hperm Hage Hnear Hhit Hrun.
  destruct (NdCacheFacts.maintain_cache_inv hosts mac cfg now c c' out Hwf Hrun)
    as (_ & Hnone & Hin).
  destruct (maintain_loop_sent hosts mac cfg now _ _ _ _ Hrun) as [Hsent Hlast].
  split.
  - pose proof (Hin k e Hget) as Hk. unfold sweep_outcome in Hk.
    rewrite (NdCacheFacts.action_refresh cfg now e Hperm Hage Hnear Hhit) in Hk.
    destruct Hk as [_ Hk].
    assert (all_have_last hosts) as Hhosts.
    { apply Hlast. intros ->. discriminate Hk. }
    exists (solicitation hosts mac k).
    unfold solicitation at 2 3 4 5 6 7 8. unfold spec_solicited_node.
    cbn [icmp6_msg ip6_dst].
    split; [exact Hk|]. split; [reflexivity|].
    split; [apply Ip6Facts.solicited_node_multicast_eq|].
    split; [reflexivity|].
    split; [apply Ip6Facts.solicited_node_is_solicited_node|].
    split; [apply Ip6Facts.solicited_node_is_multicast|].
    split; [apply own_solicited_node|].
    split.
    + intros Hk' Heq.
      pose proof (Ip6Facts.solicited_node_is_multicast k) as Hmc.
      rewrite Heq in Hmc. congruence.
    + intros c0 Hmiss. now apply NdCacheFacts.find_entry_miss.
  - intros m' Hm'.
    rewrite Forall_forall in Hsent. destruct (Hsent m' Hm') as [k' ->].
    assert (solicitations_for k' out <> []) as Hsome.
    { intros Hnil.
      assert (In (solicitation hosts mac k') (solicitations_for k' out)) as Hf.
      { apply filter_In. split; [exact Hm'|].
        rewrite NdCacheFacts.solicits_solicitation. apply Z.eqb_refl. }
      rewrite Hnil in Hf. exact Hf. }
    destruct (PyDict.get k' c) as [e'|] eqn:Hget';
      [|destruct (Hnone k' Hget') as [_ Hnil]; contradiction].
    pose proof (Hin k' e' Hget') as Hk'. unfold sweep_outcome in Hk'.
    destruct (action cfg now e') eqn:Hact;
      try (destruct Hk' as [_ Hnil]; contradiction).
    destruct Hk' as [_ Hone].
    destruct (NdCacheFacts.action_refresh_inv cfg now e' Hact)
      as (Hp' & Ha' & Hn' & Hh').
    exists k', e'. unfold solicitation at 1 2 3. unfold spec_solicited_node.
    cbn [icmp6_msg ip6_dst].
    split; [exact Hget'|]. split; [exact Hp'|]. split; [exact Ha'|].
    split; [exact Hn'|]. split; [exact Hh'|]. split; [reflexivity|].
    split; [reflexivity|].
    split; [apply Ip6Facts.solicited_node_is_multicast | exact Hone].
Qed.

Lemma refresh_solicitation_is_multicast_witness :
  PyDict.wf Sample.cache1
  /\ PyDict.get Sample.neighbour1 Sample.cache1 = Some Sample.used_entry
  /\ NdCache._maintain_cache Sample.hosts Sample.mac Sample.cfg 56 Sample.cache1
     = Some ([(Sample.neighbour1, NdCache.set_hit_count Sample.used_entry 0)],
             [solicitation Sample.hosts Sample.mac Sample.neighbour1])
  /\ exists m,
       solicitations_for Sample.neighbour1
         [solicitation Sample.hosts Sample.mac Sample.neighbour1] = [m]
       /\ ip6_dst m = Ip6.solicited_node_prefix + Sample.neighbour1 mod 2 ^ 24
       /\ ip6_dst m <> Sample.neighbour1.
Proof.
  split; [exact wf_cache1|]. split; [reflexivity|].
  split; [exact maintain_cache_refresh_sample|].
  destruct (proj1 (refresh_solicitation_is_multicast Sample.hosts Sample.mac
                     Sample.cfg 56 Sample.cache1 _ _ Sample.neighbour1
                     Sample.used_entry wf_cache1 eq_refl eq_refl
                     ltac:(simpl; lia) ltac:(simpl; lia) eq_refl
                     maintain_cache_refresh_sample))
    as (m & Hone & _ & _ & Hdst & _ & _ & _ & Hne & _).
  exists m. split; [exact Hone|]. split; [exact Hdst|].
  apply Hne. reflexivity.
Defined.

(* ===================================================================== *)
(** * The handler, branch by branch *)
(* ===================================================================== *)

Lemma mem_In x l : mem x l = true <-> In x l.
Proof.
  unfold mem. rewrite existsb_exists. split.
  - intros (y & Hin & Heq). apply Z.eqb_eq in Heq. now subst.
  - intros Hin. exists x. split; [assumption | apply Z.eqb_refl].
Qed.

Lemma mem_not_In x l : mem x l = false <-> ~ In x l.
Proof.
  rewrite <- mem_In. destruct (mem x l); split; intros; congruence.
Qed.

Lemma eq_candidate_true a candidate :
  eq_candidate a candidate = true <-> candidate = Some a.
Proof.
  destruct candidate as [c|]; simpl.
  - rewrite Z.eqb_eq. split; [now intros -> | intros H; now inversion H].
  - split; discriminate.
Qed.

Lemma eq_candidate_false a candidate :
  eq_candidate a candidate = false <-> candidate <> Some a.
Proof.
  rewrite <- eq_candidate_true. destruct (eq_candidate a candidate); split;
    intros; congruence.
Qed.

Section Branches.

Variable Pattern : Type.
Variable Socket : Type.
Variable sockets : Pattern -> option Socket.
Variable socket_patterns : UdpMetadata -> list Pattern.

(** C4.  An inbound Neighbor Solicitation that parsed.  When its target is
    none of the unicast addresses of the stack, the handler returns with
    its state as it was and nothing sent.  Otherwise it sends exactly one
    Neighbor Advertisement, from the target, to ff02::1 when the source of
    the packet is unspecified and to that source otherwise, with hop limit
    255, the S flag clear and the O flag set exactly when the source is
    unspecified, for the target, with the target link-layer address of the
    interface as its only option.  When the source is neither unspecified
    nor multicast and the option is there, the cache gains the entry for
    the source: afterwards it binds the source to a fresh entry with the
    source link-layer address of the packet, not permanent, made at the
    time of the packet and with a hit count of zero, whatever it bound the
    source to before, every other key is bound as it was, and nothing else
    of the handler has changed; otherwise the handler is left as it
    was. *)
Theorem phrx_neighbor_solicitation
    (now : Z) (self : PacketHandler) (packet_rx : PacketRx)
    (ns_target : Ip6.Ip6Address) (slla : option MacAddress) :
  parse_failed packet_rx = false ->
  rx_icmp6 packet_rx = RxNeighborSolicitation ns_target slla ->
  (~ In ns_target (ip6_unicast self) ->
   _phrx_icmp6 Pattern Socket sockets socket_patterns now self packet_rx
   = Some (self, []))
  /\ (In ns_target (ip6_unicast self) ->
      let src := rx_ip6_src packet_rx in
      let dad_request := src =? Ip6.unspecified in
      exists self',
        _phrx_icmp6 Pattern Socket sockets socket_patterns now self packet_rx
        = Some (self',
                [Tx {| ip6_src := ns_target;
                       ip6_dst := if dad_request then Ip6.all_nodes else src;
                       ip6_hop := 255;
                       icmp6_msg := ICMP6_NEIGHBOR_ADVERTISEMENT
                                      (negb dad_request) dad_request ns_target
                                      [Icmp6NdOptTLLA (mac_unicast self)] |}])
        /\ (forall m, slla = Some m ->
              src <> Ip6.unspecified -> Ip6.is_multicast src = false ->
              self' = with_cache self
                        (NdCache.add_entry now src m (icmp6_nd_cache self))
              /\ PyDict.get src (icmp6_nd_cache self')
                 = Some {| NdCache.mac_address := m; NdCache.permanent := false;
                           NdCache.creation_time := now; NdCache.hit_count := 0 |}
              /\ (forall k, k <> src ->
                    PyDict.get k (icmp6_nd_cache self')
                    = PyDict.get k (icmp6_nd_cache self))
              /\ self' = with_cache self (icmp6_nd_cache self'))
        /\ (slla = None \/ src = Ip6.unspecified \/ Ip6.is_multicast src = true ->
            self' = self)).
Proof.
  intros Hparse Hrx. unfold _phrx_icmp6. rewrite Hparse, Hrx. split.
  - intros Hnot. apply mem_not_In in Hnot. now rewrite Hnot.
  - intros Hin. apply mem_In in Hin. rewrite Hin. cbn [negb].
    unfold Ip6.is_unspecified, Ip6.unspecified. cbv zeta.
    eexists. split; [reflexivity|]. split.
    + intros m -> Hsrc Hmc. rewrite Hmc.
      destruct (Z.eqb_spec (rx_ip6_src packet_rx) 0); [contradiction|].
      cbn [orb negb icmp6_nd_cache with_cache]. unfold NdCache.add_entry.
      split; [reflexivity|].
      split; [apply PyDictFacts.get_set_eq|].
      split; [|reflexivity].
      intros k Hne. now apply PyDictFacts.get_set_neq.
    + intros [-> | [Hsrc | Hmc]].
      * now destruct (negb _).
      * rewrite Hsrc. reflexivity.
      * rewrite Hmc, orb_true_r. reflexivity.
Qed.

(** C5.  An inbound Neighbor Advertisement that parsed.  When its target is
    the address being probed for duplicates, the handler records the target
    link-layer address of the packet, there or not, releases the event of
    the probe, and leaves the cache and everything else as it was.
    Otherwise, when the option is there, the cache gains the entry for the
    target: afterwards it binds the target to a fresh entry with the
    target link-layer address of the packet, not permanent, made at the
    time of the packet and with a hit count of zero, whatever it bound the
    target to before, every other key is bound as it was, and nothing else
    of the handler has changed; when the option is not there, nothing
    changes.  Nothing is sent in any case. *)
Theorem phrx_neighbor_advertisement
    (now : Z) (self : PacketHandler) (packet_rx : PacketRx)
    (na_target : Ip6.Ip6Address) (tlla : option MacAddress) :
  parse_failed packet_rx = false ->
  rx_icmp6 packet_rx = RxNeighborAdvertisement na_target tlla ->
  (ip6_unicast_candidate self = Some na_target ->
   exists self',
     _phrx_icmp6 Pattern Socket sockets socket_patterns now self packet_rx
     = Some (self', [])
     /\ icmp6_nd_dad_tlla self' = tlla
     /\ event_icmp6_nd_dad self' = S (event_icmp6_nd_dad self)
     /\ icmp6_nd_cache self' = icmp6_nd_cache self
     /\ self' = dad_release self tlla)
  /\ (ip6_unicast_candidate self <> Some na_target ->
      forall m, tlla = Some m ->
      _phrx_icmp6 Pattern Socket sockets socket_patterns now self packet_rx
      = Some (with_cache self
                (NdCache.add_entry now na_target m (icmp6_nd_cache self)), [])
      /\ exists self',
           _phrx_icmp6 Pattern Socket sockets socket_patterns now self packet_rx
           = Some (self', [])
           /\ PyDict.get na_target (icmp6_nd_cache self')
              = Some {| NdCache.mac_address := m; NdCache.permanent := false;
                        NdCache.creation_time := now; NdCache.hit_count := 0 |}
           /\ (forall k, k <> na_target ->
                 PyDict.get k (icmp6_nd_cache self')
                 = PyDict.get k (icmp6_nd_cache self))
           /\ self' = with_cache self (icmp6_nd_cache self')
           /\ icmp6_nd_dad_tlla self' = icmp6_nd_dad_tlla self
           /\ event_icmp6_nd_dad self' = event_icmp6_nd_dad self)
  /\ (ip6_unicast_candidate self <> Some na_target ->
      tlla = None ->
      _phrx_icmp6 Pattern Socket sockets socket_patterns now self packet_rx
      = Some (self, [])).
Proof.
  intros Hparse Hrx. unfold _phrx_icmp6. rewrite Hparse, Hrx.
  split; [|split].
  - intros Hc. apply eq_candidate_true in Hc. rewrite Hc.
    exists (dad_release self tlla). repeat split.
  - intros Hc m ->. apply eq_candidate_false in Hc. rewrite Hc.
    split; [reflexivity|].
    eexists. split; [reflexivity|].
    cbn [icmp6_nd_cache with_cache icmp6_nd_dad_tlla event_icmp6_nd_dad].
    unfold NdCache.add_entry.
    split; [apply PyDictFacts.get_set_eq|].
    split; [intros k Hne; now apply PyDictFacts.get_set_neq|].
    repeat split.
  - intros Hc ->. apply eq_candidate_false in Hc. now rewrite Hc.
Qed.

Lemma match_socket_first patterns s :
  match_socket Pattern Socket sockets patterns = Some s
  <-> first_match sockets patterns s.
Proof.
  split.
  - induction patterns as [|p ps IH]; simpl; [discriminate|].
    destruct (sockets p) as [s'|] eqn:Hp.
    + intros H. inversion H. subst. exists [], p, ps. simpl. tauto.
    + intros H. destruct (IH H) as (l1 & p' & l2 & -> & Hp' & Hl1).
      exists (p :: l1), p', l2. simpl. repeat split; auto.
      intros q [<-|Hq]; auto.
  - intros (l1 & p & l2 & -> & Hp & Hl1).
    induction l1 as [|q l1 IH]; simpl.
    + now rewrite Hp.
    + rewrite (Hl1 q) by (now left). apply IH. intros p' Hin. apply Hl1. now right.
Qed.

Lemma match_socket_none patterns :
  match_socket Pattern Socket sockets patterns = None
  <-> forall p, In p patterns -> sockets p = None.
Proof.
  induction patterns as [|p ps IH]; simpl.
  - split; [intros _ p [] | reflexivity].
  - destruct (sockets p) as [s'|] eqn:Hp.
    + split; [discriminate|]. intros H. rewrite (H p) in Hp by (now left). discriminate.
    + rewrite IH. split.
      * intros H q [<-|Hq]; auto.
      * intros H q Hq. apply H. now right.
Qed.

End Branches.

(** ** The embedded datagram *)

Lemma of_bytes_16 (l : list byte) :
  length l = 16%nat -> Ip6.of_bytes l = Some (Ip6.unpack_be l).
Proof.
  intros Hlen. unfold Ip6.of_bytes. rewrite Hlen. cbn [Z.of_nat Pos.of_succ_nat Z.eqb Pos.eqb Pos.succ].
  do 16 (destruct l as [|? l]; [discriminate Hlen|]).
  destruct l; [|discriminate Hlen].
  unfold Ip6.unpack_be. cbn [firstn skipn fold_left].
  rewrite !Z.shiftl_mul_pow2 by lia. f_equal. ring.
Qed.

Lemma slice_length frame a b :
  (b <= length frame)%nat -> length (slice frame a b) = (b - a)%nat.
Proof.
  intros H. unfold slice. rewrite length_firstn, length_skipn. lia.
Qed.

Lemma unreachable_guard_spec frame :
  unreachable_guard frame = true <-> spec_guard frame.
Proof.
  unfold unreachable_guard, spec_guard.
  rewrite !andb_true_iff, Z.leb_le, !Z.eqb_eq.
  rewrite Z.shiftr_div_pow2 by lia. change (2 ^ 4) with 16. tauto.
Qed.

Lemma unreachable_metadata_spec frame :
  spec_guard frame -> unreachable_metadata frame = Some (spec_four_tuple frame).
Proof.
  intros (Hlen & _ & _). unfold IP6_HEADER_LEN, UDP_HEADER_LEN in Hlen.
  unfold unreachable_metadata, spec_four_tuple.
  rewrite (of_bytes_16 (slice frame 8 24)) by (rewrite slice_length; lia).
  rewrite (of_bytes_16 (slice frame 24 40)) by (rewrite slice_length; lia).
  reflexivity.
Qed.

Lemma sorted_after_prefix {A : Type} (R : A -> A -> Prop) l1 p l2 :
  StronglySorted R (l1 ++ p :: l2) -> Forall (R p) l2.
Proof.
  induction l1 as [|x l1 IH]; simpl; intros H; inversion H; subst; auto.
Qed.

(** The first pattern that is bound is the most specific one that is,
    whenever the patterns are listed from most to least specific. *)
Lemma first_match_most_specific {Pattern Socket : Type}
    (sockets : Pattern -> option Socket) (rank : Pattern -> Z) patterns s :
  StronglySorted (fun p q => rank q <= rank p) patterns ->
  first_match sockets patterns s ->
  exists p, In p patterns
            /\ sockets p = Some s
            /\ forall q, In q patterns -> sockets q <> None -> rank q <= rank p.
Proof.
  intros Hsorted (l1 & p & l2 & -> & Hp & Hl1).
  exists p. split; [apply in_elt|]. split; [assumption|].
  intros q Hq Hbound. apply in_app_or in Hq. destruct Hq as [Hq | [<- | Hq]].
  - elim Hbound. auto.
  - lia.
  - pose proof (sorted_after_prefix _ l1 p l2 Hsorted) as Hall.
    rewrite Forall_forall in Hall. now apply Hall.
Qed.

(** C9.  An inbound Destination Unreachable that parsed.  The handler ends
    without an exception, leaves its state as it was and sends nothing.  It
    notifies a socket exactly when the embedded datagram passes the guard
    (long enough for an IPv6 and a UDP header, first nibble 6, next header
    UDP) and one of the patterns of the four-tuple read at bytes 8..24,
    24..40, 40..42 and 42..44 is bound to a socket; the socket it notifies
    is then the one bound to the first such pattern, in the order
    [socket_patterns] lists them, and it is the only one; when that order
    is from most to least specific, by any measure, it is the socket of the
    most specific pattern that is bound. *)
Theorem phrx_unreachable
    (Pattern Socket : Type) (sockets : Pattern -> option Socket)
    (socket_patterns : UdpMetadata -> list Pattern)
    (now : Z) (self : PacketHandler) (packet_rx : PacketRx) (frame : list byte) :
  parse_failed packet_rx = false ->
  rx_icmp6 packet_rx = RxUnreachable frame ->
  exists out,
    _phrx_icmp6 Pattern Socket sockets socket_patterns now self packet_rx
    = Some (self, out)
    /\ (out <> [] <->
        spec_guard frame
        /\ exists p, In p (socket_patterns (spec_four_tuple frame))
                     /\ sockets p <> None)
    /\ (forall s,
          In (NotifyUnreachable s) out <->
          spec_guard frame
          /\ first_match sockets (socket_patterns (spec_four_tuple frame)) s)
    /\ (out = [] \/ exists s, out = [NotifyUnreachable s])
    /\ (forall m, ~ In (Tx m) out)
    /\ (forall rank : Pattern -> Z,
          StronglySorted (fun p q => rank q <= rank p)
            (socket_patterns (spec_four_tuple frame)) ->
          forall s, In (NotifyUnreachable s) out ->
          exists p, In p (socket_patterns (spec_four_tuple frame))
                    /\ sockets p = Some s
                    /\ forall q, In q (socket_patterns (spec_four_tuple frame)) ->
                                 sockets q <> None -> rank q <= rank p).
Proof.
  intros Hparse Hrx. unfold _phrx_icmp6. rewrite Hparse, Hrx.
  destruct (unreachable_guard frame) eqn:Hguard.
  - apply unreachable_guard_spec in Hguard.
    rewrite (unreachable_metadata_spec frame Hguard). cbn [bind].
    destruct (match_socket Pattern Socket sockets
                (socket_patterns (spec_four_tuple frame))) as [s|] eqn:Hm.
    + exists [NotifyUnreachable s]. split; [reflexivity|].
      pose proof Hm as Hfirst. apply match_socket_first in Hfirst.
      split; [|split; [|split; [|split]]].
      * split; [|discriminate]. intros _. split; [assumption|].
        destruct Hfirst as (l1 & p & l2 & Hsplit & Hp & _).
        exists p. split; [|congruence]. rewrite Hsplit. apply in_elt.
      * intros s'. split.
        -- intros [H|[]]. inversion H. subst. auto.
        -- intros [_ H]. apply match_socket_first in H.
           left. congruence.
      * right. eauto.
      * intros m [H|[]]. discriminate.
      * intros rank Hsorted s' [H|[]]. inversion H. subst s'.
        now apply first_match_most_specific.
    + exists []. split; [reflexivity|].
      pose proof (proj1 (match_socket_none Pattern Socket sockets _) Hm) as Hnone.
      split; [|split; [|split; [|split]]].
      * split; [congruence|]. intros [_ (p & Hin & Hp)]. elim Hp. auto.
      * intros s. split; [intros []|].
        intros [_ H]. apply match_socket_first in H. congruence.
      * now left.
      * intros m [].
      * intros rank _ s [].
  - exists []. split; [reflexivity|].
    assert (~ spec_guard frame) as Hno.
    { intros H. apply unreachable_guard_spec in H. congruence. }
    split; [|split; [|split; [|split]]].
    + split; [congruence | tauto].
    + intros s. split; [intros [] | tauto].
    + now left.
    + intros m [].
    + intros rank _ s [].
Qed.

(* ===================================================================== *)
(** * Runs of the stack *)
(* ===================================================================== *)

Section Runs.

Variable Pattern : Type.
Variable Socket : Type.
Variable sockets : Pattern -> option Socket.
Variable socket_patterns : UdpMetadata -> list Pattern.
Variable cfg : Config.

Local Abbreviation phrx := (_phrx_icmp6 Pattern Socket sockets socket_patterns).
Local Abbreviation step := (step Pattern Socket sockets socket_patterns cfg).
Local Abbreviation run := (run Pattern Socket sockets socket_patterns cfg).

(** The handler never ends in an exception. *)
Lemma phrx_total now self packet_rx :
  exists self' out, phrx now self packet_rx = Some (self', out).
Proof.
  unfold _phrx_icmp6.
  destruct (parse_failed packet_rx); [eauto|].
  destruct (rx_icmp6 packet_rx) as [t o | t o | | pis | i q d | frame | ]; eauto.
  - destruct (negb (mem t (ip6_unicast self))); eauto.
  - destruct (eq_candidate t (ip6_unicast_candidate self)); [eauto|].
    destruct o; eauto.
  - destruct (unreachable_guard frame) eqn:Hguard; [|eauto].
    apply unreachable_guard_spec in Hguard.
    rewrite (unreachable_metadata_spec frame Hguard). cbn [bind].
    destruct (match_socket _ _ _ _); eauto.
Qed.

(** What the handler does to the cache: nothing, or one [add_entry]. *)
Lemma phrx_cache now self packet_rx self' out :
  phrx now self packet_rx = Some (self', out) ->
  icmp6_nd_cache self' = icmp6_nd_cache self
  \/ exists a m, icmp6_nd_cache self' = NdCache.add_entry now a m (icmp6_nd_cache self).
Proof.
  unfold _phrx_icmp6.
  destruct (parse_failed packet_rx); [intros H; inversion H; auto|].
  destruct (rx_icmp6 packet_rx) as [t o | t o | | pis | i q d | frame | ];
    try (intros H; inversion H; auto; fail).
  - destruct (negb (mem t (ip6_unicast self))); [intros H; inversion H; auto|].
    intros H. inversion H.
    destruct (negb _); [|auto]. destruct o; [|auto]. right. simpl. eauto.
  - destruct (eq_candidate t (ip6_unicast_candidate self));
      [intros H; inversion H; auto|].
    destruct o; intros H; inversion H; [|auto]. right. simpl. eauto.
  - destruct (unreachable_guard frame); [|intros H; inversion H; auto].
    destruct (unreachable_metadata frame); cbn [bind]; [|discriminate].
    destruct (match_socket _ _ _ _); intros H; inversion H; auto.
Qed.

(** Whatever the handler sends has hop limit 255. *)
Lemma phrx_hop now self packet_rx self' out :
  phrx now self packet_rx = Some (self', out) -> Forall hop_limit_255 out.
Proof.
  unfold _phrx_icmp6.
  destruct (parse_failed packet_rx); [intros H; inversion H; constructor|].
  destruct (rx_icmp6 packet_rx) as [t o | t o | | pis | i q d | frame | ];
    try (intros H; inversion H; repeat constructor; fail).
  - destruct (negb (mem t (ip6_unicast self)));
      intros H; inversion H; repeat constructor.
  - destruct (eq_candidate t (ip6_unicast_candidate self));
      [intros H; inversion H; constructor|].
    destruct o; intros H; inversion H; constructor.
  - destruct (unreachable_guard frame); [|intros H; inversion H; constructor].
    destruct (unreachable_metadata frame); cbn [bind]; [|discriminate].
    destruct (match_socket _ _ _ _); intros H; inversion H; repeat constructor.
Qed.

Lemma solicitations_hop hosts mac out :
  Forall (is_solicitation hosts mac) out ->
  Forall (hop_limit_255 (Socket := Socket)) (map Tx out).
Proof.
  induction 1 as [|m out [target ->] _ IH]; simpl; constructor; auto.
  reflexivity.
Qed.

Lemma step_hop self ev self' out :
  step self ev = Some (self', out) -> Forall hop_limit_255 out.
Proof.
  destruct ev as [now packet_rx | op]; simpl.
  - apply phrx_hop.
  - destruct (NdCache.call _ _ _ op _) as [[c out1]|] eqn:Hcall; simpl; [|discriminate].
    intros H. inversion H. subst.
    eapply solicitations_hop, call_sent; eauto.
Qed.

Lemma run_hop evs :
  forall self self' out,
    run self evs = Some (self', out) -> Forall hop_limit_255 out.
Proof.
  induction evs as [|ev evs IH]; intros self self' out; simpl.
  - intros H. inversion H. constructor.
  - destruct (step self ev) as [[self1 out1]|] eqn:H1; simpl; [|discriminate].
    destruct (run self1 evs) as [[self2 out2]|] eqn:H2; simpl; [|discriminate].
    intros H. inversion H. subst. apply Forall_app. split.
    + eapply step_hop; eauto.
    + eapply IH; eauto.
Qed.

(** ** The invariant of the cache along a run *)

Lemma cache_inv_init : cache_inv NdCache.init.
Proof.
  split; [apply PyDictFacts.wf_nil | intros k e; discriminate].
Qed.

Lemma cache_inv_add now a m c : cache_inv c -> cache_inv (NdCache.add_entry now a m c).
Proof.
  intros [Hwf Hnp]. split; [now apply PyDictFacts.wf_set|].
  intros k e. unfold NdCache.add_entry.
  destruct (Z.eq_dec k a) as [->|Hne].
  - rewrite PyDictFacts.get_set_eq. intros H. inversion H. reflexivity.
  - rewrite PyDictFacts.get_set_neq by assumption. apply Hnp.
Qed.

Lemma cache_inv_find hosts mac a c r c' out :
  NdCache.find_entry hosts mac a c = Some (r, c', out) ->
  cache_inv c -> cache_inv c'.
Proof.
  intros Hf [Hwf Hnp].
  destruct (PyDict.get a c) as [e|] eqn:Hget.
  - rewrite (NdCacheFacts.find_entry_hit hosts mac a c e Hget) in Hf.
    inversion Hf. subst. split; [now apply PyDictFacts.wf_set|].
    intros k e'. destruct (Z.eq_dec k a) as [->|Hne].
    + rewrite PyDictFacts.get_set_eq. intros H. inversion H. simpl. eauto.
    + rewrite PyDictFacts.get_set_neq by assumption. apply Hnp.
  - destruct (NdCacheFacts.find_entry_miss_inv hosts mac a c r c' out Hget Hf)
      as (_ & -> & _). now split.
Qed.

Lemma cache_inv_maintain hosts mac now c c' out :
  NdCache._maintain_cache hosts mac cfg now c = Some (c', out) ->
  cache_inv c -> cache_inv c'.
Proof.
  intros Hrun [Hwf Hnp].
  destruct (NdCacheFacts.maintain_cache_inv hosts mac cfg now c c' out Hwf Hrun)
    as (Hwf1 & Hnone & Hin).
  split; [assumption|]. intros k e' Hget'.
  destruct (PyDict.get k c) as [e|] eqn:Hget.
  - rewrite (NdCacheFacts.sweep_outcome_permanent hosts mac cfg now k e c' out e'
               (Hin k e Hget) Hget').
    eauto.
  - destruct (Hnone k Hget) as [Hg _]. congruence.
Qed.

Lemma cache_inv_call hosts mac op c c' out :
  NdCache.call hosts mac cfg op c = Some (c', out) ->
  cache_inv c -> cache_inv c'.
Proof.
  destruct op as [now a m | a | now]; simpl.
  - intros H. inversion H. apply cache_inv_add.
  - destruct (NdCache.find_entry hosts mac a c) as [[[r c1] out1]|] eqn:Hf;
      simpl; [|discriminate].
    intros H. inversion H. subst. eapply cache_inv_find; eauto.
  - apply cache_inv_maintain.
Qed.

Lemma cache_inv_step self ev self' out :
  step self ev = Some (self', out) ->
  cache_inv (icmp6_nd_cache self) -> cache_inv (icmp6_nd_cache self').
Proof.
  destruct ev as [now packet_rx | op]; simpl.
  - intros H Hinv. destruct (phrx_cache now self packet_rx self' out H)
      as [-> | (a & m & ->)]; [assumption | now apply cache_inv_add].
  - destruct (NdCache.call _ _ _ op _) as [[c out1]|] eqn:Hcall; simpl; [|discriminate].
    intros H. inversion H. subst. simpl. eapply cache_inv_call; eauto.
Qed.

Lemma cache_inv_run evs :
  forall self self' out,
    run self evs = Some (self', out) ->
    cache_inv (icmp6_nd_cache self) -> cache_inv (icmp6_nd_cache self').
Proof.
  induction evs as [|ev evs IH]; intros self self' out; simpl.
  - intros H. inversion H. now subst.
  - destruct (step self ev) as [[self1 out1]|] eqn:H1; simpl; [|discriminate].
    destruct (run self1 evs) as [[self2 out2]|] eqn:H2; simpl; [|discriminate].
    intros H Hinv. inversion H. subst.
    eapply IH; eauto. eapply cache_inv_step; eauto.
Qed.

(** The handler leaves the hosts of the stack as they were. *)
Lemma phrx_hosts now self packet_rx self' out :
  phrx now self packet_rx = Some (self', out) -> ip6_host self' = ip6_host self.
Proof.
  unfold _phrx_icmp6.
  destruct (parse_failed packet_rx); [intros H; inversion H; auto|].
  destruct (rx_icmp6 packet_rx) as [t o | t o | | pis | i q d | frame | ];
    try (intros H; inversion H; auto; fail).
  - destruct (negb (mem t (ip6_unicast self))); [intros H; inversion H; auto|].
    intros H. inversion H.
    destruct (negb _); [|auto]. destruct o; auto.
  - destruct (eq_candidate t (ip6_unicast_candidate self));
      [intros H; inversion H; auto|].
    destruct o; intros H; inversion H; auto.
  - destruct (unreachable_guard frame); [|intros H; inversion H; auto].
    destruct (unreachable_metadata frame); cbn [bind]; [|discriminate].
    destruct (match_socket _ _ _ _); intros H; inversion H; auto.
Qed.

(** A run from a cache with one binding per key, in a stack whose hosts
    all have a network with a last address, never ends in an exception. *)
Lemma run_total evs :
  forall self,
    all_have_last (ip6_host self) ->
    PyDict.wf (icmp6_nd_cache self) ->
    exists self' out, run self evs = Some (self', out).
Proof.
  induction evs as [|ev evs IH]; intros self Hall Hwf; simpl; [eauto|].
  assert (exists self1 out1,
             step self ev = Some (self1, out1)
             /\ ip6_host self1 = ip6_host self
             /\ PyDict.wf (icmp6_nd_cache self1))
    as (self1 & out1 & Hstep & Hhosts1 & Hwf1).
  { destruct ev as [now packet_rx | op]; simpl.
    - destruct (phrx_total now self packet_rx) as (self1 & out1 & H).
      exists self1, out1. split; [assumption|].
      split; [eapply phrx_hosts; eauto|].
      destruct (phrx_cache now self packet_rx self1 out1 H) as [-> | (a & m & ->)];
        [assumption | now apply PyDictFacts.wf_set].
    - destruct op as [now a m | a | now]; simpl.
      + do 2 eexists. split; [reflexivity|]. simpl.
        split; [reflexivity | now apply PyDictFacts.wf_set].
      + destruct (PyDict.get a (icmp6_nd_cache self)) as [e|] eqn:Hget.
        * rewrite (NdCacheFacts.find_entry_hit _ _ a _ e Hget). simpl.
          do 2 eexists. split; [reflexivity|]. simpl.
          split; [reflexivity | now apply PyDictFacts.wf_set].
        * rewrite (NdCacheFacts.find_entry_miss _ _ a _ Hall Hget). simpl.
          do 2 eexists. split; [reflexivity|]. simpl.
          split; [reflexivity | assumption].
      + destruct (NdCacheFacts.maintain_cache_spec (ip6_host self) (mac_unicast self)
                    cfg now _ Hall Hwf) as (c' & out & -> & Hwf' & _).
        simpl. do 2 eexists. split; [reflexivity|]. simpl.
        split; [reflexivity | assumption]. }
  rewrite Hstep. simpl.
  destruct (IH self1) as (self2 & out2 & ->); [now rewrite Hhosts1 | exact Hwf1 |].
  simpl. eauto.
Qed.

End Runs.

(** C8.  Along any run of the stack (packets handled, addresses resolved or
    recorded, maintenance runs), every call of [_phtx_icmp6], that is every
    Neighbor Solicitation of the cache, every Neighbor Advertisement and
    every Echo Reply of the handler, carries hop limit 255. *)
Theorem hop_limit_on_emit
    (Pattern Socket : Type) (sockets : Pattern -> option Socket)
    (socket_patterns : UdpMetadata -> list Pattern) (cfg : Config)
    (self : PacketHandler) (evs : list Event)
    (self' : PacketHandler) (out : list (Effect Socket)) :
  run Pattern Socket sockets socket_patterns cfg self evs = Some (self', out) ->
  forall m, In (Tx m) out -> ip6_hop m = 255.
Proof.
  intros Hrun m Hin.
  pose proof (run_hop Pattern Socket sockets socket_patterns cfg evs self self' out Hrun)
    as Hall.
  rewrite Forall_forall in Hall. exact (Hall (Tx m) Hin).
Qed.

Lemma hop_limit_on_emit_witness :
  exists self' out,
    run (Z * Z) nat Sample.sockets Sample.socket_patterns Sample.cfg
      Sample.fresh Sample.events = Some (self', out)
    /\ length out = 5%nat
    /\ forall m, In (Tx m) out -> ip6_hop m = 255.
Proof.
  destruct (run (Z * Z) nat Sample.sockets Sample.socket_patterns Sample.cfg
              Sample.fresh Sample.events) as [[self' out]|] eqn:Hrun.
  - exists self', out. split; [reflexivity|]. split.
    + vm_compute in Hrun. inversion Hrun. reflexivity.
    + exact (hop_limit_on_emit (Z * Z) nat Sample.sockets Sample.socket_patterns
               Sample.cfg Sample.fresh Sample.events self' out Hrun).
  - vm_compute in Hrun. discriminate Hrun.
Defined.

(** C10.  [add_entry] binds its key to an entry that is not permanent, and
    in every state the stack reaches from the empty cache of
    [NdCache.__init__], by packets handled, addresses resolved or recorded
    and maintenance runs, no entry of the cache is permanent, so the
    maintenance never takes its branch for permanent entries. *)
Theorem no_permanent_entry
    (Pattern Socket : Type) (sockets : Pattern -> option Socket)
    (socket_patterns : UdpMetadata -> list Pattern) (cfg : Config)
    (self : PacketHandler) (evs : list Event)
    (self' : PacketHandler) (out : list (Effect Socket)) :
  icmp6_nd_cache self = NdCache.init ->
  run Pattern Socket sockets socket_patterns cfg self evs = Some (self', out) ->
  (forall now a m c,
     exists e, PyDict.get a (NdCache.add_entry now a m c) = Some e
               /\ NdCache.permanent e = false)
  /\ (forall k e, PyDict.get k (icmp6_nd_cache self') = Some e ->
        NdCache.permanent e = false)
  /\ (forall now k e, PyDict.get k (icmp6_nd_cache self') = Some e ->
        action cfg now e <> SkipPermanent).
Proof.
  intros Hinit Hrun.
  assert (cache_inv (icmp6_nd_cache self')) as [_ Hnp].
  { eapply cache_inv_run; eauto. rewrite Hinit. apply cache_inv_init. }
  split; [|split].
  - intros now a m c. exists (NdCache.CacheEntry_init now m false).
    unfold NdCache.add_entry. now rewrite PyDictFacts.get_set_eq.
  - exact Hnp.
  - intros now k e Hget. unfold action. rewrite (Hnp k e Hget).
    destruct (_ >? _); [discriminate|]. destruct (_ && _); discriminate.
Qed.

Lemma no_permanent_entry_witness :
  icmp6_nd_cache Sample.fresh = NdCache.init
  /\ exists self' out,
       run (Z * Z) nat Sample.sockets Sample.socket_patterns Sample.cfg
         Sample.fresh Sample.events = Some (self', out)
       /\ PyDict.keys (icmp6_nd_cache self') = [Sample.neighbour2]
       /\ forall k e, PyDict.get k (icmp6_nd_cache self') = Some e ->
                      NdCache.permanent e = false.
Proof.
  split; [reflexivity|].
  destruct (run (Z * Z) nat Sample.sockets Sample.socket_patterns Sample.cfg
              Sample.fresh Sample.events) as [[self' out]|] eqn:Hrun.
  - exists self', out. split; [reflexivity|]. split.
    + vm_compute in Hrun. inversion Hrun. reflexivity.
    + exact (proj1 (proj2 (no_permanent_entry (Z * Z) nat Sample.sockets
                             Sample.socket_patterns Sample.cfg Sample.fresh
                             Sample.events self' out eq_refl Hrun))).
  - vm_compute in Hrun. discriminate Hrun.
Defined.

(* ===================================================================== *)
(** * The branches of the handler on the sample stack *)
(* ===================================================================== *)

Lemma phrx_neighbor_solicitation_witness :
  parse_failed Sample.ns_packet = false
  /\ rx_icmp6 Sample.ns_packet
     = RxNeighborSolicitation (Ip6.address Sample.host1) (Some Sample.peer_mac)
  /\ In (Ip6.address Sample.host1) (ip6_unicast Sample.self)
  /\ exists self',
       _phrx_icmp6 (Z * Z) nat Sample.sockets Sample.socket_patterns 10
         Sample.self Sample.ns_packet
       = Some (self',
               [Tx {| ip6_src := Ip6.address Sample.host1;
                      ip6_dst := Sample.neighbour2;
                      ip6_hop := 255;
                      icmp6_msg := ICMP6_NEIGHBOR_ADVERTISEMENT true false
                                     (Ip6.address Sample.host1)
                                     [Icmp6NdOptTLLA Sample.mac] |}])
       /\ self' = with_cache Sample.self
                    (NdCache.add_entry 10 Sample.neighbour2 Sample.peer_mac
                       Sample.cache1)
       /\ PyDict.get Sample.neighbour2 (icmp6_nd_cache self')
          = Some {| NdCache.mac_address := Sample.peer_mac;
                    NdCache.permanent := false;
                    NdCache.creation_time := 10; NdCache.hit_count := 0 |}
       /\ PyDict.get Sample.neighbour1 (icmp6_nd_cache self')
          = Some Sample.used_entry.
Proof.
  split; [reflexivity|]. split; [reflexivity|].
  assert (In (Ip6.address Sample.host1) (ip6_unicast Sample.self)) as Hin
    by (left; reflexivity).
  split; [exact Hin|].
  destruct (proj2 (phrx_neighbor_solicitation (Z * Z) nat Sample.sockets
                     Sample.socket_patterns 10 Sample.self Sample.ns_packet
                     (Ip6.address Sample.host1) (Some Sample.peer_mac)
                     eq_refl eq_refl) Hin)
    as (self' & Hrun & Hadd & _).
  exists self'. split; [exact Hrun|].
  destruct (Hadd Sample.peer_mac eq_refl) as (Hself & Hget & Hother & _);
    [discriminate | reflexivity |].
  split; [exact Hself|]. split; [exact Hget|].
  rewrite (Hother Sample.neighbour1); [reflexivity | discriminate].
Defined.

Example phrx_dad_probe_sample :
  _phrx_icmp6 (Z * Z) nat Sample.sockets Sample.socket_patterns 10
    Sample.self Sample.dad_packet
  = Some (Sample.self,
          [Tx {| ip6_src := Ip6.address Sample.host1;
                 ip6_dst := Ip6.all_nodes;
                 ip6_hop := 255;
                 icmp6_msg := ICMP6_NEIGHBOR_ADVERTISEMENT false true
                                (Ip6.address Sample.host1)
                                [Icmp6NdOptTLLA Sample.mac] |}]).
Proof. vm_compute. reflexivity. Qed.

Lemma phrx_neighbor_advertisement_witness :
  parse_failed Sample.na_candidate_packet = false
  /\ rx_icmp6 Sample.na_candidate_packet
     = RxNeighborAdvertisement Sample.candidate (Some Sample.peer_mac)
  /\ ip6_unicast_candidate Sample.self = Some Sample.candidate
  /\ (exists self',
        _phrx_icmp6 (Z * Z) nat Sample.sockets Sample.socket_patterns 10
          Sample.self Sample.na_candidate_packet
        = Some (self', [])
        /\ icmp6_nd_dad_tlla self' = Some Sample.peer_mac
        /\ event_icmp6_nd_dad self' = 1%nat
        /\ icmp6_nd_cache self' = Sample.cache1)
  /\ parse_failed Sample.na_packet = false
  /\ rx_icmp6 Sample.na_packet
     = RxNeighborAdvertisement Sample.neighbour2 (Some Sample.peer_mac)
  /\ ip6_unicast_candidate Sample.self <> Some Sample.neighbour2
  /\ exists self',
       _phrx_icmp6 (Z * Z) nat Sample.sockets Sample.socket_patterns 10
         Sample.self Sample.na_packet
       = Some (self', [])
       /\ PyDict.get Sample.neighbour2 (icmp6_nd_cache self')
          = Some {| NdCache.mac_address := Sample.peer_mac;
                    NdCache.permanent := false;
                    NdCache.creation_time := 10; NdCache.hit_count := 0 |}
       /\ PyDict.get Sample.neighbour1 (icmp6_nd_cache self')
          = Some Sample.used_entry
       /\ event_icmp6_nd_dad self' = 0%nat.
Proof.
  split; [reflexivity|]. split; [reflexivity|]. split; [reflexivity|].
  split.
  { destruct (proj1 (phrx_neighbor_advertisement (Z * Z) nat Sample.sockets
                       Sample.socket_patterns 10 Sample.self
                       Sample.na_candidate_packet Sample.candidate
                       (Some Sample.peer_mac) eq_refl eq_refl) eq_refl)
      as (self' & Hrun & Htlla & Hevent & Hcache & _).
    exists self'. repeat split; assumption. }
  split; [reflexivity|]. split; [reflexivity|].
  assert (ip6_unicast_candidate Sample.self <> Some Sample.neighbour2) as Hne
    by discriminate.
  split; [exact Hne|].
  destruct (proj1 (proj2 (phrx_neighbor_advertisement (Z * Z) nat Sample.sockets
                            Sample.socket_patterns 10 Sample.self
                            Sample.na_packet Sample.neighbour2
                            (Some Sample.peer_mac) eq_refl eq_refl))
              Hne Sample.peer_mac eq_refl)
    as (_ & self' & Hrun & Hget & Hother & _ & _ & Hevent).
  exists self'. split; [exact Hrun|]. split; [exact Hget|].
  split; [|exact Hevent].
  rewrite (Hother Sample.neighbour1); [reflexivity | discriminate].
Defined.

Example phrx_neighbor_advertisement_sample :
  _phrx_icmp6 (Z * Z) nat Sample.sockets Sample.socket_patterns 10
    Sample.self Sample.na_packet
  = Some (with_cache Sample.self
            (NdCache.add_entry 10 Sample.neighbour2 Sample.peer_mac Sample.cache1),
          []).
Proof. vm_compute. reflexivity. Qed.

Lemma phrx_unreachable_witness :
  parse_failed Sample.unreachable_packet = false
  /\ rx_icmp6 Sample.unreachable_packet = RxUnreachable Sample.datagram
  /\ exists out,
       _phrx_icmp6 (Z * Z) nat Sample.sockets Sample.socket_patterns 30
         Sample.self Sample.unreachable_packet
       = Some (Sample.self, out)
       /\ (In (NotifyUnreachable 7%nat) out <->
           spec_guard Sample.datagram
           /\ first_match Sample.sockets
                (Sample.socket_patterns (spec_four_tuple Sample.datagram)) 7%nat).
Proof.
  split; [reflexivity|]. split; [reflexivity|].
  destruct (phrx_unreachable (Z * Z) nat Sample.sockets Sample.socket_patterns 30
              Sample.self Sample.unreachable_packet Sample.datagram
              eq_refl eq_refl)
    as (out & Hrun & _ & Hnotify & _).
  exists out. split; [exact Hrun | exact (Hnotify 7%nat)].
Defined.

Example phrx_unreachable_sample :
  _phrx_icmp6 (Z * Z) nat Sample.sockets Sample.socket_patterns 30
    Sample.self Sample.unreachable_packet
  = Some (Sample.self, [NotifyUnreachable 7%nat])
  /\ spec_four_tuple Sample.datagram
     = {| local_ip_address := Ip6.address Sample.host1;
          remote_ip_address := Sample.neighbour1;
          local_port := 4660;
          remote_port := 53 |}.
Proof. vm_compute. split; reflexivity. Qed.

(* ===================================================================== *)
(** * Further properties of the code *)
(* ===================================================================== *)

(** X1.  From the empty cache of [NdCache.__init__], in a stack whose
    hosts all have a network with a last address, no run of the stack ends
    in an exception: the maintenance never meets a key that is gone, the
    constructors of addresses never refuse what the cache and the handler
    give them; and the cache keeps one binding per key. *)
Theorem run_never_raises
    (Pattern Socket : Type) (sockets : Pattern -> option Socket)
    (socket_patterns : UdpMetadata -> list Pattern) (cfg : Config)
    (self : PacketHandler) (evs : list Event) :
  all_have_last (ip6_host self) ->
  exists self' out,
    run Pattern Socket sockets socket_patterns cfg
      (with_cache self NdCache.init) evs = Some (self', out)
    /\ NoDup (PyDict.keys (icmp6_nd_cache self')).
Proof.
  intros Hall.
  destruct (run_total Pattern Socket sockets socket_patterns cfg evs
              (with_cache self NdCache.init)) as (self' & out & Hrun).
  { exact Hall. }
  { apply PyDictFacts.wf_nil. }
  exists self', out. split; [exact Hrun|].
  apply (cache_inv_run Pattern Socket sockets socket_patterns cfg evs _ _ _ Hrun).
  apply cache_inv_init.
Qed.

Lemma run_never_raises_witness :
  all_have_last (ip6_host Sample.self)
  /\ exists self' out,
       run (Z * Z) nat Sample.sockets Sample.socket_patterns Sample.cfg
         (with_cache Sample.self NdCache.init) Sample.events = Some (self', out)
       /\ NoDup (PyDict.keys (icmp6_nd_cache self')).
Proof.
  split; [exact sample_hosts_have_last|].
  exact (run_never_raises (Z * Z) nat Sample.sockets Sample.socket_patterns
           Sample.cfg Sample.self Sample.events sample_hosts_have_last).
Defined.

(** X2.  [solicited_node_multicast] of any address is accepted by the
    constructor, lies in ff02::1:ff00:0/104 and has the low 24 bits of the
    address. *)
Theorem solicited_node_multicast_total (a : Ip6.Ip6Address) :
  exists d,
    Ip6.solicited_node_multicast a = Some d
    /\ Ip6.is_solicited_node_multicast d = true
    /\ Ip6.is_multicast d = true
    /\ d mod 2 ^ 24 = a mod 2 ^ 24
    /\ d / 2 ^ 24 = Ip6.solicited_node_prefix / 2 ^ 24.
Proof.
  exists (Ip6.solicited_node_prefix + a mod 2 ^ 24).
  split; [apply Ip6Facts.solicited_node_multicast_eq|].
  split; [apply Ip6Facts.solicited_node_is_solicited_node|].
  split; [apply Ip6Facts.solicited_node_is_multicast|].
  pose proof (Z.mod_pos_bound a (2 ^ 24) ltac:(lia)) as Hb.
  change Ip6.solicited_node_prefix with (0xff0200000000000000000001ff * 2 ^ 24).
  split.
  - rewrite Z.add_comm, Z.mod_add by lia. apply Z.mod_mod. lia.
  - rewrite Z.add_comm, Z.div_add by lia.
    rewrite Z.div_small by lia. rewrite Z.div_mul by lia. reflexivity.
Qed.

(** X3.  An inbound Echo Request that parsed is answered by exactly one
    Echo Reply, from the destination of the request to its source, with
    hop limit 255 and the identifier, sequence number and data of the
    request; the state of the handler is left as it was. *)
Theorem phrx_echo_request
    (Pattern Socket : Type) (sockets : Pattern -> option Socket)
    (socket_patterns : UdpMetadata -> list Pattern)
    (now : Z) (self : PacketHandler) (packet_rx : PacketRx)
    (ec_id ec_seq : Z) (ec_data : list byte) :
  parse_failed packet_rx = false ->
  rx_icmp6 packet_rx = RxEchoRequest ec_id ec_seq ec_data ->
  _phrx_icmp6 Pattern Socket sockets socket_patterns now self packet_rx
  = Some (self,
          [Tx {| ip6_src := rx_ip6_dst packet_rx;
                 ip6_dst := rx_ip6_src packet_rx;
                 ip6_hop := 255;
                 icmp6_msg := ICMP6_ECHOR_REPLY ec_id ec_seq ec_data |}]).
Proof.
  intros Hparse Hrx. unfold _phrx_icmp6. now rewrite Hparse, Hrx.
Qed.

Lemma phrx_echo_request_witness :
  parse_failed Sample.echo_packet = false
  /\ rx_icmp6 Sample.echo_packet = RxEchoRequest 7 1 [x68; x69]
  /\ _phrx_icmp6 (Z * Z) nat Sample.sockets Sample.socket_patterns 20
       Sample.self Sample.echo_packet
     = Some (Sample.self,
             [Tx {| ip6_src := Ip6.address Sample.host1;
                    ip6_dst := Sample.neighbour1;
                    ip6_hop := 255;
                    icmp6_msg := ICMP6_ECHOR_REPLY 7 1 [x68; x69] |}]).
Proof.
  split; [reflexivity|]. split; [reflexivity|].
  exact (phrx_echo_request (Z * Z) nat Sample.sockets Sample.socket_patterns 20
           Sample.self Sample.echo_packet 7 1 [x68; x69] eq_refl eq_refl).
Defined.

(** X4.  An inbound Router Advertisement that parsed leaves, as the
    prefixes of the handler, each Prefix Information option of the packet
    paired with the source of the packet, in the order of the packet,
    releases the event of the advertisement once, sends nothing and leaves
    the cache as it was. *)
Theorem phrx_router_advertisement
    (Pattern Socket : Type) (sockets : Pattern -> option Socket)
    (socket_patterns : UdpMetadata -> list Pattern)
    (now : Z) (self : PacketHandler) (packet_rx : PacketRx)
    (nd_opt_pi : list Icmp6NdOptPI) :
  parse_failed packet_rx = false ->
  rx_icmp6 packet_rx = RxRouterAdvertisement nd_opt_pi ->
  exists self',
    _phrx_icmp6 Pattern Socket sockets socket_patterns now self packet_rx
    = Some (self', [])
    /\ icmp6_ra_prefixes self' = map (fun pi => (pi, rx_ip6_src packet_rx)) nd_opt_pi
    /\ event_icmp6_ra self' = S (event_icmp6_ra self)
    /\ icmp6_nd_cache self' = icmp6_nd_cache self
    /\ event_icmp6_nd_dad self' = event_icmp6_nd_dad self.
Proof.
  intros Hparse Hrx. unfold _phrx_icmp6. rewrite Hparse, Hrx.
  eexists. split; [reflexivity|]. repeat split.
Qed.

Lemma phrx_router_advertisement_witness :
  exists self',
    _phrx_icmp6 (Z * Z) nat Sample.sockets Sample.socket_patterns 20 Sample.self
      {| parse_failed := false;
         rx_ip6_src := Sample.candidate;
         rx_ip6_dst := Ip6.all_nodes;
         rx_icmp6 := RxRouterAdvertisement
                       [{| pi_flag_a := true;
                           pi_prefix := Ip6.network Sample.host1 |}] |}
    = Some (self', [])
    /\ icmp6_ra_prefixes self'
       = [({| pi_flag_a := true; pi_prefix := Ip6.network Sample.host1 |},
           Sample.candidate)]
    /\ event_icmp6_ra self' = 1%nat.
Proof.
  destruct (phrx_router_advertisement (Z * Z) nat Sample.sockets
              Sample.socket_patterns 20 Sample.self
              {| parse_failed := false;
                 rx_ip6_src := Sample.candidate;
                 rx_ip6_dst := Ip6.all_nodes;
                 rx_icmp6 := RxRouterAdvertisement
                               [{| pi_flag_a := true;
                                   pi_prefix := Ip6.network Sample.host1 |}] |}
              _ eq_refl eq_refl)
    as (self' & Hrun & Hpi & Hev & _).
  exists self'. repeat split; assumption.
Defined.

(* ===================================================================== *)
(** * Further properties of the cache *)
(* ===================================================================== *)

Section CacheMore.

Variable hosts : list Ip6.Ip6Host.
Variable mac : MacAddress.
Variable cfg : Config.

Lemma same_binding_refl e : same_binding e e.
Proof. repeat split. Qed.

Lemma same_binding_trans e1 e2 e3 :
  same_binding e1 e2 -> same_binding e2 e3 -> same_binding e1 e3.
Proof.
  intros (Hm & Hp & Ht) (Hm' & Hp' & Ht'). repeat split; congruence.
Qed.

(** What survives the maintenance was there before, with the same
    address, permanence and creation time. *)
Lemma maintain_cache_survivor now c c' out k e' :
  PyDict.wf c ->
  NdCache._maintain_cache hosts mac cfg now c = Some (c', out) ->
  PyDict.get k c' = Some e' ->
  exists e, PyDict.get k c = Some e
            /\ sweep_outcome hosts mac cfg now k e c' out
            /\ same_binding e e'
            /\ action cfg now e <> Discard.
Proof.
  intros Hwf Hrun Hget'.
  destruct (NdCacheFacts.maintain_cache_inv hosts mac cfg now c c' out Hwf Hrun)
    as (_ & Hnone & Hin).
  destruct (PyDict.get k c) as [e|] eqn:Hget.
  - exists e. split; [reflexivity|]. split; [now apply Hin|].
    pose proof (Hin k e Hget) as Hout. unfold sweep_outcome in Hout.
    destruct (action cfg now e); destruct Hout as [Hg _]; rewrite Hg in Hget';
      inversion Hget'; subst; (split; [repeat split | discriminate]).
  - destruct (Hnone k Hget) as [Hg _]. congruence.
Qed.

Lemma action_not_discard now e :
  NdCache.permanent e = false -> action cfg now e <> Discard ->
  now - NdCache.creation_time e <= nd_cache_entry_max_age cfg.
Proof.
  unfold action. intros ->.
  destruct (Z.gtb_spec (now - NdCache.creation_time e) (nd_cache_entry_max_age cfg))
    as [Hgt|Hle]; [intros Hne; now elim Hne | intros _; lia].
Qed.

(** The maintenance sends at most one solicitation per key it visits. *)
Lemma maintain_loop_length now ks :
  forall c c' out,
    NdCache.maintain_loop hosts mac cfg now ks c = Some (c', out) ->
    (length out <= length ks)%nat.
Proof.
  induction ks as [|k ks IH]; intros c c' out; simpl.
  - intros H. inversion H. auto.
  - destruct (NdCache.maintain_entry hosts mac cfg now k c) as [[c1 out1]|] eqn:H1;
      simpl; [|discriminate].
    destruct (NdCache.maintain_loop hosts mac cfg now ks c1) as [[c2 out2]|] eqn:H2;
      simpl; [|discriminate].
    intros H. inversion H. subst. rewrite length_app.
    specialize (IH c1 c' out2 H2).
    assert (length out1 <= 1)%nat as Hone; [|lia].
    revert H1. clear. unfold NdCache.maintain_entry.
    destruct (PyDict.get k c) as [e|]; cbn [bind]; [|discriminate].
    destruct (NdCache.permanent e); [|destruct (_ >? _); [|destruct (_ && _)]];
      try (intros H1; inversion H1; simpl; lia).
    destruct (NdCache._send_icmp6_neighbor_solicitation hosts mac k)
      as [o|] eqn:Hsend; cbn [bind]; [|discriminate].
    apply NdCacheFacts.send_inv in Hsend. destruct Hsend as [-> _].
    intros H1. apply some_inj in H1.
    assert (out1 = [solicitation hosts mac k]) as -> by congruence.
    simpl. lia.
Qed.

End CacheMore.

(** X5.  In a stack whose hosts all have a network with a last address,
    the maintenance run at time [now] leaves no entry that is not
    permanent and older than the maximum age; it binds no key that was not
    bound before, and an entry that survives keeps its link-layer address,
    its permanence and its creation time.  It sends at most one
    solicitation for each key, none for a key that is not bound, and
    nothing else. *)
Theorem maintain_cache_leaves_no_stale_entry
    (hosts : list Ip6.Ip6Host) (mac : MacAddress) (cfg : Config)
    (now : Z) (c : NdCache.t) :
  all_have_last hosts ->
  PyDict.wf c ->
  exists c' out,
    NdCache._maintain_cache hosts mac cfg now c = Some (c', out)
    /\ (forall k e', PyDict.get k c' = Some e' ->
          NdCache.permanent e' = false ->
          now - NdCache.creation_time e' <= nd_cache_entry_max_age cfg)
    /\ (forall k e', PyDict.get k c' = Some e' ->
          exists e, PyDict.get k c = Some e /\ same_binding e e')
    /\ (forall k, (length (solicitations_for k out) <= 1)%nat)
    /\ (forall k, PyDict.get k c = None -> solicitations_for k out = [])
    /\ (forall m, In m out ->
          exists k e, PyDict.get k c = Some e /\ solicits k m = true)
    /\ (length out <= length c)%nat.
Proof.
  intros Hall Hwf.
  destruct (NdCacheFacts.maintain_cache_spec hosts mac cfg now c Hall Hwf)
    as (c' & out & Hrun & _ & Hnone & Hin).
  exists c', out. split; [exact Hrun|].
  split; [|split; [|split; [|split; [|split]]]].
  - intros k e' Hget' Hperm.
    destruct (maintain_cache_survivor hosts mac cfg now c c' out k e' Hwf Hrun Hget')
      as (e & _ & _ & (_ & Hp & Ht) & Hnd).
    rewrite Ht. apply action_not_discard; congruence.
  - intros k e' Hget'.
    destruct (maintain_cache_survivor hosts mac cfg now c c' out k e' Hwf Hrun Hget')
      as (e & Hget & _ & Hsame & _).
    eauto.
  - intros k. destruct (PyDict.get k c) as [e|] eqn:Hget.
    + exact (NdCacheFacts.sweep_outcome_one hosts mac cfg now k e c' out
               (Hin k e Hget)).
    + destruct (Hnone k Hget) as [_ ->]. cbn [length]. lia.
  - intros k Hget. now destruct (Hnone k Hget).
  - intros m Hm.
    destruct (maintain_loop_sent hosts mac cfg now _ _ _ _ Hrun) as [Hsent _].
    rewrite Forall_forall in Hsent. destruct (Hsent m Hm) as [k ->].
    assert (In (solicitation hosts mac k) (solicitations_for k out)) as Hf.
    { apply filter_In. split; [exact Hm|].
      rewrite NdCacheFacts.solicits_solicitation. apply Z.eqb_refl. }
    destruct (PyDict.get k c) as [e|] eqn:Hget.
    + exists k, e. split; [exact Hget|].
      rewrite NdCacheFacts.solicits_solicitation. apply Z.eqb_refl.
    + destruct (Hnone k Hget) as [_ Hnil]. rewrite Hnil in Hf. contradiction.
  - replace (length c) with (length (PyDict.keys c))
      by (unfold PyDict.keys; apply length_map).
    eapply maintain_loop_length; eauto.
Qed.

Lemma wf_cache3 : PyDict.wf Sample2.cache3.
Proof.
  unfold PyDict.wf. simpl.
  repeat constructor; simpl; intros H;
    repeat (destruct H as [H|H]; [discriminate H|]); exact H.
Defined.

Example maintain_cache3_sample :
  NdCache._maintain_cache Sample.hosts Sample.mac Sample.cfg 61 Sample2.cache3
  = Some (tl Sample2.cache3, []).
Proof. vm_compute. reflexivity. Qed.

Lemma maintain_cache_leaves_no_stale_entry_witness :
  all_have_last Sample.hosts
  /\ PyDict.wf Sample2.cache3
  /\ exists c' out,
       NdCache._maintain_cache Sample.hosts Sample.mac Sample.cfg 61 Sample2.cache3
       = Some (c', out)
       /\ (forall k e', PyDict.get k c' = Some e' ->
             NdCache.permanent e' = false ->
             61 - NdCache.creation_time e' <= 60).
Proof.
  split; [exact sample_hosts_have_last|]. split; [exact wf_cache3|].
  destruct (maintain_cache_leaves_no_stale_entry Sample.hosts Sample.mac Sample.cfg
              61 Sample2.cache3 sample_hosts_have_last wf_cache3)
    as (c' & out & Hrun & Hfresh & _).
  exists c', out. split; [exact Hrun | exact Hfresh].
Defined.

Section CacheCalls.

Variable hosts : list Ip6.Ip6Host.
Variable mac : MacAddress.
Variable cfg : Config.

(** The body of the loop, by the branch it takes. *)
Lemma maintain_entry_quiet now k c e :
  PyDict.get k c = Some e ->
  action cfg now e = SkipPermanent \/ action cfg now e = Leave ->
  NdCache.maintain_entry hosts mac cfg now k c = Some (c, []).
Proof.
  intros Hget. unfold NdCache.maintain_entry, action. rewrite Hget. cbn [bind].
  destruct (NdCache.permanent e); [reflexivity|].
  destruct (_ >? _); [intros [H|H]; discriminate H|].
  destruct (_ && _); [intros [H|H]; discriminate H | reflexivity].
Qed.

Lemma maintain_loop_quiet now c ks :
  (forall k, In k ks ->
     exists e, PyDict.get k c = Some e
               /\ (action cfg now e = SkipPermanent \/ action cfg now e = Leave)) ->
  NdCache.maintain_loop hosts mac cfg now ks c = Some (c, []).
Proof.
  induction ks as [|k ks IH]; intros Hall; simpl; [reflexivity|].
  destruct (Hall k (or_introl eq_refl)) as (e & Hget & Hact).
  rewrite (maintain_entry_quiet now k c e Hget Hact). simpl.
  rewrite IH; [reflexivity|]. intros k' Hk'. apply Hall. now right.
Qed.

(** After the maintenance no entry is left to discard or to refresh at the
    same time. *)
Lemma maintain_cache_settled now c c' out k e' :
  PyDict.wf c ->
  NdCache._maintain_cache hosts mac cfg now c = Some (c', out) ->
  PyDict.get k c' = Some e' ->
  action cfg now e' = SkipPermanent \/ action cfg now e' = Leave.
Proof.
  intros Hwf Hrun Hget'.
  destruct (maintain_cache_survivor hosts mac cfg now c c' out k e' Hwf Hrun Hget')
    as (e & Hget & Hout & _ & _).
  unfold sweep_outcome in Hout. destruct (action cfg now e) eqn:Hact;
    destruct Hout as [Hg _]; rewrite Hg in Hget'; inversion Hget'; subst; auto.
  right. revert Hact. unfold action. simpl.
  destruct (NdCache.permanent e); [discriminate|].
  destruct (_ >? _); [discriminate|].
  now rewrite andb_false_r.
Qed.

(** What a call that is no [add_entry] leaves of a binding. *)
Lemma call_no_add_survivor op c c' out k e' :
  PyDict.wf c -> no_add op ->
  NdCache.call hosts mac cfg op c = Some (c', out) ->
  PyDict.get k c' = Some e' ->
  PyDict.wf c' /\ exists e, PyDict.get k c = Some e /\ same_binding e e'.
Proof.
  intros Hwf Hop. destruct op as [now a m | a | now]; simpl in *; [contradiction| |].
  - destruct (PyDict.get a c) as [e|] eqn:Hget.
    + rewrite (NdCacheFacts.find_entry_hit hosts mac a c e Hget). simpl.
      intros H Hget'. inversion H. subst. split; [now apply PyDictFacts.wf_set|].
      destruct (Z.eq_dec k a) as [->|Hne].
      * rewrite PyDictFacts.get_set_eq in Hget'. inversion Hget'. subst.
        exists e. split; [assumption | repeat split].
      * rewrite PyDictFacts.get_set_neq in Hget' by assumption.
        exists e'. split; [assumption | apply same_binding_refl].
    + destruct (NdCache.find_entry hosts mac a c) as [[[r c1] out1]|] eqn:Hf;
        simpl; [|discriminate].
      destruct (NdCacheFacts.find_entry_miss_inv hosts mac a c r c1 out1 Hget Hf)
        as (_ & -> & _).
      intros H Hget'. inversion H. subst. split; [assumption|].
      exists e'. split; [assumption | apply same_binding_refl].
  - intros Hrun Hget'. split.
    + now destruct (NdCacheFacts.maintain_cache_inv hosts mac cfg now c c' out
                      Hwf Hrun).
    + destruct (maintain_cache_survivor hosts mac cfg now c c' out k e' Hwf Hrun Hget')
        as (e & Hget & _ & Hsame & _).
      eauto.
Qed.

(** Every call keeps one binding per key. *)
Lemma call_wf op c c' out :
  PyDict.wf c ->
  NdCache.call hosts mac cfg op c = Some (c', out) ->
  PyDict.wf c'.
Proof.
  intros Hwf. destruct op as [now a m | a | now]; simpl.
  - intros H. inversion H. now apply PyDictFacts.wf_set.
  - destruct (PyDict.get a c) as [e|] eqn:Hget.
    + rewrite (NdCacheFacts.find_entry_hit hosts mac a c e Hget). simpl.
      intros H. inversion H. now apply PyDictFacts.wf_set.
    + destruct (NdCache.find_entry hosts mac a c) as [[[r c1] out1]|] eqn:Hf;
        simpl; [|discriminate].
      destruct (NdCacheFacts.find_entry_miss_inv hosts mac a c r c1 out1 Hget Hf)
        as (_ & -> & _).
      intros H. inversion H. now subst.
  - intros Hrun.
    now destruct (NdCacheFacts.maintain_cache_inv hosts mac cfg now c c' out
                    Hwf Hrun).
Qed.

End CacheCalls.

(** X6.  The maintenance is idempotent at a fixed time: run again at the
    time of a run that has ended, it changes nothing and sends nothing. *)
Theorem maintain_cache_idempotent
    (hosts : list Ip6.Ip6Host) (mac : MacAddress) (cfg : Config)
    (now : Z) (c c' : NdCache.t) (out : list PhtxIcmp6) :
  PyDict.wf c ->
  NdCache._maintain_cache hosts mac cfg now c = Some (c', out) ->
  NdCache._maintain_cache hosts mac cfg now c' = Some (c', []).
Proof.
  intros Hwf Hrun. unfold NdCache._maintain_cache.
  apply maintain_loop_quiet. intros k Hk.
  destruct (PyDictFacts.in_get_Some k c' Hk) as [e' Hget'].
  exists e'. split; [assumption|].
  eapply maintain_cache_settled; eauto.
Qed.

Lemma maintain_cache_idempotent_witness :
  PyDict.wf Sample.cache1
  /\ NdCache._maintain_cache Sample.hosts Sample.mac Sample.cfg 56 Sample.cache1
     = Some ([(Sample.neighbour1, NdCache.set_hit_count Sample.used_entry 0)],
             [solicitation Sample.hosts Sample.mac Sample.neighbour1])
  /\ NdCache._maintain_cache Sample.hosts Sample.mac Sample.cfg 56
       [(Sample.neighbour1, NdCache.set_hit_count Sample.used_entry 0)]
     = Some ([(Sample.neighbour1, NdCache.set_hit_count Sample.used_entry 0)], []).
Proof.
  split; [exact wf_cache1|]. split; [exact maintain_cache_refresh_sample|].
  exact (maintain_cache_idempotent Sample.hosts Sample.mac Sample.cfg 56
           Sample.cache1 _ _ wf_cache1 maintain_cache_refresh_sample).
Defined.

(** X7.  Only [add_entry] binds a key or changes the link-layer address,
    the permanence or the creation time of an entry: after any lookups and
    maintenance runs, every entry of the cache was there before them with
    the same address, permanence and creation time. *)
Theorem only_add_entry_binds
    (hosts : list Ip6.Ip6Host) (mac : MacAddress) (cfg : Config)
    (ops : list NdCache.Call) (c c' : NdCache.t) (out : list PhtxIcmp6) :
  PyDict.wf c ->
  Forall no_add ops ->
  NdCache.calls hosts mac cfg ops c = Some (c', out) ->
  forall k e', PyDict.get k c' = Some e' ->
    exists e, PyDict.get k c = Some e
              /\ NdCache.mac_address e' = NdCache.mac_address e
              /\ NdCache.permanent e' = NdCache.permanent e
              /\ NdCache.creation_time e' = NdCache.creation_time e.
Proof.
  intros Hwf Hops. revert c c' out Hwf.
  induction Hops as [|op ops Hop Hops IH]; intros c c' out Hwf; simpl.
  - intros H k e' Hget'. inversion H. subst. exists e'. auto.
  - destruct (NdCache.call hosts mac cfg op c) as [[c1 out1]|] eqn:H1;
      simpl; [|discriminate].
    destruct (NdCache.calls hosts mac cfg ops c1) as [[c2 out2]|] eqn:H2;
      simpl; [|discriminate].
    intros H k e' Hget'. inversion H. subst.
    pose proof (call_wf hosts mac cfg op c c1 out1 Hwf H1) as Hwf1.
    destruct (IH c1 c' out2 Hwf1 H2 k e' Hget') as (e1 & Hget1 & Hm1 & Hp1 & Ht1).
    destruct (call_no_add_survivor hosts mac cfg op c c1 out1 k e1 Hwf Hop H1 Hget1)
      as (_ & e & Hget & Hm & Hp & Ht).
    exists e. repeat split; congruence.
Qed.

Lemma only_add_entry_binds_witness :
  PyDict.wf Sample2.cache3
  /\ Forall no_add [NdCache.CallFind Sample.neighbour2; NdCache.CallMaintain 56;
                    NdCache.CallFind Sample2.neighbour3; NdCache.CallMaintain 70]
  /\ exists c' out,
       NdCache.calls Sample.hosts Sample.mac Sample.cfg
         [NdCache.CallFind Sample.neighbour2; NdCache.CallMaintain 56;
          NdCache.CallFind Sample2.neighbour3; NdCache.CallMaintain 70]
         Sample2.cache3 = Some (c', out)
       /\ PyDict.keys c' = [Sample.neighbour2; Sample2.neighbour3]
       /\ forall k e', PyDict.get k c' = Some e' ->
            exists e, PyDict.get k Sample2.cache3 = Some e
                      /\ NdCache.mac_address e' = NdCache.mac_address e
                      /\ NdCache.permanent e' = NdCache.permanent e
                      /\ NdCache.creation_time e' = NdCache.creation_time e.
Proof.
  assert (Forall no_add [NdCache.CallFind Sample.neighbour2; NdCache.CallMaintain 56;
                         NdCache.CallFind Sample2.neighbour3; NdCache.CallMaintain 70])
    as Hops by (repeat constructor).
  split; [exact wf_cache3|]. split; [exact Hops|].
  destruct (NdCache.calls Sample.hosts Sample.mac Sample.cfg
              [NdCache.CallFind Sample.neighbour2; NdCache.CallMaintain 56;
               NdCache.CallFind Sample2.neighbour3; NdCache.CallMaintain 70]
              Sample2.cache3) as [[c' out]|] eqn:Hrun.
  - exists c', out. split; [reflexivity|]. split.
    + vm_compute in Hrun. inversion Hrun. reflexivity.
    + exact (only_add_entry_binds Sample.hosts Sample.mac Sample.cfg _ _ _ _
               wf_cache3 Hops Hrun).
  - vm_compute in Hrun. discriminate Hrun.
Defined.

Section HitCount.

Variable hosts : list Ip6.Ip6Host.
Variable mac : MacAddress.
Variable cfg : Config.
Hypothesis Hall : all_have_last hosts.

Lemma calls_count_lookups K M t0 ops :
  Forall (counts_for K) ops ->
  forall c h,
    PyDict.get K c
    = Some {| NdCache.mac_address := M; NdCache.permanent := false;
              NdCache.creation_time := t0; NdCache.hit_count := h |} ->
    exists c' out,
      NdCache.calls hosts mac cfg ops c = Some (c', out)
      /\ PyDict.get K c'
         = Some {| NdCache.mac_address := M; NdCache.permanent := false;
                   NdCache.creation_time := t0;
                   NdCache.hit_count := h + lookups_of K ops |}
      /\ solicitations_for K out = [].
Proof.
  induction 1 as [|op ops Hop Hops IH]; intros c h Hget; simpl.
  - exists c, []. rewrite N.add_0_r. auto.
  - destruct op as [now a m | a | now]; simpl in Hop; [| |contradiction].
    + simpl.
      destruct (IH (NdCache.add_entry now a m c) h) as (c' & out & -> & Hget' & Hout).
      { unfold NdCache.add_entry. rewrite PyDictFacts.get_set_neq by congruence.
        exact Hget. }
      simpl. eauto.
    + simpl. destruct (Z.eqb_spec a K) as [->|Hne].
      * rewrite (NdCacheFacts.find_entry_hit hosts mac K c _ Hget). simpl.
        match goal with
        | |- context [NdCache.calls _ _ _ _ ?c1] =>
            destruct (IH c1 (h + 1)%N) as (c' & out & -> & Hget' & Hout)
        end.
        { apply PyDictFacts.get_set_eq. }
        simpl. exists c', out. split; [reflexivity|]. split; [|assumption].
        rewrite Hget'. do 2 f_equal. now rewrite <- N.add_assoc.
      * destruct (PyDict.get a c) as [e|] eqn:Ha.
        -- rewrite (NdCacheFacts.find_entry_hit hosts mac a c e Ha). simpl.
           match goal with
           | |- context [NdCache.calls _ _ _ _ ?c1] =>
               destruct (IH c1 h) as (c' & out & -> & Hget' & Hout)
           end.
           { rewrite PyDictFacts.get_set_neq by congruence. exact Hget. }
           simpl. eauto.
        -- rewrite (NdCacheFacts.find_entry_miss hosts mac a c Hall Ha). simpl.
           destruct (IH c h Hget) as (c' & out & -> & Hget' & Hout).
           simpl. exists c', (solicitation hosts mac a :: out).
           split; [reflexivity|]. split; [assumption|].
           change (solicitation hosts mac a :: out)
             with ([solicitation hosts mac a] ++ out).
           rewrite NdCacheFacts.solicitations_for_app, Hout, app_nil_r.
           apply NdCacheFacts.solicitations_for_other. congruence.
Qed.

End HitCount.

(** X8.  The hit count of an entry counts the lookups of its key: in a
    stack whose hosts all have a network with a last address, after
    [add_entry(K, M)] and any lookups and any [add_entry] for other keys,
    with no maintenance in between, the entry of [K] holds [M], its
    creation time, and as its hit count the number of lookups of [K]; no
    solicitation was sent for [K]. *)
Theorem hit_count_counts_lookups
    (hosts : list Ip6.Ip6Host) (mac : MacAddress) (cfg : Config)
    (t0 : Z) (K : Ip6.Ip6Address) (M : MacAddress) (c : NdCache.t)
    (ops : list NdCache.Call) :
  all_have_last hosts ->
  Forall (counts_for K) ops ->
  exists c' out,
    NdCache.calls hosts mac cfg ops (NdCache.add_entry t0 K M c) = Some (c', out)
    /\ PyDict.get K c'
       = Some {| NdCache.mac_address := M; NdCache.permanent := false;
                 NdCache.creation_time := t0;
                 NdCache.hit_count := lookups_of K ops |}
    /\ solicitations_for K out = [].
Proof.
  intros Hall Hops.
  destruct (calls_count_lookups hosts mac cfg Hall K M t0 ops Hops
              (NdCache.add_entry t0 K M c) 0%N) as (c' & out & Hrun & Hget & Hout).
  { apply PyDictFacts.get_set_eq. }
  exists c', out. rewrite N.add_0_l in Hget. auto.
Qed.

Lemma hit_count_counts_lookups_witness :
  all_have_last Sample.hosts
  /\ Forall (counts_for Sample.neighbour2)
    [NdCache.CallFind Sample.neighbour2; NdCache.CallFind Sample.neighbour1;
     NdCache.CallAdd 12 Sample2.neighbour3 Sample.mac;
     NdCache.CallFind Sample.neighbour2; NdCache.CallFind Sample.neighbour2]
  /\ exists c' out,
       NdCache.calls Sample.hosts Sample.mac Sample.cfg
         [NdCache.CallFind Sample.neighbour2; NdCache.CallFind Sample.neighbour1;
          NdCache.CallAdd 12 Sample2.neighbour3 Sample.mac;
          NdCache.CallFind Sample.neighbour2; NdCache.CallFind Sample.neighbour2]
         (NdCache.add_entry 10 Sample.neighbour2 Sample.peer_mac Sample.cache1)
       = Some (c', out)
       /\ PyDict.get Sample.neighbour2 c'
          = Some {| NdCache.mac_address := Sample.peer_mac;
                    NdCache.permanent := false;
                    NdCache.creation_time := 10;
                    NdCache.hit_count := 3 |}.
Proof.
  assert (Forall (counts_for Sample.neighbour2)
            [NdCache.CallFind Sample.neighbour2; NdCache.CallFind Sample.neighbour1;
             NdCache.CallAdd 12 Sample2.neighbour3 Sample.mac;
             NdCache.CallFind Sample.neighbour2; NdCache.CallFind Sample.neighbour2])
    as Hops.
  { repeat constructor. simpl. discriminate. }
  split; [exact sample_hosts_have_last|]. split; [exact Hops|].
  destruct (hit_count_counts_lookups Sample.hosts Sample.mac Sample.cfg 10
              Sample.neighbour2 Sample.peer_mac Sample.cache1 _
              sample_hosts_have_last Hops)
    as (c' & out & Hrun & Hget & _).
  exists c', out. split; [exact Hrun | exact Hget].
Defined.

(* ===================================================================== *)
(** * Further properties of the handlers *)
(* ===================================================================== *)

(** X9.  Whatever the packet, the ICMPv6 handler ends without an
    exception, hands at most one message or notification to the outside,
    and leaves the addresses of the stack, its hosts, its link-layer
    address and the address being probed as they were.  It touches the
    state of the probe for duplicates only on a Neighbor Advertisement for
    the address being probed, the router prefixes only on a Router
    Advertisement, and the cache only on a Neighbor Solicitation or a
    Neighbor Advertisement, by one [add_entry]; a packet that failed to
    parse changes nothing and sends nothing. *)
Theorem phrx_icmp6_frame
    (Pattern Socket : Type) (sockets : Pattern -> option Socket)
    (socket_patterns : UdpMetadata -> list Pattern)
    (now : Z) (self : PacketHandler) (packet_rx : PacketRx) :
  exists self' out,
    _phrx_icmp6 Pattern Socket sockets socket_patterns now self packet_rx
    = Some (self', out)
    /\ (length out <= 1)%nat
    /\ ip6_unicast self' = ip6_unicast self
    /\ ip6_host self' = ip6_host self
    /\ mac_unicast self' = mac_unicast self
    /\ ip6_unicast_candidate self' = ip6_unicast_candidate self
    /\ (parse_failed packet_rx = true -> self' = self /\ out = [])
    /\ ((icmp6_nd_dad_tlla self' = icmp6_nd_dad_tlla self
         /\ event_icmp6_nd_dad self' = event_icmp6_nd_dad self)
        \/ exists t o, rx_icmp6 packet_rx = RxNeighborAdvertisement t o
                       /\ ip6_unicast_candidate self = Some t)
    /\ ((icmp6_ra_prefixes self' = icmp6_ra_prefixes self
         /\ event_icmp6_ra self' = event_icmp6_ra self)
        \/ exists pis, rx_icmp6 packet_rx = RxRouterAdvertisement pis)
    /\ (icmp6_nd_cache self' = icmp6_nd_cache self
        \/ exists a m,
             icmp6_nd_cache self' = NdCache.add_entry now a m (icmp6_nd_cache self)
             /\ ((exists t, rx_icmp6 packet_rx = RxNeighborSolicitation t (Some m)
                               /\ a = rx_ip6_src packet_rx)
                 \/ rx_icmp6 packet_rx = RxNeighborAdvertisement a (Some m))).
Proof.
  unfold _phrx_icmp6.
  destruct (parse_failed packet_rx) eqn:Hparse.
  { exists self, []. simpl. repeat split; auto. }
  destruct (rx_icmp6 packet_rx) as [t o | t o | | pis | i q d | frame | ] eqn:Hrx.
  - destruct (negb (mem t (ip6_unicast self))).
    + exists self, []. simpl. repeat split; auto; discriminate.
    + eexists. eexists. split; [reflexivity|]. simpl.
      destruct (negb _); destruct o as [m|]; simpl;
        repeat split; auto; try discriminate.
      right. exists (rx_ip6_src packet_rx), m. split; [reflexivity|].
      left. eauto.
  - destruct (eq_candidate t (ip6_unicast_candidate self)) eqn:Hc.
    + apply eq_candidate_true in Hc.
      exists (dad_release self o), []. simpl. repeat split; auto; try discriminate.
      right. eauto.
    + destruct o as [m|].
      * eexists. eexists. split; [reflexivity|]. simpl.
        repeat split; auto; try discriminate.
        right. exists t, m. auto.
      * exists self, []. simpl. repeat split; auto; discriminate.
  - exists self, []. simpl. repeat split; auto; discriminate.
  - eexists. eexists. split; [reflexivity|]. simpl.
    repeat split; auto; try discriminate. right. eauto.
  - eexists. eexists. split; [reflexivity|]. simpl.
    repeat split; auto; discriminate.
  - destruct (unreachable_guard frame) eqn:Hguard.
    + apply unreachable_guard_spec in Hguard.
      rewrite (unreachable_metadata_spec frame Hguard). cbn [bind].
      destruct (match_socket _ _ _ _); eexists; eexists;
        (split; [reflexivity|]); simpl; repeat split; auto; discriminate.
    + exists self, []. simpl. repeat split; auto; discriminate.
  - exists self, []. simpl. repeat split; auto; discriminate.
Qed.

Section Ip6Dispatch.

Import Ip6Rx.

Variable Pattern : Type.
Variable Socket : Type.
Variable sockets : Pattern -> option Socket.
Variable socket_patterns : UdpMetadata -> list Pattern.
Variable _phrx_ip6_ext_frag : Stack -> Ip6PacketRx -> Exc (Stack * list (Effect Socket)).
Variable _phrx_udp : Stack -> Ip6PacketRx -> Exc (Stack * list (Effect Socket)).
Variable _phrx_tcp : Stack -> Ip6PacketRx -> Exc (Stack * list (Effect Socket)).

Local Abbreviation phrx_ip6 :=
  (_phrx_ip6 Pattern Socket sockets socket_patterns
     _phrx_ip6_ext_frag _phrx_udp _phrx_tcp).
Local Abbreviation receive_all :=
  (receive Pattern Socket sockets socket_patterns
     _phrx_ip6_ext_frag _phrx_udp _phrx_tcp).

Lemma mem_app x l1 l2 : mem x (l1 ++ l2) = mem x l1 || mem x l2.
Proof. unfold mem. apply existsb_app. Qed.

Hypothesis ext_frag_keeps : keeps_stats Socket _phrx_ip6_ext_frag.
Hypothesis udp_keeps : keeps_stats Socket _phrx_udp.
Hypothesis tcp_keeps : keeps_stats Socket _phrx_tcp.

Ltac stats_lia :=
  cbn [ip6__pre_parse ip6__failed_parse__drop ip6__dst_unknown__drop
       ip6__dst_unicast ip6__dst_multicast packet_stats_rx with_stats with_handler
       bump_pre_parse bump_failed_parse bump_dst_unknown bump_dst_unicast
       bump_dst_multicast handler ip6_multicast];
  lia.

(** What one packet does to the counters. *)
Lemma phrx_ip6_counts now self packet_rx self' out :
  phrx_ip6 now self packet_rx = Some (self', out) ->
  let s := packet_stats_rx self in
  let s' := packet_stats_rx self' in
  (ip6__pre_parse s' = ip6__pre_parse s + 1
   /\ ip6__failed_parse__drop s' + ip6__dst_unknown__drop s'
      <= ip6__failed_parse__drop s + ip6__dst_unknown__drop s + 1
   /\ ip6__failed_parse__drop s + ip6__dst_unknown__drop s
      + ip6__dst_unicast s + ip6__dst_multicast s + 1
      <= ip6__failed_parse__drop s' + ip6__dst_unknown__drop s'
         + ip6__dst_unicast s' + ip6__dst_multicast s'
   /\ 2 * (ip6__failed_parse__drop s' + ip6__dst_unknown__drop s')
      + ip6__dst_unicast s' + ip6__dst_multicast s'
      <= 2 * (ip6__failed_parse__drop s + ip6__dst_unknown__drop s)
         + ip6__dst_unicast s + ip6__dst_multicast s + 2)%N.
Proof.
  unfold _phrx_ip6. cbv zeta.
  destruct (ip6_parse_failed packet_rx).
  { intros H. inversion H. stats_lia. }
  cbn [handler ip6_multicast packet_stats_rx with_stats].
  rewrite mem_app.
  destruct (mem _ (ip6_unicast (handler self))) eqn:Hu;
    cbn [orb negb handler ip6_multicast packet_stats_rx with_stats];
    destruct (mem _ (ip6_multicast self)) eqn:Hm;
    cbn [orb negb handler ip6_multicast packet_stats_rx with_stats];
    try (intros H; inversion H; stats_lia);
    (destruct (ip6_next packet_rx);
     [ intros H; rewrite (ext_frag_keeps _ _ _ _ H); stats_lia
     | destruct (_phrx_icmp6 _ _ _ _ _ _ _) as [[h o]|]; cbn [bind];
       [intros H; inversion H; stats_lia | discriminate]
     | intros H; rewrite (udp_keeps _ _ _ _ H); stats_lia
     | intros H; rewrite (tcp_keeps _ _ _ _ H); stats_lia
     | intros H; inversion H; stats_lia ]).
Qed.

Lemma receive_counts packets :
  forall self self' out,
    receive_all self packets = Some (self', out) ->
    let s := packet_stats_rx self in
    let s' := packet_stats_rx self' in
    (ip6__pre_parse s' = ip6__pre_parse s + N.of_nat (length packets)
     /\ ip6__failed_parse__drop s' + ip6__dst_unknown__drop s'
        <= ip6__failed_parse__drop s + ip6__dst_unknown__drop s
           + N.of_nat (length packets)
     /\ ip6__failed_parse__drop s + ip6__dst_unknown__drop s
        + ip6__dst_unicast s + ip6__dst_multicast s + N.of_nat (length packets)
        <= ip6__failed_parse__drop s' + ip6__dst_unknown__drop s'
           + ip6__dst_unicast s' + ip6__dst_multicast s'
     /\ 2 * (ip6__failed_parse__drop s' + ip6__dst_unknown__drop s')
        + ip6__dst_unicast s' + ip6__dst_multicast s'
        <= 2 * (ip6__failed_parse__drop s + ip6__dst_unknown__drop s)
           + ip6__dst_unicast s + ip6__dst_multicast s
           + 2 * N.of_nat (length packets))%N.
Proof.
  induction packets as [|[now packet_rx] packets IH]; intros self self' out.
  - simpl. intros H. inversion H. subst. lia.
  - cbn [receive].
    destruct (phrx_ip6 now self packet_rx) as [[self1 out1]|] eqn:H1;
      cbn [bind]; [|discriminate].
    destruct (receive_all self1 packets) as [[self2 out2]|] eqn:H2;
      cbn [bind]; [|discriminate].
    intros H. inversion H. subst.
    pose proof (phrx_ip6_counts now self packet_rx self1 out1 H1) as Hstep.
    pose proof (IH self1 self' out2 H2) as Hrest.
    cbv zeta in *. cbn [length]. lia.
Qed.

End Ip6Dispatch.

(** X10.  The counters of the IPv6 layer account for every packet: from
    fresh counters, after any packets handled without an exception, with
    handlers of the other protocols that leave these counters alone,
    [ip6__pre_parse] is the number of packets, the two drop counters
    together count at most that many, and every packet that was not dropped
    was counted as unicast, as multicast or as both. *)
Theorem ip6_counters_account
    (Pattern Socket : Type) (sockets : Pattern -> option Socket)
    (socket_patterns : UdpMetadata -> list Pattern)
    (_phrx_ip6_ext_frag _phrx_udp _phrx_tcp :
       Ip6Rx.Stack -> Ip6Rx.Ip6PacketRx -> Exc (Ip6Rx.Stack * list (Effect Socket)))
    (self self' : Ip6Rx.Stack) (packets : list (Z * Ip6Rx.Ip6PacketRx))
    (out : list (Effect Socket)) :
  Ip6Rx.keeps_stats Socket _phrx_ip6_ext_frag ->
  Ip6Rx.keeps_stats Socket _phrx_udp ->
  Ip6Rx.keeps_stats Socket _phrx_tcp ->
  Ip6Rx.packet_stats_rx self = Ip6Rx.zero_stats ->
  Ip6Rx.receive Pattern Socket sockets socket_patterns
    _phrx_ip6_ext_frag _phrx_udp _phrx_tcp self packets = Some (self', out) ->
  let s' := Ip6Rx.packet_stats_rx self' in
  let dropped := (Ip6Rx.ip6__failed_parse__drop s' + Ip6Rx.ip6__dst_unknown__drop s')%N in
  let counted := (Ip6Rx.ip6__dst_unicast s' + Ip6Rx.ip6__dst_multicast s')%N in
  (Ip6Rx.ip6__pre_parse s' = N.of_nat (length packets)
   /\ dropped <= Ip6Rx.ip6__pre_parse s'
   /\ Ip6Rx.ip6__pre_parse s' - dropped <= counted
   /\ counted <= 2 * (Ip6Rx.ip6__pre_parse s' - dropped))%N.
Proof.
  intros Hfrag Hudp Htcp Hzero Hrun.
  pose proof (receive_counts Pattern Socket sockets socket_patterns
                _phrx_ip6_ext_frag _phrx_udp _phrx_tcp Hfrag Hudp Htcp
                packets self self' out Hrun) as H.
  cbv zeta in *. rewrite Hzero in H.
  cbn [Ip6Rx.zero_stats Ip6Rx.ip6__pre_parse Ip6Rx.ip6__failed_parse__drop
       Ip6Rx.ip6__dst_unknown__drop Ip6Rx.ip6__dst_unicast
       Ip6Rx.ip6__dst_multicast] in H.
  lia.
Qed.

Lemma sample_idle_keeps : Ip6Rx.keeps_stats nat Sample3.idle.
Proof.
  intros self packet_rx self' out H. inversion H. reflexivity.
Defined.

Example receive_sample :
  option_map (fun r => (Ip6Rx.packet_stats_rx (fst r), length (snd r)))
    (Ip6Rx.receive (Z * Z) nat Sample.sockets Sample.socket_patterns
       Sample3.idle Sample3.idle Sample3.idle Sample3.stack Sample3.packets)
  = Some ({| Ip6Rx.ip6__pre_parse := 4;
             Ip6Rx.ip6__failed_parse__drop := 1;
             Ip6Rx.ip6__dst_unknown__drop := 1;
             Ip6Rx.ip6__dst_unicast := 1;
             Ip6Rx.ip6__dst_multicast := 1 |}, 1%nat).
Proof. vm_compute. reflexivity. Qed.

Lemma ip6_counters_account_witness :
  Ip6Rx.packet_stats_rx Sample3.stack = Ip6Rx.zero_stats
  /\ exists self' out,
       Ip6Rx.receive (Z * Z) nat Sample.sockets Sample.socket_patterns
         Sample3.idle Sample3.idle Sample3.idle Sample3.stack Sample3.packets
       = Some (self', out)
       /\ Ip6Rx.ip6__pre_parse (Ip6Rx.packet_stats_rx self') = 4%N.
Proof.
  split; [reflexivity|].
  destruct (Ip6Rx.receive (Z * Z) nat Sample.sockets Sample.socket_patterns
              Sample3.idle Sample3.idle Sample3.idle Sample3.stack Sample3.packets)
    as [[self' out]|] eqn:Hrun.
  - exists self', out. split; [reflexivity|].
    exact (proj1 (ip6_counters_account (Z * Z) nat Sample.sockets
                    Sample.socket_patterns Sample3.idle Sample3.idle Sample3.idle
                    Sample3.stack self' Sample3.packets out
                    sample_idle_keeps sample_idle_keeps sample_idle_keeps
                    eq_refl Hrun)).
  - vm_compute in Hrun. discriminate Hrun.
Defined.

(** X11.  An ICMPv6 packet reaches the ICMPv6 handler only through the
    tests of the IPv6 layer: [_phrx_ip6] ends without an exception, and
    when the IPv6 header failed to parse, or the destination is neither a
    unicast nor a multicast address of the stack, or the ICMPv6 message
    failed to parse, the cache, the state of the probe and the prefixes
    stay as they were and nothing is sent; otherwise the stack is left as
    the ICMPv6 handler leaves it. *)
Theorem icmp6_only_when_addressed
    (Pattern Socket : Type) (sockets : Pattern -> option Socket)
    (socket_patterns : UdpMetadata -> list Pattern)
    (_phrx_ip6_ext_frag _phrx_udp _phrx_tcp :
       Ip6Rx.Stack -> Ip6Rx.Ip6PacketRx -> Exc (Ip6Rx.Stack * list (Effect Socket)))
    (now : Z) (self : Ip6Rx.Stack) (packet_rx : Ip6Rx.Ip6PacketRx) :
  Ip6Rx.ip6_next packet_rx = Ip6Rx.IP6_NEXT_ICMP6 ->
  let dst := rx_ip6_dst (Ip6Rx.packet packet_rx) in
  let ours := In dst (ip6_unicast (Ip6Rx.handler self))
              \/ In dst (Ip6Rx.ip6_multicast self) in
  exists self' out,
    Ip6Rx._phrx_ip6 Pattern Socket sockets socket_patterns
      _phrx_ip6_ext_frag _phrx_udp _phrx_tcp now self packet_rx = Some (self', out)
    /\ Ip6Rx.ip6_multicast self' = Ip6Rx.ip6_multicast self
    /\ (Ip6Rx.ip6_parse_failed packet_rx = true \/ ~ ours
        \/ parse_failed (Ip6Rx.packet packet_rx) = true ->
        Ip6Rx.handler self' = Ip6Rx.handler self /\ out = [])
    /\ (Ip6Rx.ip6_parse_failed packet_rx = false -> ours ->
        _phrx_icmp6 Pattern Socket sockets socket_patterns now
          (Ip6Rx.handler self) (Ip6Rx.packet packet_rx)
        = Some (Ip6Rx.handler self', out)).
Proof.
  intros Hnext. cbv zeta. unfold Ip6Rx._phrx_ip6. cbv zeta. rewrite Hnext.
  destruct (Ip6Rx.ip6_parse_failed packet_rx).
  { eexists. eexists. split; [reflexivity|]. simpl.
    split; [reflexivity|]. split; [auto | discriminate]. }
  cbn [Ip6Rx.handler Ip6Rx.ip6_multicast Ip6Rx.packet_stats_rx Ip6Rx.with_stats].
  rewrite mem_app.
  destruct (mem _ (ip6_unicast (Ip6Rx.handler self))) eqn:Hu;
    cbn [orb negb Ip6Rx.handler Ip6Rx.ip6_multicast Ip6Rx.packet_stats_rx
         Ip6Rx.with_stats];
    destruct (mem _ (Ip6Rx.ip6_multicast self)) eqn:Hm;
    cbn [orb negb Ip6Rx.handler Ip6Rx.ip6_multicast Ip6Rx.packet_stats_rx
         Ip6Rx.with_stats].
  4:{ apply mem_not_In in Hu. apply mem_not_In in Hm.
      eexists. eexists. split; [reflexivity|]. simpl.
      split; [reflexivity|]. split; [auto | tauto]. }
  all: destruct (phrx_total Pattern Socket sockets socket_patterns now
                   (Ip6Rx.handler self) (Ip6Rx.packet packet_rx))
         as (h & o & Hrun);
    rewrite Hrun; cbn [bind];
    eexists; eexists; (split; [reflexivity|]); simpl;
    (split; [reflexivity|]); (split; [|auto]);
    (intros [Hbad | [Hbad | Hbad]];
     [ discriminate Hbad
     | exfalso; apply Hbad;
       first [ left; apply mem_In; assumption | right; apply mem_In; assumption ]
     | revert Hrun; unfold _phrx_icmp6; rewrite Hbad; intros Hrun;
       inversion Hrun; auto ]).
Qed.

Lemma icmp6_only_when_addressed_witness :
  Ip6Rx.ip6_next Sample3.ns_for_other = Ip6Rx.IP6_NEXT_ICMP6
  /\ ~ (In (rx_ip6_dst (Ip6Rx.packet Sample3.ns_for_other))
          (ip6_unicast (Ip6Rx.handler Sample3.stack))
        \/ In (rx_ip6_dst (Ip6Rx.packet Sample3.ns_for_other))
             (Ip6Rx.ip6_multicast Sample3.stack))
  /\ exists self' out,
       Ip6Rx._phrx_ip6 (Z * Z) nat Sample.sockets Sample.socket_patterns
         Sample3.idle Sample3.idle Sample3.idle 11 Sample3.stack Sample3.ns_for_other
       = Some (self', out)
       /\ Ip6Rx.handler self' = Ip6Rx.handler Sample3.stack
       /\ out = [].
Proof.
  assert (~ (In (rx_ip6_dst (Ip6Rx.packet Sample3.ns_for_other))
               (ip6_unicast (Ip6Rx.handler Sample3.stack))
             \/ In (rx_ip6_dst (Ip6Rx.packet Sample3.ns_for_other))
                  (Ip6Rx.ip6_multicast Sample3.stack))) as Hnot.
  { simpl. intros [[H|[H|[]]] | [H|[H|[]]]]; discriminate H. }
  split; [reflexivity|]. split; [exact Hnot|].
  destruct (icmp6_only_when_addressed (Z * Z) nat Sample.sockets
              Sample.socket_patterns Sample3.idle Sample3.idle Sample3.idle
              11 Sample3.stack Sample3.ns_for_other eq_refl)
    as (self' & out & Hrun & _ & Hdrop & _).
  exists self', out. split; [exact Hrun|].
  apply Hdrop. right. left. exact Hnot.
Defined.

(* ===================================================================== *)
(** * Facts about bytes *)
(* ===================================================================== *)

Module StructFacts.

Lemma byte_of_Z_to_Z z :
  0 <= z < 256 -> Z.of_N (Byte.to_N (Struct.byte_of_Z z)) = z.
Proof.
  intros Hz. unfold Struct.byte_of_Z.
  destruct (Byte.of_N (Z.to_N z)) as [b|] eqn:Hb.
  - apply Byte.to_of_N in Hb. rewrite Hb. lia.
  - apply Byte.of_N_None_iff in Hb. lia.
Qed.

Lemma byte_to_Z_bound b : 0 <= Z.of_N (Byte.to_N b) < 256.
Proof.
  pose proof (Byte.to_N_bounded b). lia.
Qed.

Lemma byte_of_Z_of_byte b : Struct.byte_of_Z (Z.of_N (Byte.to_N b)) = b.
Proof.
  unfold Struct.byte_of_Z. rewrite N2Z.id. now rewrite Byte.of_to_N.
Qed.

Lemma length_be_bytes n v : length (Struct.be_bytes n v) = n.
Proof. induction n; simpl; auto. Qed.

Lemma unpack_be_acc l acc :
  fold_left (fun a x => a * 256 + Z.of_N (Byte.to_N x)) l acc
  = acc * 2 ^ (8 * Z.of_nat (length l)) + Ip6.unpack_be l.
Proof.
  unfold Ip6.unpack_be. revert acc.
  induction l as [|b l IH]; intros acc.
  - simpl. lia.
  - cbn [fold_left length]. rewrite IH. rewrite (IH (0 * 256 + _)).
    replace (8 * Z.of_nat (S (length l))) with (8 + 8 * Z.of_nat (length l)) by lia.
    rewrite Z.pow_add_r by lia. change (2 ^ 8) with 256. ring.
Qed.

Lemma unpack_be_cons b l :
  Ip6.unpack_be (b :: l)
  = Z.of_N (Byte.to_N b) * 2 ^ (8 * Z.of_nat (length l)) + Ip6.unpack_be l.
Proof.
  unfold Ip6.unpack_be at 1. cbn [fold_left]. rewrite unpack_be_acc. ring.
Qed.

Lemma unpack_be_app l1 l2 :
  Ip6.unpack_be (l1 ++ l2)
  = Ip6.unpack_be l1 * 2 ^ (8 * Z.of_nat (length l2)) + Ip6.unpack_be l2.
Proof.
  unfold Ip6.unpack_be at 1. rewrite fold_left_app.
  fold (Ip6.unpack_be l1). apply unpack_be_acc.
Qed.

Lemma unpack_be_bound l : 0 <= Ip6.unpack_be l < 2 ^ (8 * Z.of_nat (length l)).
Proof.
  induction l as [|b l IH].
  - cbn. lia.
  - rewrite unpack_be_cons. pose proof (byte_to_Z_bound b) as Hb.
    replace (8 * Z.of_nat (length (b :: l))) with (8 + 8 * Z.of_nat (length l))
      by (cbn [length]; lia).
    rewrite Z.pow_add_r by lia. change (2 ^ 8) with 256.
    assert (0 < 2 ^ (8 * Z.of_nat (length l))) by (apply Z.pow_pos_nonneg; lia).
    nia.
Qed.

(** The byte at a position of an integer. *)
Lemma byte_at_shift v k :
  0 <= k -> Z.land (Z.shiftr v k) 0xFF = (v / 2 ^ k) mod 256.
Proof.
  intros Hk. change 0xFF with (Z.ones 8). rewrite Z.land_ones by lia.
  now rewrite Z.shiftr_div_pow2 by lia.
Qed.

Lemma unpack_be_bytes n v :
  Ip6.unpack_be (Struct.be_bytes n v) = v mod 2 ^ (8 * Z.of_nat n).
Proof.
  induction n as [|n IH].
  - cbn. now rewrite Z.mod_1_r.
  - cbn [Struct.be_bytes]. rewrite unpack_be_cons, IH, length_be_bytes.
    rewrite byte_at_shift by lia.
    rewrite byte_of_Z_to_Z by (apply Z.mod_pos_bound; lia).
    replace (8 * Z.of_nat (S n)) with (8 * Z.of_nat n + 8) by lia.
    rewrite Z.pow_add_r by lia. change (2 ^ 8) with 256.
    rewrite Z.rem_mul_r by (try apply Z.pow_nonzero; lia). lia.
Qed.

Lemma be_bytes_high n : forall v q,
  Struct.be_bytes n (v + q * 2 ^ (8 * Z.of_nat n)) = Struct.be_bytes n v.
Proof.
  induction n as [|n IH]; intros v q; [reflexivity|].
  cbn [Struct.be_bytes]. f_equal.
  - f_equal. rewrite !byte_at_shift by lia.
    replace (8 * Z.of_nat (S n)) with (8 * Z.of_nat n + 8) by lia.
    rewrite Z.pow_add_r by lia. change (2 ^ 8) with 256.
    replace (v + q * (2 ^ (8 * Z.of_nat n) * 256))
      with (v + (q * 256) * 2 ^ (8 * Z.of_nat n)) by ring.
    rewrite Z.div_add by (apply Z.pow_nonzero; lia).
    now rewrite Z.mod_add by lia.
  - replace (8 * Z.of_nat (S n)) with (8 * Z.of_nat n + 8) by lia.
    rewrite Z.pow_add_r by lia. change (2 ^ 8) with 256.
    replace (q * (2 ^ (8 * Z.of_nat n) * 256))
      with ((q * 256) * 2 ^ (8 * Z.of_nat n)) by ring.
    apply IH.
Qed.

Lemma be_bytes_unpack l : Struct.be_bytes (length l) (Ip6.unpack_be l) = l.
Proof.
  induction l as [|b l IH]; [reflexivity|].
  cbn [length Struct.be_bytes]. rewrite unpack_be_cons. f_equal.
  - rewrite byte_at_shift by lia.
    pose proof (unpack_be_bound l) as Hl. pose proof (byte_to_Z_bound b) as Hb.
    rewrite Z.div_add_l by (apply Z.pow_nonzero; lia).
    rewrite (Z.div_small (Ip6.unpack_be l)) by lia.
    rewrite Z.add_0_r, Z.mod_small by lia.
    apply byte_of_Z_of_byte.
  - rewrite Z.add_comm, be_bytes_high. exact IH.
Qed.

Lemma pack_uint_some n v :
  0 <= v < 2 ^ (8 * Z.of_nat n) -> Struct.pack_uint n v = Some (Struct.be_bytes n v).
Proof.
  intros Hv. unfold Struct.pack_uint.
  destruct (Z.leb_spec 0 v); [|lia]. destruct (Z.ltb_spec v (2 ^ (8 * Z.of_nat n))); [|lia].
  reflexivity.
Qed.

Lemma pack_uint_none n v :
  v < 0 \/ 2 ^ (8 * Z.of_nat n) <= v -> Struct.pack_uint n v = None.
Proof.
  intros Hv. unfold Struct.pack_uint.
  destruct (Z.leb_spec 0 v); [|reflexivity].
  destruct (Z.ltb_spec v (2 ^ (8 * Z.of_nat n))); [lia|reflexivity].
Qed.

End StructFacts.

(* ===================================================================== *)
(** * Further properties of the addresses *)
(* ===================================================================== *)

Lemma of_bytes_app4 b1 b2 b3 b4 :
  length b1 = 4%nat -> length b2 = 4%nat -> length b3 = 4%nat -> length b4 = 4%nat ->
  Ip6.of_bytes (b1 ++ b2 ++ b3 ++ b4)
  = Some (Z.shiftl (Ip6.unpack_be b1) 96 + Z.shiftl (Ip6.unpack_be b2) 64
          + Z.shiftl (Ip6.unpack_be b3) 32 + Ip6.unpack_be b4).
Proof.
  intros H1 H2 H3 H4.
  do 4 (destruct b1 as [|? b1]; [discriminate H1|]); destruct b1; [|discriminate H1].
  do 4 (destruct b2 as [|? b2]; [discriminate H2|]); destruct b2; [|discriminate H2].
  do 4 (destruct b3 as [|? b3]; [discriminate H3|]); destruct b3; [|discriminate H3].
  do 4 (destruct b4 as [|? b4]; [discriminate H4|]); destruct b4; [|discriminate H4].
  reflexivity.
Qed.

Lemma word_at a k :
  0 <= k -> Z.land (Z.shiftr a k) 0xFFFFFFFF = (a / 2 ^ k) mod 2 ^ 32.
Proof.
  intros Hk. change 0xFFFFFFFF with (Z.ones 32). rewrite Z.land_ones by lia.
  now rewrite Z.shiftr_div_pow2 by lia.
Qed.

Lemma words_of_int a :
  (a / 2 ^ 96) mod 2 ^ 32 * 2 ^ 96 + (a / 2 ^ 64) mod 2 ^ 32 * 2 ^ 64
  + (a / 2 ^ 32) mod 2 ^ 32 * 2 ^ 32 + a mod 2 ^ 32
  = a mod 2 ^ 128.
Proof.
  change (2 ^ 128) with (2 ^ 32 * (2 ^ 32 * (2 ^ 32 * 2 ^ 32))).
  rewrite (Z.rem_mul_r a) by lia.
  rewrite (Z.rem_mul_r (a / 2 ^ 32)) by lia.
  rewrite (Z.rem_mul_r (a / 2 ^ 32 / 2 ^ 32)) by lia.
  rewrite !Z.div_div by lia.
  change (2 ^ 32 * 2 ^ 32) with (2 ^ 64).
  change (2 ^ 64 * 2 ^ 32) with (2 ^ 96).
  change (2 ^ 96) with (2 ^ 32 * 2 ^ 64) at 2.
  lia.
Qed.

Lemma digit_high hi lo k :
  0 <= k -> 0 <= lo < 2 ^ k -> (hi * 2 ^ k + lo) / 2 ^ k = hi.
Proof.
  intros Hk Hlo. rewrite Z.div_add_l by (apply Z.pow_nonzero; lia).
  rewrite Z.div_small by lia. lia.
Qed.

Lemma word_low a : Z.land a 0xFFFFFFFF = a mod 2 ^ 32.
Proof.
  change 0xFFFFFFFF with (Z.ones 32). now rewrite Z.land_ones by lia.
Qed.

Lemma to_bytes_eq a :
  Ip6Lib.to_bytes a
  = Some (Struct.be_bytes 4 ((a / 2 ^ 96) mod 2 ^ 32)
          ++ Struct.be_bytes 4 ((a / 2 ^ 64) mod 2 ^ 32)
          ++ Struct.be_bytes 4 ((a / 2 ^ 32) mod 2 ^ 32)
          ++ Struct.be_bytes 4 (a mod 2 ^ 32)).
Proof.
  unfold Ip6Lib.to_bytes. rewrite !word_at by lia. rewrite word_low.
  rewrite !StructFacts.pack_uint_some by (apply Z.mod_pos_bound; lia).
  reflexivity.
Qed.

Lemma split16 (b : list byte) :
  length b = 16%nat ->
  exists b1 b2 b3 b4,
    b = b1 ++ b2 ++ b3 ++ b4
    /\ length b1 = 4%nat /\ length b2 = 4%nat
    /\ length b3 = 4%nat /\ length b4 = 4%nat.
Proof.
  intros Hlen.
  exists (firstn 4 b), (firstn 4 (skipn 4 b)), (firstn 4 (skipn 8 b)), (skipn 12 b).
  do 16 (destruct b as [|? b]; [discriminate Hlen|]).
  destruct b; [|discriminate Hlen].
  repeat split; reflexivity.
Qed.

(** X12.  The sixteen bytes of an address and the address of sixteen bytes
    are inverse to each other: [bytes(a)] never fails, has sixteen bytes
    and reads back as [a] for every address between 0 and 2^128 (as its
    low 128 bits otherwise), and every sixteen bytes read as an address
    between 0 and 2^128 whose bytes they are. *)
Theorem ip6_bytes_round_trip :
  (forall a,
     exists b, Ip6Lib.to_bytes a = Some b
               /\ length b = 16%nat
               /\ Ip6.of_bytes b = Some (a mod 2 ^ 128)
               /\ (0 <= a < 2 ^ 128 -> Ip6.of_bytes b = Some a))
  /\ (forall b, length b = 16%nat ->
        exists a, Ip6.of_bytes b = Some a
                  /\ 0 <= a < 2 ^ 128
                  /\ Ip6Lib.to_bytes a = Some b)
  /\ (forall b, length b <> 16%nat -> Ip6.of_bytes b = None).
Proof.
  split; [|split].
  - intros a. rewrite to_bytes_eq. eexists. split; [reflexivity|].
    assert (Ip6.of_bytes
              (Struct.be_bytes 4 ((a / 2 ^ 96) mod 2 ^ 32)
               ++ Struct.be_bytes 4 ((a / 2 ^ 64) mod 2 ^ 32)
               ++ Struct.be_bytes 4 ((a / 2 ^ 32) mod 2 ^ 32)
               ++ Struct.be_bytes 4 (a mod 2 ^ 32))
            = Some (a mod 2 ^ 128)) as Hback.
    { rewrite of_bytes_app4 by apply StructFacts.length_be_bytes.
      rewrite !StructFacts.unpack_be_bytes.
      change (2 ^ (8 * Z.of_nat 4)) with (2 ^ 32).
      rewrite !Z.mod_mod by lia. rewrite !Z.shiftl_mul_pow2 by lia.
      now rewrite words_of_int. }
    split; [|split].
    + rewrite !length_app, !StructFacts.length_be_bytes. reflexivity.
    + exact Hback.
    + intros Ha. rewrite Hback. now rewrite Z.mod_small.
  - intros b Hlen.
    destruct (split16 b Hlen) as (b1 & b2 & b3 & b4 & -> & L1 & L2 & L3 & L4).
    rewrite (of_bytes_app4 b1 b2 b3 b4 L1 L2 L3 L4).
    pose proof (StructFacts.unpack_be_bound b1) as B1.
    pose proof (StructFacts.unpack_be_bound b2) as B2.
    pose proof (StructFacts.unpack_be_bound b3) as B3.
    pose proof (StructFacts.unpack_be_bound b4) as B4.
    rewrite L1 in B1. rewrite L2 in B2. rewrite L3 in B3. rewrite L4 in B4.
    change (2 ^ (8 * Z.of_nat 4)) with (2 ^ 32) in *.
    rewrite !Z.shiftl_mul_pow2 by lia.
    set (u1 := Ip6.unpack_be b1) in *. set (u2 := Ip6.unpack_be b2) in *.
    set (u3 := Ip6.unpack_be b3) in *. set (u4 := Ip6.unpack_be b4) in *.
    eexists. split; [reflexivity|]. split; [lia|].
    rewrite to_bytes_eq.
    assert ((u1 * 2 ^ 96 + u2 * 2 ^ 64 + u3 * 2 ^ 32 + u4) / 2 ^ 96 = u1) as D1.
    { replace (u1 * 2 ^ 96 + u2 * 2 ^ 64 + u3 * 2 ^ 32 + u4)
        with (u1 * 2 ^ 96 + (u2 * 2 ^ 64 + u3 * 2 ^ 32 + u4)) by lia.
      apply digit_high; lia. }
    assert ((u1 * 2 ^ 96 + u2 * 2 ^ 64 + u3 * 2 ^ 32 + u4) / 2 ^ 64
            = u1 * 2 ^ 32 + u2) as D2.
    { replace (u1 * 2 ^ 96 + u2 * 2 ^ 64 + u3 * 2 ^ 32 + u4)
        with ((u1 * 2 ^ 32 + u2) * 2 ^ 64 + (u3 * 2 ^ 32 + u4)) by lia.
      apply digit_high; lia. }
    assert ((u1 * 2 ^ 96 + u2 * 2 ^ 64 + u3 * 2 ^ 32 + u4) / 2 ^ 32
            = (u1 * 2 ^ 64 + u2 * 2 ^ 32) + u3) as D3.
    { replace (u1 * 2 ^ 96 + u2 * 2 ^ 64 + u3 * 2 ^ 32 + u4)
        with (((u1 * 2 ^ 64 + u2 * 2 ^ 32) + u3) * 2 ^ 32 + u4) by lia.
      apply digit_high; lia. }
    rewrite D1, D2, D3.
    rewrite (Z.mod_small u1) by lia.
    rewrite (Z.add_comm (u1 * 2 ^ 32) u2), Z.mod_add by lia.
    rewrite (Z.mod_small u2) by lia.
    replace (u1 * 2 ^ 64 + u2 * 2 ^ 32 + u3)
      with (u3 + (u1 * 2 ^ 32 + u2) * 2 ^ 32) by lia.
    rewrite Z.mod_add by lia. rewrite (Z.mod_small u3) by lia.
    replace (u1 * 2 ^ 96 + u2 * 2 ^ 64 + u3 * 2 ^ 32 + u4)
      with (u4 + (u1 * 2 ^ 64 + u2 * 2 ^ 32 + u3) * 2 ^ 32) by lia.
    rewrite Z.mod_add by lia. rewrite (Z.mod_small u4) by lia.
    subst u1 u2 u3 u4.
    rewrite <- L1 at 1. rewrite <- L2 at 1. rewrite <- L3 at 1. rewrite <- L4 at 1.
    now rewrite !StructFacts.be_bytes_unpack.
  - intros b Hlen. unfold Ip6.of_bytes.
    destruct (Z.eqb_spec (Z.of_nat (length b)) 16); [lia | reflexivity].
Qed.

Lemma div_eq_iff a d q : 0 < d -> (a / d = q <-> q * d <= a < (q + 1) * d).
Proof.
  intros Hd. pose proof (Z.div_mod a d ltac:(lia)) as Hdm.
  pose proof (Z.mod_pos_bound a d Hd) as Hm. split.
  - intros <-. nia.
  - intros Hq. symmetry. apply (Z.div_unique a d q (a - q * d)); lia.
Qed.

Lemma in_prefix lo hi a k q :
  0 <= k -> lo = q * 2 ^ k -> hi = (q + 1) * 2 ^ k ->
  ((lo <=? a) && (a <? hi) = true <-> a / 2 ^ k = q).
Proof.
  intros Hk -> ->. rewrite andb_true_iff, Z.leb_le, Z.ltb_lt.
  rewrite div_eq_iff by (apply Z.pow_pos_nonneg; lia). tauto.
Qed.

(** X13.  The tests of the classes of addresses test the prefixes their
    comments name: multicast is ff00::/8, link local fe80::/10, private
    fc00::/7, global 2000::/3, solicited-node multicast ff02::1:ff00:0/104
    and loopback ::1; of loopback, global, private, link local and
    multicast at most one holds, and a solicited-node multicast address is
    multicast. *)
Theorem address_classes (a : Ip6.Ip6Address) :
  (Ip6.is_multicast a = true <-> a / 2 ^ 120 = 0xff)
  /\ (Ip6Lib.is_link_local a = true <-> a / 2 ^ 118 = 0x3fa)
  /\ (Ip6Lib.is_private a = true <-> a / 2 ^ 121 = 0x7e)
  /\ (Ip6Lib.is_global a = true <-> a / 2 ^ 125 = 1)
  /\ (Ip6.is_solicited_node_multicast a = true
      <-> a / 2 ^ 24 = 0xff0200000000000000000001ff)
  /\ (Ip6Lib.is_loopback a = true <-> a = 1)
  /\ (length (filter (fun b : bool => b)
                [Ip6Lib.is_loopback a; Ip6Lib.is_global a; Ip6Lib.is_private a;
                 Ip6Lib.is_link_local a; Ip6.is_multicast a]) <= 1)%nat
  /\ (Ip6.is_solicited_node_multicast a = true -> Ip6.is_multicast a = true).
Proof.
  split; [apply in_prefix; [lia | reflexivity | reflexivity]|].
  split; [apply in_prefix; [lia | reflexivity | reflexivity]|].
  split; [apply in_prefix; [lia | reflexivity | reflexivity]|].
  split; [apply in_prefix; [lia | reflexivity | reflexivity]|].
  split; [apply in_prefix; [lia | reflexivity | reflexivity]|].
  split; [apply Z.eqb_eq|].
  unfold Ip6Lib.is_loopback, Ip6Lib.is_global, Ip6Lib.is_private,
    Ip6Lib.is_link_local, Ip6.is_multicast, Ip6.is_solicited_node_multicast.
  split.
  - destruct (Z.eqb_spec a 1) as [->|Hne]; [vm_compute; lia|].
    destruct (Z.ltb_spec a 85070591730234615865843651857942052864).
    { destruct (Z.leb_spec 42535295865117307932921825928971026432 a);
        repeat match goal with
               | |- context [?x <=? a] =>
                   destruct (Z.leb_spec x a); [lia|]
               end; simpl; lia. }
    rewrite andb_false_r.
    destruct (Z.ltb_spec a 337623910929368631717566993311207522304).
    { destruct (Z.leb_spec 334965454937798799971759379190646833152 a);
        repeat match goal with
               | |- context [?x <=? a] =>
                   destruct (Z.leb_spec x a); [lia|]
               end; simpl; lia. }
    rewrite andb_false_r.
    destruct (Z.ltb_spec a 338620831926207318622244848606417780736).
    { destruct (Z.leb_spec 338288524927261089654018896841347694592 a);
        repeat match goal with
               | |- context [?x <=? a] =>
                   destruct (Z.leb_spec x a); [lia|]
               end; simpl; lia. }
    rewrite andb_false_r.
    destruct (_ && _); simpl; lia.
  - rewrite !andb_true_iff, !Z.leb_le, !Z.ltb_lt. lia.
Qed.

(** X14.  [multicast_mac] of a multicast address is the link-layer address
    33:33 followed by the low 32 bits of the address, and it is an
    [AssertionError] for an address that is not multicast; two multicast
    addresses share it exactly when their low 32 bits agree. *)
Theorem multicast_mac_low_32_bits (a : Ip6.Ip6Address) :
  (Ip6.is_multicast a = true ->
   exists m, Ip6Lib.multicast_mac a = Some m
             /\ m = 0x3333 * 2 ^ 32 + a mod 2 ^ 32
             /\ m / 2 ^ 32 = 0x3333
             /\ m mod 2 ^ 32 = a mod 2 ^ 32
             /\ forall a', Ip6.is_multicast a' = true ->
                  (Ip6Lib.multicast_mac a' = Some m <-> a' mod 2 ^ 32 = a mod 2 ^ 32))
  /\ (Ip6.is_multicast a = false -> Ip6Lib.multicast_mac a = None).
Proof.
  assert (forall x, Ip6.is_multicast x = true ->
            Ip6Lib.multicast_mac x = Some (0x3333 * 2 ^ 32 + x mod 2 ^ 32)) as Heq.
  { intros x Hx. unfold Ip6Lib.multicast_mac. rewrite Hx.
    change (Ip6Lib.mac_of_int 0x333300000000) with (Some 0x333300000000).
    cbn [bind]. rewrite word_low, Z.lor_comm.
    change 0x333300000000 with (Z.shiftl 0x3333 32).
    pose proof (Z.mod_pos_bound x (2 ^ 32) ltac:(lia)) as Hb.
    rewrite Ip6Facts.lor_low_shiftl by lia.
    rewrite Z.shiftl_mul_pow2 by lia.
    unfold Ip6Lib.mac_of_int.
    destruct (Z.leb_spec 0 (0x3333 * 2 ^ 32 + x mod 2 ^ 32)); [|lia].
    destruct (Z.ltb_spec (0x3333 * 2 ^ 32 + x mod 2 ^ 32) (2 ^ 48)); [|lia].
    reflexivity. }
  split.
  - intros Ha. pose proof (Z.mod_pos_bound a (2 ^ 32) ltac:(lia)) as Hb.
    eexists. split; [apply Heq; assumption|]. split; [reflexivity|].
    split; [apply digit_high; lia|]. split.
    + rewrite Z.add_comm, Z.mod_add by lia. apply Z.mod_mod. lia.
    + intros a' Ha'. rewrite (Heq a' Ha'). split.
      * intros H. apply some_inj in H. lia.
      * intros ->. reflexivity.
  - intros Ha. unfold Ip6Lib.multicast_mac. now rewrite Ha.
Qed.

(* ===================================================================== *)
(** * Facts about binary digits *)
(* ===================================================================== *)

Module BitsFacts.

Lemma int_of_bits_acc s acc :
  fold_left (fun a (b : bool) => 2 * a + (if b then 1 else 0)) s acc
  = acc * 2 ^ Z.of_nat (length s) + Ip6Lib.int_of_bits s.
Proof.
  unfold Ip6Lib.int_of_bits. revert acc.
  induction s as [|b s IH]; intros acc.
  - simpl. lia.
  - cbn [fold_left length]. rewrite IH. rewrite (IH (2 * 0 + _)).
    rewrite Nat2Z.inj_succ, Z.pow_succ_r by lia. ring.
Qed.

Lemma int_of_bits_cons b s :
  Ip6Lib.int_of_bits (b :: s)
  = (if b then 1 else 0) * 2 ^ Z.of_nat (length s) + Ip6Lib.int_of_bits s.
Proof.
  unfold Ip6Lib.int_of_bits at 1. cbn [fold_left]. rewrite int_of_bits_acc. ring.
Qed.

Lemma int_of_bits_app s1 s2 :
  Ip6Lib.int_of_bits (s1 ++ s2)
  = Ip6Lib.int_of_bits s1 * 2 ^ Z.of_nat (length s2) + Ip6Lib.int_of_bits s2.
Proof.
  unfold Ip6Lib.int_of_bits at 1. rewrite fold_left_app.
  fold (Ip6Lib.int_of_bits s1). apply int_of_bits_acc.
Qed.

Lemma int_of_ones n : Ip6Lib.int_of_bits (repeat true n) = 2 ^ Z.of_nat n - 1.
Proof.
  induction n as [|n IH]; [reflexivity|].
  cbn [repeat]. rewrite int_of_bits_cons, IH, repeat_length.
  rewrite Nat2Z.inj_succ, Z.pow_succ_r by lia. lia.
Qed.

Lemma int_of_zeros k : Ip6Lib.int_of_bits (repeat false k) = 0.
Proof.
  induction k as [|k IH]; [reflexivity|].
  cbn [repeat]. rewrite int_of_bits_cons, IH. lia.
Qed.

(** The digits of an integer read back as its low bits. *)
Lemma int_of_digits m n :
  Ip6Lib.int_of_bits (map (fun i => Z.testbit m (Z.of_nat i)) (rev (seq 0 n)))
  = m mod 2 ^ Z.of_nat n.
Proof.
  induction n as [|n IH].
  - cbn. now rewrite Z.mod_1_r.
  - rewrite seq_S, rev_app_distr. cbn [rev app map plus].
    rewrite int_of_bits_cons, IH, length_map, length_rev, length_seq.
    rewrite Nat2Z.inj_succ, Z.pow_succ_r by lia.
    rewrite (Z.mul_comm 2), Z.rem_mul_r by (try apply Z.pow_nonzero; lia).
    rewrite <- Z.testbit_spec' by lia.
    destruct (Z.testbit m (Z.of_nat n)); cbn [Z.b2z]; lia.
Qed.

Lemma no_one_zeros s :
  length (filter (fun b : bool => b) s) = 0%nat -> s = repeat false (length s).
Proof.
  induction s as [|b s IH]; [reflexivity|].
  destruct b; cbn [filter length repeat]; [discriminate|].
  intros H. now rewrite <- IH.
Qed.

Lemma filter_zeros k : filter (fun b : bool => b) (repeat false k) = [].
Proof. induction k; simpl; auto. Qed.

(** No digit 1 after the first digit 0: ones, then zeros. *)
Lemma ones_then_zeros s :
  match Ip6Lib.from_first_zero s with
  | Some rest => Nat.eqb (length (filter (fun b => b) rest)) 0
  | None => true
  end = true
  <-> exists n k, s = repeat true n ++ repeat false k.
Proof.
  split.
  - induction s as [|b s IH].
    + intros _. exists 0%nat, 0%nat. reflexivity.
    + destruct b; cbn [Ip6Lib.from_first_zero].
      * intros H. destruct (IH H) as (n & k & ->). exists (S n), k. reflexivity.
      * intros H. apply Nat.eqb_eq in H. cbn [filter] in H.
        exists 0%nat, (S (length s)). cbn [repeat app]. f_equal.
        now apply no_one_zeros.
  - intros (n & k & ->). induction n as [|n IH].
    + destruct k; [reflexivity|]. cbn [repeat app Ip6Lib.from_first_zero filter].
      now rewrite filter_zeros.
    + exact IH.
Qed.

End BitsFacts.

(* ===================================================================== *)
(** * Further properties of masks and networks *)
(* ===================================================================== *)

Lemma bit_mask_length m : length (Ip6Lib.bit_mask m) = 128%nat.
Proof.
  unfold Ip6Lib.bit_mask. now rewrite length_map, length_rev, length_seq.
Qed.

Lemma prefix_masks_checked :
  forallb (fun i =>
             Ip6Lib._validate_bits (2 ^ 128 - 2 ^ (128 - Z.of_nat i))
             && (Ip6Lib.mask_len (2 ^ 128 - 2 ^ (128 - Z.of_nat i)) =? Z.of_nat i))
    (seq 0 129) = true.
Proof. vm_compute. reflexivity. Qed.

Lemma prefix_mask_valid n :
  0 <= n <= 128 ->
  Ip6Lib._validate_bits (2 ^ 128 - 2 ^ (128 - n)) = true
  /\ Ip6Lib.mask_len (2 ^ 128 - 2 ^ (128 - n)) = n.
Proof.
  intros Hn. pose proof prefix_masks_checked as H.
  rewrite forallb_forall in H. specialize (H (Z.to_nat n)).
  rewrite Z2Nat.id in H by lia.
  rewrite andb_true_iff, Z.eqb_eq in H. apply H. apply in_seq. lia.
Qed.

Lemma valid_mask_prefix m :
  0 <= m < 2 ^ 128 -> Ip6Lib._validate_bits m = true ->
  exists n, 0 <= n <= 128 /\ m = 2 ^ 128 - 2 ^ (128 - n).
Proof.
  intros Hm Hv. unfold Ip6Lib._validate_bits in Hv.
  apply BitsFacts.ones_then_zeros in Hv. destruct Hv as (n & k & Hs).
  assert (n + k = 128)%nat as Hlen.
  { rewrite <- (bit_mask_length m), Hs, length_app, !repeat_length. reflexivity. }
  assert (m = Ip6Lib.int_of_bits (Ip6Lib.bit_mask m)) as Hval.
  { unfold Ip6Lib.bit_mask. rewrite BitsFacts.int_of_digits.
    change (2 ^ Z.of_nat 128) with (2 ^ 128). now rewrite Z.mod_small. }
  rewrite Hs, BitsFacts.int_of_bits_app, BitsFacts.int_of_ones,
    BitsFacts.int_of_zeros, repeat_length in Hval.
  exists (Z.of_nat n). split; [lia|].
  replace (128 - Z.of_nat n) with (Z.of_nat k) by lia.
  replace 128 with (Z.of_nat n + Z.of_nat k) by lia.
  rewrite Z.pow_add_r by lia. lia.
Qed.

(** X15.  A mask is accepted exactly when it is a prefix mask: for an
    integer between 0 and 2^128, [Ip6Mask] accepts it if and only if it is
    2^128 - 2^(128-n) for some n from 0 to 128, and refuses every integer
    outside that range; [Ip6Mask("/n")] is that mask for n from 0 to 128
    and is refused for a larger n; the mask it gives is accepted again as
    an integer and has n bits set. *)
Theorem ip6_mask_is_prefix_mask :
  (forall m, 0 <= m < 2 ^ 128 ->
     (Ip6Lib.mask_of_int m = Some m
      <-> exists n, 0 <= n <= 128 /\ m = 2 ^ 128 - 2 ^ (128 - n))
     /\ (Ip6Lib.mask_of_int m = Some m \/ Ip6Lib.mask_of_int m = None))
  /\ (forall m, m < 0 \/ 2 ^ 128 <= m -> Ip6Lib.mask_of_int m = None)
  /\ (forall n, 0 <= n <= 128 ->
        Ip6Lib.mask_of_prefix n = Some (2 ^ 128 - 2 ^ (128 - n))
        /\ Ip6Lib.mask_of_int (2 ^ 128 - 2 ^ (128 - n)) = Some (2 ^ 128 - 2 ^ (128 - n))
        /\ Ip6Lib.mask_len (2 ^ 128 - 2 ^ (128 - n)) = n)
  /\ (forall n, n < 0 \/ 128 < n -> Ip6Lib.mask_of_prefix n = None).
Proof.
  assert (forall m, 0 <= m < 2 ^ 128 ->
            Ip6Lib.mask_of_int m
            = if Ip6Lib._validate_bits m then Some m else None) as Hint.
  { intros m Hm. unfold Ip6Lib.mask_of_int.
    change 340282366920938463463374607431768211456 with (2 ^ 128).
    destruct (Z.leb_spec 0 m); [|lia]. destruct (Z.ltb_spec m (2 ^ 128)); [|lia].
    reflexivity. }
  assert (forall n, 0 <= n <= 128 -> 0 <= 2 ^ 128 - 2 ^ (128 - n) < 2 ^ 128) as Hrange.
  { intros n Hn.
    assert (0 < 2 ^ (128 - n)) by (apply Z.pow_pos_nonneg; lia).
    assert (2 ^ (128 - n) <= 2 ^ 128) by (apply Z.pow_le_mono_r; lia).
    lia. }
  split; [|split; [|split]].
  - intros m Hm. rewrite (Hint m Hm). split.
    + split.
      * destruct (Ip6Lib._validate_bits m) eqn:Hv; [|discriminate].
        intros _. now apply valid_mask_prefix.
      * intros (n & Hn & ->). now rewrite (proj1 (prefix_mask_valid n Hn)).
    + destruct (Ip6Lib._validate_bits m); auto.
  - intros m Hm. unfold Ip6Lib.mask_of_int.
    change 340282366920938463463374607431768211456 with (2 ^ 128).
    destruct (Z.leb_spec 0 m); [|reflexivity].
    destruct (Z.ltb_spec m (2 ^ 128)); [lia | reflexivity].
  - intros n Hn. destruct (prefix_mask_valid n Hn) as [Hv Hl].
    split; [|split; [|exact Hl]].
    + unfold Ip6Lib.mask_of_prefix.
      destruct (Z.leb_spec 0 n); [|lia]. destruct (Z.ltb_spec n 129); [|lia].
      cbn [andb]. f_equal.
      rewrite BitsFacts.int_of_bits_app, BitsFacts.int_of_ones,
        BitsFacts.int_of_zeros, repeat_length.
      rewrite !Z2Nat.id by lia.
      replace (2 ^ 128) with (2 ^ (n + (128 - n))) by (f_equal; lia).
      rewrite Z.pow_add_r by lia. lia.
    + rewrite (Hint _ (Hrange n Hn)), Hv. reflexivity.
  - intros n Hn. unfold Ip6Lib.mask_of_prefix.
    destruct (Z.leb_spec 0 n); [|reflexivity].
    destruct (Z.ltb_spec n 129); [lia | reflexivity].
Qed.

Lemma land_shifted_ones a j k :
  0 <= j -> 0 <= k ->
  Z.land a (Z.shiftl (Z.ones j) k) = Z.shiftl (Z.land (Z.shiftr a k) (Z.ones j)) k.
Proof.
  intros Hj Hk. apply Z.bits_inj'. intros i Hi.
  rewrite Z.land_spec. destruct (Z.lt_ge_cases i k) as [Hlt|Hge].
  - rewrite !Z.shiftl_spec_low by assumption. apply andb_false_r.
  - rewrite !Z.shiftl_spec_high by lia.
    rewrite Z.land_spec, Z.shiftr_spec by lia.
    now replace (i - k + k) with i by lia.
Qed.

Lemma prefix_mask_shifted_ones k :
  0 <= k <= 128 -> 2 ^ 128 - 2 ^ k = Z.shiftl (Z.ones (128 - k)) k.
Proof.
  intros Hk. rewrite Z.shiftl_mul_pow2, Z.ones_equiv by lia.
  replace (2 ^ 128) with (2 ^ ((128 - k) + k)) by (f_equal; lia).
  rewrite Z.pow_add_r by lia. lia.
Qed.

(** An address under a prefix mask keeps its high bits and loses the low
    ones. *)
Lemma land_prefix_mask a k :
  0 <= a < 2 ^ 128 -> 0 <= k <= 128 ->
  Z.land a (2 ^ 128 - 2 ^ k) = a / 2 ^ k * 2 ^ k.
Proof.
  intros Ha Hk. rewrite prefix_mask_shifted_ones by assumption.
  rewrite land_shifted_ones by lia.
  rewrite Z.land_ones, Z.shiftr_div_pow2, Z.shiftl_mul_pow2 by lia.
  rewrite Z.mod_small; [reflexivity|]. split.
  - apply Z.div_pos; [lia | apply Z.pow_pos_nonneg; lia].
  - apply Z.div_lt_upper_bound; [apply Z.pow_pos_nonneg; lia|].
    rewrite <- Z.pow_add_r by lia. replace (k + (128 - k)) with 128 by lia. lia.
Qed.

Lemma lnot_low_128 m :
  0 <= m < 2 ^ 128 ->
  Z.land (Z.lnot m) 0xFFFFFFFFFFFFFFFFFFFFFFFFFFFFFFFF = 2 ^ 128 - 1 - m.
Proof.
  intros Hm. change 0xFFFFFFFFFFFFFFFFFFFFFFFFFFFFFFFF with (Z.ones 128).
  rewrite Z.land_ones by lia. unfold Z.lnot.
  symmetry. apply (Z.mod_unique (Z.pred (- m)) (2 ^ 128) (-1)); lia.
Qed.

Lemma floor_bounds a k :
  0 <= a < 2 ^ 128 -> 0 <= k <= 128 ->
  0 <= a / 2 ^ k * 2 ^ k <= a /\ a / 2 ^ k * 2 ^ k + 2 ^ k <= 2 ^ 128
  /\ (a / 2 ^ k * 2 ^ k) mod 2 ^ k = 0.
Proof.
  intros Ha Hk.
  assert (0 < 2 ^ k) as Hp by (apply Z.pow_pos_nonneg; lia).
  pose proof (Z.div_mod a (2 ^ k) ltac:(lia)) as Hdm.
  pose proof (Z.mod_pos_bound a (2 ^ k) Hp) as Hmod.
  assert (0 <= a / 2 ^ k) by (apply Z.div_pos; lia).
  assert (a / 2 ^ k < 2 ^ (128 - k)) as Hq.
  { apply Z.div_lt_upper_bound; [lia|].
    rewrite <- Z.pow_add_r by lia. replace (k + (128 - k)) with 128 by lia. lia. }
  assert (2 ^ 128 = 2 ^ (128 - k) * 2 ^ k) as Hsplit.
  { rewrite <- Z.pow_add_r by lia. f_equal. lia. }
  split; [nia|]. split; [nia|]. apply Z.mod_mul. lia.
Qed.

(** X16.  The network of an address under the mask of [n] bits is the
    address with its low 128 - n bits cleared, and its [last] address has
    them all set.  Both go through the constructor of addresses, which
    refuses the address of all ones: [last] is an error exactly for the
    networks that reach the top of the address space, and the network
    itself is an error only for the address of all ones under the mask of
    128 bits. *)
Theorem network_and_last (a n : Z) :
  0 <= a < 2 ^ 128 -> 0 <= n <= 128 ->
  let mask := 2 ^ 128 - 2 ^ (128 - n) in
  let base := a / 2 ^ (128 - n) * 2 ^ (128 - n) in
  let net := {| Ip6.net_address := base; Ip6.net_mask := mask |} in
  (Ip6Lib.network_init a mask = Some net <-> base <> 2 ^ 128 - 1)
  /\ (base = 2 ^ 128 - 1 -> Ip6Lib.network_init a mask = None /\ n = 128)
  /\ Ip6.last_int net = base + 2 ^ (128 - n) - 1
  /\ base <= a <= Ip6.last_int net
  /\ (Ip6.last net = Some (base + 2 ^ (128 - n) - 1)
      <-> base + 2 ^ (128 - n) < 2 ^ 128)
  /\ (base + 2 ^ (128 - n) = 2 ^ 128 -> Ip6.last net = None).
Proof.
  intros Ha Hn. cbv zeta.
  set (k := 128 - n). assert (0 <= k <= 128) as Hk by lia.
  destruct (floor_bounds a k Ha Hk) as (Hbase & Htop & _).
  assert (0 < 2 ^ k) as Hp by (apply Z.pow_pos_nonneg; lia).
  assert (2 ^ k <= 2 ^ 128) as Hle by (apply Z.pow_le_mono_r; lia).
  pose proof (Z.div_mod a (2 ^ k) ltac:(lia)) as Hdm.
  pose proof (Z.mod_pos_bound a (2 ^ k) Hp) as Hmod.
  assert (Ip6.last_int {| Ip6.net_address := a / 2 ^ k * 2 ^ k;
                          Ip6.net_mask := 2 ^ 128 - 2 ^ k |}
          = a / 2 ^ k * 2 ^ k + 2 ^ k - 1) as Hlast.
  { unfold Ip6.last_int. cbn [Ip6.net_address Ip6.net_mask].
    rewrite lnot_low_128 by lia. lia. }
  assert (forall x, Ip6.of_int x
                    = if (0 <=? x) && (x <? 2 ^ 128 - 1) then Some x else None)
    as Hof by reflexivity.
  split; [|split; [|split; [|split; [|split]]]].
  - unfold Ip6Lib.network_init. rewrite land_prefix_mask, Hof by assumption.
    destruct (Z.leb_spec 0 (a / 2 ^ k * 2 ^ k)); [|lia].
    destruct (Z.ltb_spec (a / 2 ^ k * 2 ^ k) (2 ^ 128 - 1)); cbn [andb bind].
    + split; [lia | reflexivity].
    + split; [discriminate | lia].
  - intros Hall. split.
    + unfold Ip6Lib.network_init. rewrite land_prefix_mask, Hof by assumption.
      destruct (Z.ltb_spec (a / 2 ^ k * 2 ^ k) (2 ^ 128 - 1)); [lia|].
      now rewrite andb_false_r.
    + assert (2 ^ k = 1) as Hone by lia.
      destruct (Z.eq_dec k 0) as [Hz|Hnz]; [lia|].
      assert (2 ^ 1 <= 2 ^ k) by (apply Z.pow_le_mono_r; lia).
      change (2 ^ 1) with 2 in *. lia.
  - exact Hlast.
  - rewrite Hlast. lia.
  - unfold Ip6.last. rewrite Hlast, Hof.
    destruct (Z.leb_spec 0 (a / 2 ^ k * 2 ^ k + 2 ^ k - 1)); [|lia].
    destruct (Z.ltb_spec (a / 2 ^ k * 2 ^ k + 2 ^ k - 1) (2 ^ 128 - 1)); cbn [andb].
    + split; [lia | reflexivity].
    + split; [discriminate | lia].
  - intros Hall. unfold Ip6.last. rewrite Hlast, Hof.
    destruct (Z.ltb_spec (a / 2 ^ k * 2 ^ k + 2 ^ k - 1) (2 ^ 128 - 1)); [lia|].
    now rewrite andb_false_r.
Qed.

Lemma network_and_last_witness :
  0 <= 0xff020000000000000000000000000001 < 2 ^ 128
  /\ 0 <= 8 <= 128
  /\ Ip6.last
       {| Ip6.net_address :=
            0xff020000000000000000000000000001 / 2 ^ (128 - 8) * 2 ^ (128 - 8);
          Ip6.net_mask := 2 ^ 128 - 2 ^ (128 - 8) |} = None.
Proof.
  split; [lia|]. split; [lia|].
  apply (network_and_last 0xff020000000000000000000000000001 8); [lia | lia |].
  vm_compute. reflexivity.
Defined.

(** * Properties of [eui64] *)

Lemma testbit_above x n i :
  0 <= n -> 0 <= x < 2 ^ n -> n <= i -> Z.testbit x i = false.
Proof.
  intros Hn Hx Hi. rewrite <- (Z.mod_small x (2 ^ n)) by lia.
  apply Z.mod_pow2_bits_high. lia.
Qed.

Lemma lxor_high x p q n :
  0 <= n -> 0 <= x < 2 ^ n ->
  Z.lxor (Z.shiftl p n + x) (Z.shiftl q n) = Z.shiftl (Z.lxor p q) n + x.
Proof.
  intros Hn Hx. rewrite <- !(Ip6Facts.lor_low_shiftl x _ n) by assumption.
  apply Z.bits_inj'. intros i Hi.
  rewrite Z.lxor_spec, !Z.lor_spec.
  destruct (Z.lt_ge_cases i n) as [Hlt|Hge].
  - rewrite !Z.shiftl_spec_low by assumption.
    now rewrite !orb_false_r, xorb_false_r.
  - rewrite (testbit_above x n i) by lia.
    rewrite !Z.shiftl_spec_high by lia. now rewrite Z.lxor_spec.
Qed.

Lemma lxor_bound a b n :
  0 <= n -> 0 <= a < 2 ^ n -> 0 <= b < 2 ^ n -> 0 <= Z.lxor a b < 2 ^ n.
Proof.
  intros Hn Ha Hb.
  assert (Z.lxor a b = Z.lxor a b mod 2 ^ n) as Hmod.
  { rewrite <- Z.land_ones by lia. apply Z.bits_inj'. intros i Hi.
    rewrite Z.land_spec, Z.lxor_spec.
    destruct (Z.lt_ge_cases i n) as [Hlt|Hge].
    - rewrite Z.ones_spec_low by lia. now rewrite andb_true_r.
    - rewrite (testbit_above a n i), (testbit_above b n i) by lia. reflexivity. }
  rewrite Hmod. apply Z.mod_pos_bound. apply Z.pow_pos_nonneg; lia.
Qed.

Lemma halves_of_mac mac :
  0 <= mac < 2 ^ 48 ->
  0 <= mac / 2 ^ 24 < 2 ^ 24 /\ 0 <= mac mod 2 ^ 24 < 2 ^ 24
  /\ mac = mac / 2 ^ 24 * 2 ^ 24 + mac mod 2 ^ 24.
Proof.
  intros Hmac.
  pose proof (Z.div_mod mac (2 ^ 24) ltac:(lia)) as Hdm.
  pose proof (Z.mod_pos_bound mac (2 ^ 24) ltac:(lia)) as Hm.
  split; [|split; [exact Hm | lia]].
  split; [apply Z.div_pos; lia | apply Z.div_lt_upper_bound; lia].
Qed.

(** The interface identifier, as a sum of its three fields. *)
Lemma interface_id_eq mac :
  0 <= mac < 2 ^ 48 ->
  Ip6Lib.interface_id mac
  = Z.lxor (mac / 2 ^ 24) 0x020000 * 2 ^ 40 + 0xFFFE * 2 ^ 24 + mac mod 2 ^ 24.
Proof.
  intros Hmac. destruct (halves_of_mac mac Hmac) as (Houi & Hnic & _).
  unfold Ip6Lib.interface_id.
  change 0xFFFFFF000000 with (Z.shiftl (Z.ones 24) 24).
  change 0xFFFFFF with (Z.ones 24).
  change 0xFFFE000000 with (Z.shiftl 0xFFFE 24).
  change 0x0200000000000000 with (Z.shiftl 0x020000 40).
  rewrite land_shifted_ones by lia.
  rewrite !Z.land_ones, Z.shiftr_div_pow2 by lia.
  rewrite (Z.mod_small (mac / 2 ^ 24)) by assumption.
  rewrite Z.shiftl_shiftl by lia. change (24 + 16) with 40.
  rewrite <- Z.lor_assoc.
  rewrite (Ip6Facts.lor_low_shiftl (mac mod 2 ^ 24) 0xFFFE 24) by lia.
  rewrite Z.lor_comm.
  assert (0 <= Z.shiftl 0xFFFE 24 + mac mod 2 ^ 24 < 2 ^ 40) as Hlow.
  { rewrite Z.shiftl_mul_pow2 by lia. lia. }
  rewrite Ip6Facts.lor_low_shiftl by (lia || exact Hlow).
  rewrite lxor_high by (lia || exact Hlow).
  rewrite !Z.shiftl_mul_pow2 by lia. lia.
Qed.

Lemma interface_id_bound mac :
  0 <= mac < 2 ^ 48 -> 0 <= Ip6Lib.interface_id mac < 2 ^ 64 - 1.
Proof.
  intros Hmac. rewrite interface_id_eq by assumption.
  destruct (halves_of_mac mac Hmac) as (Houi & Hnic & _).
  pose proof (lxor_bound (mac / 2 ^ 24) 0x020000 24 ltac:(lia) Houi ltac:(lia)).
  lia.
Qed.

Lemma lxor_twice a c : Z.lxor (Z.lxor a c) c = a.
Proof. now rewrite Z.lxor_assoc, Z.lxor_nilpotent, Z.lxor_0_r. Qed.

(** X17.  [eui64] of a network of 64 bits and a link-layer address of 48
    bits is the host whose address is the address of the network plus the
    interface identifier, with that same network and no gateway; the
    address lies between the address of the network and the last integer
    of the network, and the test [in] of the network says so, except for
    the network that ends at the address of all ones, for which the test
    ends in the exception of [last].  The identifier has the first three
    bytes of the link-layer address, with the bit 0x02 of the first byte
    inverted, in its top 24 bits, then 0xFFFE, then the last three bytes;
    two link-layer addresses with the same identifier are equal.  For a
    network whose mask is not 64 bits long the assertion fails. *)
Theorem eui64_host (base mac : Z) :
  0 <= base < 2 ^ 128 -> base mod 2 ^ 64 = 0 -> 0 <= mac < 2 ^ 48 ->
  let n := {| Ip6.net_address := base; Ip6.net_mask := 2 ^ 128 - 2 ^ 64 |} in
  let iid := Ip6Lib.interface_id mac in
  iid = Z.lxor (mac / 2 ^ 24) 0x020000 * 2 ^ 40 + 0xFFFE * 2 ^ 24 + mac mod 2 ^ 24
  /\ 0 <= iid < 2 ^ 64
  /\ Ip6Lib.eui64 n mac
     = Some {| Ip6.address := base + iid; Ip6.network := n; Ip6.gateway := None |}
  /\ base <= base + iid <= Ip6.last_int n
  /\ (base + 2 ^ 64 < 2 ^ 128 -> Ip6.contains n (base + iid) = Some true)
  /\ (base + 2 ^ 64 = 2 ^ 128 -> Ip6.contains n (base + iid) = None)
  /\ (forall mac', 0 <= mac' < 2 ^ 48 ->
        Ip6Lib.interface_id mac' = Ip6Lib.interface_id mac -> mac' = mac)
  /\ (forall m, Ip6Lib.mask_len m <> 64 ->
        Ip6Lib.eui64 {| Ip6.net_address := base; Ip6.net_mask := m |} mac = None).
Proof.
  intros Hbase Hmod Hmac. cbv zeta.
  pose proof (interface_id_eq mac Hmac) as Hiid.
  pose proof (interface_id_bound mac Hmac) as Hbound.
  pose proof (Z.div_mod base (2 ^ 64) ltac:(lia)) as Hdm.
  assert (forall x, Ip6.of_int x
                    = if (0 <=? x) && (x <? 2 ^ 128 - 1) then Some x else None)
    as Hof by reflexivity.
  set (iid := Ip6Lib.interface_id mac) in *.
  assert ((base + iid) / 2 ^ 64 * 2 ^ 64 = base) as Hfloor.
  { pose proof (Z.div_mod (base + iid) (2 ^ 64) ltac:(lia)) as Hdm'.
    pose proof (Z.mod_pos_bound (base + iid) (2 ^ 64) ltac:(lia)). lia. }
  assert (Ip6.last_int {| Ip6.net_address := base;
                          Ip6.net_mask := 2 ^ 128 - 2 ^ 64 |}
          = base + 2 ^ 64 - 1) as Hlast.
  { unfold Ip6.last_int. cbn [Ip6.net_mask Ip6.net_address].
    rewrite lnot_low_128 by lia. lia. }
  split; [exact Hiid|]. split; [lia|].
  split; [|split; [|split; [|split; [|split]]]].
  - unfold Ip6Lib.eui64. cbn [Ip6.net_mask Ip6.net_address].
    assert (Ip6Lib.mask_len (2 ^ 128 - 2 ^ 64) = 64) as Hlen
      by (vm_compute; reflexivity).
    assert (Ip6Lib.mask_of_prefix 64 = Some (2 ^ 128 - 2 ^ 64)) as Hpre
      by (vm_compute; reflexivity).
    rewrite Hlen, Hpre. change (64 =? 64) with true. cbv iota. fold iid.
    assert (Z.lor base iid = base + iid) as Hlor.
    { rewrite Z.lor_comm.
      pose proof (Ip6Facts.lor_low_shiftl iid (base / 2 ^ 64) 64 ltac:(lia)
                    ltac:(lia)) as Hl.
      rewrite Z.shiftl_mul_pow2 in Hl by lia.
      replace (base / 2 ^ 64 * 2 ^ 64) with base in Hl by lia. lia. }
    rewrite Hlor, Hof.
    destruct (Z.leb_spec 0 (base + iid)); [|lia].
    destruct (Z.ltb_spec (base + iid) (2 ^ 128 - 1)); [|lia].
    cbn [andb bind].
    unfold Ip6Lib.host_init, Ip6Lib.network_init.
    rewrite (land_prefix_mask (base + iid) 64) by lia.
    rewrite Hfloor, Hof.
    destruct (Z.leb_spec 0 base); [|lia].
    destruct (Z.ltb_spec base (2 ^ 128 - 1)); [|lia].
    reflexivity.
  - rewrite Hlast. lia.
  - intros Hbelow. unfold Ip6.contains, Ip6.last. rewrite Hlast, Hof.
    cbn [Ip6.net_address].
    destruct (Z.leb_spec 0 (base + 2 ^ 64 - 1)); [|lia].
    destruct (Z.ltb_spec (base + 2 ^ 64 - 1) (2 ^ 128 - 1)); [|lia].
    cbn [andb]. f_equal.
    apply andb_true_intro. split; apply Z.leb_le; lia.
  - intros Htop. unfold Ip6.contains, Ip6.last. rewrite Hlast, Hof.
    destruct (Z.ltb_spec (base + 2 ^ 64 - 1) (2 ^ 128 - 1)); [lia|].
    now rewrite andb_false_r.
  - intros mac' Hmac' Heq.
    rewrite (interface_id_eq mac' Hmac') in Heq. fold iid in Heq.
    rewrite Hiid in Heq.
    destruct (halves_of_mac mac Hmac) as (Houi & Hnic & Hsplit).
    destruct (halves_of_mac mac' Hmac') as (Houi' & Hnic' & Hsplit').
    pose proof (lxor_bound (mac / 2 ^ 24) 0x020000 24 ltac:(lia) Houi ltac:(lia))
      as Hx.
    pose proof (lxor_bound (mac' / 2 ^ 24) 0x020000 24 ltac:(lia) Houi'
                  ltac:(lia)) as Hx'.
    assert (Z.lxor (mac' / 2 ^ 24) 0x020000 = Z.lxor (mac / 2 ^ 24) 0x020000
            /\ mac' mod 2 ^ 24 = mac mod 2 ^ 24) as [Hhigh Hlow] by lia.
    assert (mac' / 2 ^ 24 = mac / 2 ^ 24) as Hoeq.
    { rewrite <- (lxor_twice (mac' / 2 ^ 24) 0x020000), Hhigh.
      apply lxor_twice. }
    lia.
  - intros m Hm. unfold Ip6Lib.eui64. cbn [Ip6.net_mask].
    destruct (Z.eqb_spec (Ip6Lib.mask_len m) 64); [contradiction | reflexivity].
Qed.

Lemma eui64_host_witness :
  0 <= 0xfe800000000000000000000000000000 < 2 ^ 128
  /\ 0xfe800000000000000000000000000000 mod 2 ^ 64 = 0
  /\ 0 <= 0x0050569a0b1c < 2 ^ 48
  /\ Ip6.contains
       {| Ip6.net_address := 0xfe800000000000000000000000000000;
          Ip6.net_mask := 2 ^ 128 - 2 ^ 64 |}
       (0xfe800000000000000000000000000000
        + Ip6Lib.interface_id 0x0050569a0b1c) = Some true.
Proof.
  split; [lia|]. split; [reflexivity|]. split; [lia|].
  apply (eui64_host 0xfe800000000000000000000000000000 0x0050569a0b1c);
    [lia | reflexivity | lia | lia].
Defined.

(* ===================================================================== *)
(** * Properties of the TCP assembler *)
(* ===================================================================== *)

Lemma pack_uint_inv n v b :
  Struct.pack_uint n v = Some b ->
  0 <= v < 2 ^ (8 * Z.of_nat n) /\ b = Struct.be_bytes n v.
Proof.
  unfold Struct.pack_uint. intros H.
  destruct (Z.leb_spec 0 v); [|discriminate H].
  destruct (Z.ltb_spec v (2 ^ (8 * Z.of_nat n))); [|discriminate H].
  cbn [andb] in H. apply some_inj in H. split; [lia | congruence].
Qed.

Lemma firstn_length_app {A} (l1 l2 : list A) : firstn (length l1) (l1 ++ l2) = l1.
Proof. induction l1 as [|a l1 IH]; [reflexivity|]. cbn. now rewrite IH. Qed.

Lemma skipn_length_app {A} (l1 l2 : list A) : skipn (length l1) (l1 ++ l2) = l2.
Proof. induction l1 as [|a l1 IH]; [reflexivity|]. exact IH. Qed.

Ltac bind_inv H :=
  match type of H with
  | bind ?m _ = Some _ =>
      let b := fresh "b" in
      let E := fresh "E" in
      destruct m as [b|] eqn:E; [cbn [bind] in H | discriminate H]
  end.

Ltac explode l Hl :=
  repeat (destruct l as [|? l]; cbn [length] in Hl; try discriminate Hl).

Module TcpFacts.
Section Facts.

Variable ps : Tcp.Ps.
Variable inet_cksum : list byte -> Z -> Z.

Lemma raw_option_inv o r :
  Tcp.raw_option ps o = Some r -> Tcp.opt_fits ps o /\ length r = Tcp.raw_len o.
Proof.
  unfold Tcp.is_byte.
  destruct o; cbn [Tcp.raw_option Tcp.opt_fits Tcp.raw_len Tcp.is_byte]; intros H;
    repeat bind_inv H;
    repeat match goal with
           | E : Struct.pack_uint _ _ = Some _ |- _ =>
               apply pack_uint_inv in E; destruct E as [? ?]
           end;
    try (apply some_inj in H); subst;
    rewrite ?length_app, ?StructFacts.length_be_bytes;
    unfold Tcp.is_byte; (split; [|reflexivity]);
    repeat split; lia.
Qed.

Lemma raw_option_some o :
  Tcp.opt_fits ps o -> exists r, Tcp.raw_option ps o = Some r.
Proof.
  destruct o; cbn [Tcp.raw_option Tcp.opt_fits]; unfold Tcp.is_byte; intros H;
    rewrite ?StructFacts.pack_uint_some by (cbn [Z.of_nat]; lia);
    cbn [bind]; eexists; reflexivity.
Qed.

Lemma raw_options_loop_inv options : forall acc out,
  Tcp.raw_options_loop ps options acc = Some out ->
  Forall (Tcp.opt_fits ps) options
  /\ exists r, out = acc ++ r /\ length r = Tcp.raw_lens options.
Proof.
  induction options as [|o rest IH]; intros acc out H.
  - cbn in H. apply some_inj in H. subst.
    split; [constructor|]. exists []. now rewrite app_nil_r.
  - cbn [Tcp.raw_options_loop] in H. bind_inv H.
    apply raw_option_inv in E. destruct E as [Hfit Hlen].
    destruct (IH _ _ H) as (Hall & r & Hout & Hr).
    split; [now constructor|].
    exists (b ++ r). rewrite Hout, app_assoc. split; [reflexivity|].
    rewrite length_app, Hlen, Hr. reflexivity.
Qed.

Lemma raw_options_loop_some options : forall acc,
  Forall (Tcp.opt_fits ps) options ->
  exists out, Tcp.raw_options_loop ps options acc = Some out.
Proof.
  induction options as [|o rest IH]; intros acc Hall.
  - eexists. reflexivity.
  - inversion Hall as [|? ? Ho Hrest]; subst.
    destruct (raw_option_some o Ho) as [r Hr].
    cbn [Tcp.raw_options_loop]. rewrite Hr. cbn [bind]. now apply IH.
Qed.

Lemma raw_options_inv self raw :
  Tcp._raw_options ps self = Some raw ->
  Forall (Tcp.opt_fits ps) (Tcp._options self)
  /\ length raw = Tcp.raw_lens (Tcp._options self).
Proof.
  intros H. apply raw_options_loop_inv in H.
  destruct H as (Hall & r & Hout & Hr). cbn [app] in Hout. now subst.
Qed.

Lemma int_of_bool_bound b : 0 <= Tcp.int_of_bool b < 2.
Proof. destruct b; cbn; lia. Qed.

Lemma offset_byte_eq self :
  Tcp.offset_byte self = 4 * Tcp._hlen self + Tcp.int_of_bool (Tcp._flag_ns self).
Proof.
  unfold Tcp.offset_byte. pose proof (int_of_bool_bound (Tcp._flag_ns self)).
  rewrite Z.lor_comm, Ip6Facts.lor_low_shiftl by lia.
  rewrite Z.shiftl_mul_pow2 by lia. lia.
Qed.

Lemma flags_byte_bound self : 0 <= Tcp.flags_byte self < 2 ^ 8.
Proof.
  unfold Tcp.flags_byte.
  destruct (Tcp._flag_crw self), (Tcp._flag_ece self), (Tcp._flag_urg self),
    (Tcp._flag_ack self), (Tcp._flag_psh self), (Tcp._flag_rst self),
    (Tcp._flag_syn self), (Tcp._flag_fin self); vm_compute; split; congruence.
Qed.

Lemma flags_byte_bits self :
  Z.testbit (Tcp.flags_byte self) 7 = Tcp._flag_crw self
  /\ Z.testbit (Tcp.flags_byte self) 6 = Tcp._flag_ece self
  /\ Z.testbit (Tcp.flags_byte self) 5 = Tcp._flag_urg self
  /\ Z.testbit (Tcp.flags_byte self) 4 = Tcp._flag_ack self
  /\ Z.testbit (Tcp.flags_byte self) 3 = Tcp._flag_psh self
  /\ Z.testbit (Tcp.flags_byte self) 2 = Tcp._flag_rst self
  /\ Z.testbit (Tcp.flags_byte self) 1 = Tcp._flag_syn self
  /\ Z.testbit (Tcp.flags_byte self) 0 = Tcp._flag_fin self.
Proof.
  unfold Tcp.flags_byte.
  destruct (Tcp._flag_crw self), (Tcp._flag_ece self), (Tcp._flag_urg self),
    (Tcp._flag_ack self), (Tcp._flag_psh self), (Tcp._flag_rst self),
    (Tcp._flag_syn self), (Tcp._flag_fin self); vm_compute; repeat split.
Qed.

Lemma length_header self : length (Tcp.header self) = 20%nat.
Proof.
  unfold Tcp.header. rewrite !length_app, !StructFacts.length_be_bytes. reflexivity.
Qed.

(** What [assemble] computes when it ends without an exception. *)
Lemma assemble_inv self frame pshdr_sum frame' :
  Tcp.assemble ps inet_cksum self frame pshdr_sum = Some frame' ->
  exists raw frame1,
    Tcp._raw_options ps self = Some raw
    /\ Tcp.fields_fit self
    /\ 0 <= Tcp.offset_byte self < 2 ^ 8
    /\ (20 + length raw + length (Tcp._data self) <= length frame)%nat
    /\ frame1 = Tcp.header self ++ raw ++ Tcp._data self
                ++ skipn (20 + length raw + length (Tcp._data self)) frame
    /\ 0 <= inet_cksum frame1 pshdr_sum < 2 ^ 16
    /\ frame' = firstn 16 frame1
                ++ Struct.be_bytes 2 (inet_cksum frame1 pshdr_sum)
                ++ skipn 18 frame1.
Proof.
  unfold Tcp.assemble. intros H.
  bind_inv H. rename b into raw, E into Eraw.
  do 9 bind_inv H.
  repeat match goal with
         | E : Struct.pack_uint _ _ = Some _ |- _ =>
             apply pack_uint_inv in E; destruct E as [? ?]
         end.
  subst.
  fold (Tcp.header self) in H.
  assert (Struct.be_bytes 2 (Tcp._sport self) ++ Struct.be_bytes 2 (Tcp._dport self)
          ++ Struct.be_bytes 4 (Tcp._seq self) ++ Struct.be_bytes 4 (Tcp._ack self)
          ++ Struct.be_bytes 1 (Tcp.offset_byte self)
          ++ Struct.be_bytes 1 (Tcp.flags_byte self)
          ++ Struct.be_bytes 2 (Tcp._win self) ++ Struct.be_bytes 2 0
          ++ Struct.be_bytes 2 (Tcp._urp self) ++ raw ++ Tcp._data self
          = Tcp.header self ++ raw ++ Tcp._data self) as Hpacked.
  { unfold Tcp.header. now rewrite <- !app_assoc. }
  rewrite Hpacked in H. clear Hpacked.
  unfold Struct.pack_into in H at 1.
  rewrite !length_app, length_header, !Nat.add_0_l in H.
  destruct (Nat.leb_spec
              (20 + (length raw + length (Tcp._data self)))
              (length frame)) as [Hlen|Hlen];
    [cbn [bind firstn app] in H | discriminate H].
  bind_inv H. apply pack_uint_inv in E. destruct E as [Hck ->].
  unfold Struct.pack_into in H.
  rewrite StructFacts.length_be_bytes in H.
  match type of H with
  | (if ?c then _ else _) = _ => destruct c; [|discriminate H]
  end.
  apply some_inj in H.
  rewrite <- !app_assoc in H, Hck.
  replace (20 + (length raw + length (Tcp._data self)))%nat
    with (20 + length raw + length (Tcp._data self))%nat in H, Hck, Hlen by lia.
  exists raw.
  exists (Tcp.header self ++ raw ++ Tcp._data self
          ++ skipn (20 + length raw + length (Tcp._data self)) frame).
  split; [reflexivity|].
  split; [unfold Tcp.fields_fit; cbn [Z.of_nat] in *; lia|].
  split; [cbn [Z.of_nat] in *; lia|].
  split; [exact Hlen|].
  split; [reflexivity|].
  split; [cbn [Z.of_nat] in Hck; lia|].
  symmetry. exact H.
Qed.

(** When [assemble] ends without an exception. *)
Lemma assemble_some self frame pshdr_sum :
  (forall f s, 0 <= inet_cksum f s < 2 ^ 16) ->
  Forall (Tcp.opt_fits ps) (Tcp._options self) ->
  Tcp.fields_fit self ->
  0 <= Tcp.offset_byte self < 2 ^ 8 ->
  (20 + Tcp.raw_lens (Tcp._options self) + length (Tcp._data self)
   <= length frame)%nat ->
  exists frame', Tcp.assemble ps inet_cksum self frame pshdr_sum = Some frame'.
Proof.
  intros Hck Hopts Hfit Hoff Hlen.
  destruct (raw_options_loop_some (Tcp._options self) [] Hopts) as [raw Hraw].
  fold (Tcp._raw_options ps self) in Hraw.
  destruct (raw_options_inv self raw Hraw) as [_ Hrawlen].
  pose proof (flags_byte_bound self) as Hflags.
  unfold Tcp.fields_fit in Hfit.
  unfold Tcp.assemble. rewrite Hraw. cbn [bind].
  rewrite !StructFacts.pack_uint_some by (cbn [Z.of_nat]; lia).
  cbn [bind].
  unfold Struct.pack_into at 1.
  rewrite !length_app, !StructFacts.length_be_bytes, Hrawlen.
  destruct (Nat.leb_spec
              (0 + (2 + (2 + (4 + (4 + (1 + (1 + (2 + (2 + (2
                 + (Tcp.raw_lens (Tcp._options self)
                    + length (Tcp._data self))))))))))))
              (length frame)) as [Hle|Hgt]; [|cbn [Nat.add] in Hgt; lia].
  cbn [bind].
  rewrite StructFacts.pack_uint_some
    by (match goal with
        | |- 0 <= inet_cksum ?f ?s < _ => pose proof (Hck f s); lia
        end).
  cbn [bind]. unfold Struct.pack_into.
  rewrite StructFacts.length_be_bytes.
  match goal with
  | |- exists _, (if (?a <=? ?b)%nat then _ else _) = _ =>
      destruct (Nat.leb_spec a b) as [Hle2|Hgt2]
  end.
  - eexists. reflexivity.
  - exfalso. revert Hgt2.
    rewrite !length_app, length_firstn, length_skipn,
      !StructFacts.length_be_bytes.
    cbn [Nat.add] in *. lia.
Qed.

End Facts.
End TcpFacts.

Lemma skipn_app_plus {A} (l1 l2 : list A) n :
  skipn (length l1 + n) (l1 ++ l2) = skipn n l2.
Proof. induction l1 as [|a l1 IH]; [reflexivity|]. exact IH. Qed.

(** Reading the options, the data and the rest of a frame behind its
    twenty bytes of header. *)
Lemma behind_header (h raw data rest : list byte) :
  length h = 20%nat ->
  slice (h ++ raw ++ data ++ rest) 20 (20 + length raw) = raw
  /\ slice (h ++ raw ++ data ++ rest) (20 + length raw)
       (20 + length raw + length data) = data
  /\ skipn (20 + length raw + length data) (h ++ raw ++ data ++ rest) = rest.
Proof.
  intros Hh. unfold slice. rewrite <- Hh. split; [|split].
  - replace (length h + length raw - length h)%nat with (length raw) by lia.
    rewrite <- (Nat.add_0_r (length h)) at 1.
    rewrite skipn_app_plus. cbn [skipn]. apply firstn_length_app.
  - replace (length h + length raw + length data - (length h + length raw))%nat
      with (length data) by lia.
    rewrite skipn_app_plus, skipn_length_app. apply firstn_length_app.
  - rewrite <- Nat.add_assoc, skipn_app_plus, app_assoc, <- length_app.
    apply skipn_length_app.
Qed.

Ltac field_bytes n v Hu :=
  let l := fresh "l" in
  let Hl := fresh "Hl" in
  pose proof (StructFacts.unpack_be_bytes n v) as Hu;
  rewrite Z.mod_small in Hu by (cbn [Z.of_nat]; lia);
  pose proof (StructFacts.length_be_bytes n v) as Hl;
  set (l := Struct.be_bytes n v) in *; clearbody l; explode l Hl.

(** The fields of the segment, read back from the frame [assemble] has
    written. *)
Lemma assemble_reads_back (ps : Tcp.Ps) (inet_cksum : list byte -> Z -> Z)
    (self : Tcp.TcpAssembler) (frame : list byte) (pshdr_sum : Z)
    (frame' : list byte) :
  Tcp.assemble ps inet_cksum self frame pshdr_sum = Some frame' ->
  length frame' = length frame
  /\ Ip6.unpack_be (slice frame' 0 2) = Tcp._sport self
  /\ Ip6.unpack_be (slice frame' 2 4) = Tcp._dport self
  /\ Ip6.unpack_be (slice frame' 4 8) = Tcp._seq self
  /\ Ip6.unpack_be (slice frame' 8 12) = Tcp._ack self
  /\ byte_at frame' 12 = 4 * Tcp._hlen self + Tcp.int_of_bool (Tcp._flag_ns self)
  /\ (Tcp._hlen self mod 4 = 0 ->
      byte_at frame' 12 / 16 = Tcp._hlen self / 4
      /\ byte_at frame' 12 mod 16 = Tcp.int_of_bool (Tcp._flag_ns self))
  /\ (Z.testbit (byte_at frame' 13) 7 = Tcp._flag_crw self
      /\ Z.testbit (byte_at frame' 13) 6 = Tcp._flag_ece self
      /\ Z.testbit (byte_at frame' 13) 5 = Tcp._flag_urg self
      /\ Z.testbit (byte_at frame' 13) 4 = Tcp._flag_ack self
      /\ Z.testbit (byte_at frame' 13) 3 = Tcp._flag_psh self
      /\ Z.testbit (byte_at frame' 13) 2 = Tcp._flag_rst self
      /\ Z.testbit (byte_at frame' 13) 1 = Tcp._flag_syn self
      /\ Z.testbit (byte_at frame' 13) 0 = Tcp._flag_fin self)
  /\ Ip6.unpack_be (slice frame' 14 16) = Tcp._win self
  /\ Ip6.unpack_be (slice frame' 16 18)
     = inet_cksum (Tcp.without_cksum frame') pshdr_sum
  /\ Ip6.unpack_be (slice frame' 18 20) = Tcp._urp self
  /\ exists raw_options,
       Tcp._raw_options ps self = Some raw_options
       /\ slice frame' 20 (20 + length raw_options) = raw_options
       /\ slice frame' (20 + length raw_options)
            (20 + length raw_options + length (Tcp._data self))
          = Tcp._data self
       /\ skipn (20 + length raw_options + length (Tcp._data self)) frame'
          = skipn (20 + length raw_options + length (Tcp._data self)) frame.
Proof.
  intros H.
  destruct (TcpFacts.assemble_inv ps inet_cksum self frame pshdr_sum frame' H)
    as (raw & frame1 & Hraw & Hfit & Hoff & Hlen & Hf1 & Hck & Hfr).
  pose proof (TcpFacts.flags_byte_bound self) as Hfl.
  pose proof (TcpFacts.flags_byte_bits self) as Hbits.
  pose proof (TcpFacts.offset_byte_eq self) as Hob.
  unfold Tcp.fields_fit in Hfit. unfold Tcp.header in Hf1.
  remember (skipn (20 + length raw + length (Tcp._data self)) frame) as rest
    eqn:Hrest0 in *.
  assert (length rest
          = (length frame - (20 + length raw + length (Tcp._data self)))%nat)
    as Hrest by (subst rest; apply length_skipn).
  change (Struct.be_bytes 2 0) with [x00; x00] in Hf1.
  field_bytes 2%nat (Tcp._sport self) Hsport.
  field_bytes 2%nat (Tcp._dport self) Hdport.
  field_bytes 4%nat (Tcp._seq self) Hseq.
  field_bytes 4%nat (Tcp._ack self) Hack.
  field_bytes 1%nat (Tcp.offset_byte self) Hoffset.
  field_bytes 1%nat (Tcp.flags_byte self) Hflags.
  field_bytes 2%nat (Tcp._win self) Hwin.
  field_bytes 2%nat (Tcp._urp self) Hurp.
  cbn [app] in Hf1. subst frame1.
  field_bytes 2%nat
    (inet_cksum
       (b :: b0 :: b1 :: b2 :: b3 :: b4 :: b5 :: b6 :: b7 :: b8 :: b9 :: b10
          :: b11 :: b12 :: b13 :: b14 :: x00 :: x00 :: b15 :: b16
          :: raw ++ Tcp._data self ++ rest) pshdr_sum) Hcksum.
  cbn [firstn skipn app] in Hfr. subst frame'.
  unfold Ip6.unpack_be in Hoffset, Hflags. cbn [fold_left] in Hoffset, Hflags.
  split; [cbn [length]; rewrite !length_app; lia|].
  split; [exact Hsport|]. split; [exact Hdport|].
  split; [exact Hseq|]. split; [exact Hack|].
  assert (byte_at
            (b :: b0 :: b1 :: b2 :: b3 :: b4 :: b5 :: b6 :: b7 :: b8 :: b9 :: b10
               :: b11 :: b12 :: b13 :: b14 :: b17 :: b18 :: b15 :: b16
               :: raw ++ Tcp._data self ++ rest) 12
          = 4 * Tcp._hlen self + Tcp.int_of_bool (Tcp._flag_ns self)) as H12.
  { unfold byte_at. cbn [nth]. lia. }
  split; [exact H12|].
  split.
  { intros Hmod. rewrite H12.
    pose proof (TcpFacts.int_of_bool_bound (Tcp._flag_ns self)) as Hns.
    pose proof (Z.div_mod (Tcp._hlen self) 4 ltac:(lia)) as Hdm.
    rewrite Hmod in Hdm.
    split.
    - symmetry. apply (Z.div_unique _ 16 _ (Tcp.int_of_bool (Tcp._flag_ns self)));
        lia.
    - symmetry. apply (Z.mod_unique _ 16 (Tcp._hlen self / 4)); lia. }
  split.
  { assert (byte_at
              (b :: b0 :: b1 :: b2 :: b3 :: b4 :: b5 :: b6 :: b7 :: b8 :: b9
                 :: b10 :: b11 :: b12 :: b13 :: b14 :: b17 :: b18 :: b15 :: b16
                 :: raw ++ Tcp._data self ++ rest) 13
            = Tcp.flags_byte self) as H13.
    { unfold byte_at. cbn [nth]. lia. }
    rewrite H13. exact Hbits. }
  split; [exact Hwin|]. split; [exact Hcksum|]. split; [exact Hurp|].
  exists raw. split; [exact Hraw|].
  rewrite <- Hrest0.
  apply (behind_header
           [b; b0; b1; b2; b3; b4; b5; b6; b7; b8; b9; b10; b11; b12; b13; b14;
            b17; b18; b15; b16] raw (Tcp._data self) rest).
  reflexivity.
Qed.

(** X18.  A frame [assemble] has written reads back as the segment: the
    ports, the sequence and acknowledgement numbers, the window and the
    urgent pointer at their offsets in network order, byte 12 as four
    times the length of the header plus the NS flag (so, the length being
    a multiple of 4, its high half is the length in words), the eight
    flags as the bits of byte 13 from CWR down to FIN, the raw options
    from byte 20 and the data behind them; the checksum at bytes 16 and 17
    is [inet_cksum] of the frame with those two bytes zero, and the frame
    keeps its length and its bytes behind the segment. *)
Theorem tcp_assemble_reads_back (ps : Tcp.Ps) (inet_cksum : list byte -> Z -> Z)
    (self : Tcp.TcpAssembler) (frame : list byte) (pshdr_sum : Z)
    (frame' : list byte) :
  Tcp.assemble ps inet_cksum self frame pshdr_sum = Some frame' ->
  length frame' = length frame
  /\ Ip6.unpack_be (slice frame' 0 2) = Tcp._sport self
  /\ Ip6.unpack_be (slice frame' 2 4) = Tcp._dport self
  /\ Ip6.unpack_be (slice frame' 4 8) = Tcp._seq self
  /\ Ip6.unpack_be (slice frame' 8 12) = Tcp._ack self
  /\ byte_at frame' 12 = 4 * Tcp._hlen self + Tcp.int_of_bool (Tcp._flag_ns self)
  /\ (Tcp._hlen self mod 4 = 0 ->
      byte_at frame' 12 / 16 = Tcp._hlen self / 4
      /\ byte_at frame' 12 mod 16 = Tcp.int_of_bool (Tcp._flag_ns self))
  /\ (Z.testbit (byte_at frame' 13) 7 = Tcp._flag_crw self
      /\ Z.testbit (byte_at frame' 13) 6 = Tcp._flag_ece self
      /\ Z.testbit (byte_at frame' 13) 5 = Tcp._flag_urg self
      /\ Z.testbit (byte_at frame' 13) 4 = Tcp._flag_ack self
      /\ Z.testbit (byte_at frame' 13) 3 = Tcp._flag_psh self
      /\ Z.testbit (byte_at frame' 13) 2 = Tcp._flag_rst self
      /\ Z.testbit (byte_at frame' 13) 1 = Tcp._flag_syn self
      /\ Z.testbit (byte_at frame' 13) 0 = Tcp._flag_fin self)
  /\ Ip6.unpack_be (slice frame' 14 16) = Tcp._win self
  /\ Ip6.unpack_be (slice frame' 16 18)
     = inet_cksum (Tcp.without_cksum frame') pshdr_sum
  /\ Ip6.unpack_be (slice frame' 18 20) = Tcp._urp self
  /\ exists raw_options,
       Tcp._raw_options ps self = Some raw_options
       /\ slice frame' 20 (20 + length raw_options) = raw_options
       /\ slice frame' (20 + length raw_options)
            (20 + length raw_options + length (Tcp._data self))
          = Tcp._data self
       /\ skipn (20 + length raw_options + length (Tcp._data self)) frame'
          = skipn (20 + length raw_options + length (Tcp._data self)) frame.
Proof. exact (assemble_reads_back ps inet_cksum self frame pshdr_sum frame'). Qed.

Lemma sample_cksum_bound f s : 0 <= SampleTcp.cksum f s < 2 ^ 16.
Proof. unfold SampleTcp.cksum. apply Z.mod_pos_bound. lia. Qed.

Lemma tcp_assemble_reads_back_witness :
  exists frame',
    Tcp.assemble SampleTcp.ps SampleTcp.cksum SampleTcp.syn SampleTcp.frame 0
    = Some frame'
    /\ Ip6.unpack_be (slice frame' 0 2) = 49152.
Proof.
  destruct (Tcp.assemble SampleTcp.ps SampleTcp.cksum SampleTcp.syn
              SampleTcp.frame 0) as [frame'|] eqn:Hrun.
  - exists frame'. split; [reflexivity|].
    exact (proj1 (proj2 (tcp_assemble_reads_back SampleTcp.ps SampleTcp.cksum
                           SampleTcp.syn SampleTcp.frame 0 frame' Hrun))).
  - vm_compute in Hrun. discriminate Hrun.
Defined.

(** X19.  With a checksum of sixteen bits, [assemble] ends without an
    exception exactly when the ports, the window and the urgent pointer
    fit sixteen bits, the sequence and acknowledgement numbers thirty-two,
    the length of the header is between 0 and 63, every option fits the
    fields of its raw form, and the frame has room for the twenty bytes of
    the header, the raw options and the data.  A header of 64 bytes or
    more is a [struct.error]. *)
Theorem tcp_assemble_succeeds_iff (ps : Tcp.Ps)
    (inet_cksum : list byte -> Z -> Z) (self : Tcp.TcpAssembler)
    (frame : list byte) (pshdr_sum : Z) :
  (forall f s, 0 <= inet_cksum f s < 2 ^ 16) ->
  (exists frame', Tcp.assemble ps inet_cksum self frame pshdr_sum = Some frame')
  <-> (Tcp.fields_fit self
       /\ 0 <= Tcp._hlen self < 64
       /\ Forall (Tcp.opt_fits ps) (Tcp._options self)
       /\ (20 + Tcp.raw_lens (Tcp._options self) + length (Tcp._data self)
           <= length frame)%nat).
Proof.
  intros Hck.
  pose proof (TcpFacts.offset_byte_eq self) as Hob.
  pose proof (TcpFacts.int_of_bool_bound (Tcp._flag_ns self)) as Hns.
  split.
  - intros [frame' H].
    destruct (TcpFacts.assemble_inv ps inet_cksum self frame pshdr_sum frame' H)
      as (raw & frame1 & Hraw & Hfit & Hoff & Hlen & _).
    destruct (TcpFacts.raw_options_inv ps self raw Hraw) as [Hall Hrawlen].
    split; [exact Hfit|]. split; [lia|]. split; [exact Hall|].
    rewrite <- Hrawlen. exact Hlen.
  - intros (Hfit & Hhlen & Hall & Hlen).
    apply TcpFacts.assemble_some; try assumption. lia.
Qed.

Lemma tcp_assemble_succeeds_iff_witness :
  (forall f s, 0 <= SampleTcp.cksum f s < 2 ^ 16)
  /\ 0 <= Tcp._hlen SampleTcp.syn < 64.
Proof.
  split; [exact sample_cksum_bound|].
  apply (proj1 (tcp_assemble_succeeds_iff SampleTcp.ps SampleTcp.cksum
                  SampleTcp.syn SampleTcp.frame 0 sample_cksum_bound)).
  destruct (Tcp.assemble SampleTcp.ps SampleTcp.cksum SampleTcp.syn
              SampleTcp.frame 0) as [frame'|] eqn:Hrun.
  - exists frame'. reflexivity.
  - vm_compute in Hrun. discriminate Hrun.
Defined.

Lemma sum_acc l : forall acc, fold_left Z.add l acc = acc + Tcp.sum l.
Proof.
  unfold Tcp.sum. induction l as [|x l IH]; intros acc; cbn [fold_left].
  - lia.
  - rewrite IH, (IH (0 + x)). lia.
Qed.

Lemma lens_agree ps options :
  Tcp.lengths_agree ps ->
  exists ls, Tcp.lens ps options = Some ls
             /\ Tcp.sum ls = Z.of_nat (Tcp.raw_lens options).
Proof.
  intros (H0 & H1 & H2 & H3 & H4 & H5 & H6).
  induction options as [|o rest (ls & Hls & Hsum)].
  - exists []. split; reflexivity.
  - exists (Z.of_nat (Tcp.raw_len o) :: ls). split.
    + cbn [Tcp.lens]. rewrite Hls.
      destruct o; cbn [Tcp.opt_len Tcp.raw_len];
        rewrite ?H1, ?H2, ?H3, ?H4, ?H5, ?H6; reflexivity.
    + unfold Tcp.sum. cbn [fold_left]. rewrite sum_acc, Hsum.
      cbn [Tcp.raw_lens fold_right]. fold (Tcp.raw_lens rest). lia.
Qed.

(** X20.  When the constants give the fixed header its twenty bytes and
    every option the length of its raw form, a segment that [__init__]
    accepted and [assemble] wrote has a header of 20 to 60 bytes, made of
    the fixed header and the raw options; [len] of the segment is the
    number of bytes [assemble] wrote, and the data is in the frame at the
    offset that the high half of byte 12 gives in words of four bytes. *)
Theorem tcp_data_offset (ps : Tcp.Ps) (inet_cksum : list byte -> Z -> Z)
    (sport dport seq ack : Z)
    (flag_ns flag_crw flag_ece flag_urg flag_ack flag_psh flag_rst flag_syn
       flag_fin : bool)
    (win urp : Z) (options : option (list Tcp.TcpOpt)) (data : option (list byte))
    (self : Tcp.TcpAssembler) (frame : list byte) (pshdr_sum : Z)
    (frame' : list byte) :
  Tcp.lengths_agree ps ->
  Tcp.init ps sport dport seq ack flag_ns flag_crw flag_ece flag_urg flag_ack
    flag_psh flag_rst flag_syn flag_fin win urp options data = Some self ->
  Tcp.assemble ps inet_cksum self frame pshdr_sum = Some frame' ->
  exists raw_options,
    Tcp._raw_options ps self = Some raw_options
    /\ Tcp._hlen self = 20 + Z.of_nat (length raw_options)
    /\ Tcp._hlen self mod 4 = 0
    /\ 20 <= Tcp._hlen self <= 60
    /\ Tcp.len self
       = Some (Z.of_nat (20 + length raw_options + length (Tcp._data self)))
    /\ 4 * (byte_at frame' 12 / 16) = Tcp._hlen self
    /\ slice frame' (Z.to_nat (4 * (byte_at frame' 12 / 16)))
         (Z.to_nat (4 * (byte_at frame' 12 / 16)) + length (Tcp._data self))
       = Tcp._data self.
Proof.
  intros Hagree Hinit Hrun.
  unfold Tcp.init in Hinit.
  destruct (lens_agree ps (match options with Some o => o | None => [] end) Hagree)
    as (ls & Hls & Hsum).
  rewrite Hls in Hinit. cbn [bind] in Hinit. rewrite Hsum in Hinit.
  destruct Hagree as (H20 & _). rewrite H20 in Hinit.
  match type of Hinit with
  | (if ?c then _ else _) = _ => destruct c eqn:Hmod; [|discriminate Hinit]
  end.
  apply Z.eqb_eq in Hmod. apply some_inj in Hinit.
  destruct (assemble_reads_back ps inet_cksum self frame pshdr_sum frame' Hrun)
    as (_ & _ & _ & _ & _ & H12 & Hnib & _ & _ & _ & _ & raw & Hraw & _ & Hdata & _).
  destruct (TcpFacts.assemble_inv ps inet_cksum self frame pshdr_sum frame' Hrun)
    as (raw' & _ & Hraw' & _ & Hoff & _).
  rewrite TcpFacts.offset_byte_eq in Hoff.
  pose proof (TcpFacts.int_of_bool_bound (Tcp._flag_ns self)) as Hns.
  destruct (TcpFacts.raw_options_inv ps self raw Hraw) as [_ Hrawlen].
  assert (Tcp._hlen self = 20 + Z.of_nat (length raw)) as Hhlen.
  { rewrite Hrawlen, <- Hinit. reflexivity. }
  assert (Tcp._hlen self mod 4 = 0) as Hmod4.
  { rewrite <- Hinit. exact Hmod. }
  pose proof (Z.div_mod (Tcp._hlen self) 4 ltac:(lia)) as Hdm.
  destruct (Hnib Hmod4) as [Hhigh _].
  assert (4 * (byte_at frame' 12 / 16) = Tcp._hlen self) as Hwords by lia.
  exists raw. split; [exact Hraw|]. split; [exact Hhlen|].
  split; [exact Hmod4|]. split; [lia|]. split; [|split; [exact Hwords|]].
  - unfold Tcp.len, Tcp.py_len. rewrite Hhlen.
    destruct (Z.leb_spec 0 (20 + Z.of_nat (length raw)
                            + Z.of_nat (length (Tcp._data self)))); [|lia].
    f_equal. lia.
  - rewrite Hwords, Hhlen.
    replace (Z.to_nat (20 + Z.of_nat (length raw))) with (20 + length raw)%nat
      by lia.
    exact Hdata.
Qed.

Lemma sample_lengths_agree : Tcp.lengths_agree SampleTcp.ps.
Proof. repeat split. Qed.

Lemma tcp_data_offset_witness :
  Tcp.lengths_agree SampleTcp.ps
  /\ Tcp.init SampleTcp.ps 49152 80 1000 0 false false false false false false
       false true false 65535 0
       (Some [Tcp.TcpOptMss 1460; Tcp.TcpOptNop; Tcp.TcpOptWscale 7])
       (Some [x68; x69]) = Some SampleTcp.syn
  /\ exists frame',
       Tcp.assemble SampleTcp.ps SampleTcp.cksum SampleTcp.syn SampleTcp.frame 0
       = Some frame'
       /\ 20 <= Tcp._hlen SampleTcp.syn <= 60.
Proof.
  split; [exact sample_lengths_agree|]. split; [reflexivity|].
  destruct (Tcp.assemble SampleTcp.ps SampleTcp.cksum SampleTcp.syn
              SampleTcp.frame 0) as [frame'|] eqn:Hrun.
  - exists frame'. split; [reflexivity|].
    destruct (tcp_data_offset SampleTcp.ps SampleTcp.cksum 49152 80 1000 0
                false false false false false false false true false 65535 0
                (Some [Tcp.TcpOptMss 1460; Tcp.TcpOptNop; Tcp.TcpOptWscale 7])
                (Some [x68; x69]) SampleTcp.syn SampleTcp.frame 0 frame'
                sample_lengths_agree eq_refl Hrun)
      as (raw & _ & _ & _ & Hbound & _).
    exact Hbound.
  - vm_compute in Hrun. discriminate Hrun.
Defined.

(* ===================================================================== *)
(** * Properties of the ARP assembler *)
(* ===================================================================== *)

Lemma length_pack_s n b : length (Struct.pack_s n b) = n.
Proof.
  unfold Struct.pack_s. rewrite length_app, length_firstn, repeat_length. lia.
Qed.

Lemma pack_s_exact n b : length b = n -> Struct.pack_s n b = b.
Proof.
  intros <-. unfold Struct.pack_s.
  rewrite firstn_all, Nat.sub_diag. apply app_nil_r.
Qed.

(** Reading the four addresses of a frame behind its eight bytes of
    header. *)
Lemma behind_arp_header (h sha spa tha tpa rest : list byte) :
  length h = 8%nat -> length sha = 6%nat -> length spa = 4%nat ->
  length tha = 6%nat -> length tpa = 4%nat ->
  slice (h ++ sha ++ spa ++ tha ++ tpa ++ rest) 8 14 = sha
  /\ slice (h ++ sha ++ spa ++ tha ++ tpa ++ rest) 14 18 = spa
  /\ slice (h ++ sha ++ spa ++ tha ++ tpa ++ rest) 18 24 = tha
  /\ slice (h ++ sha ++ spa ++ tha ++ tpa ++ rest) 24 28 = tpa
  /\ skipn 28 (h ++ sha ++ spa ++ tha ++ tpa ++ rest) = rest.
Proof.
  intros Hh H1 H2 H3 H4.
  explode h Hh. explode sha H1. explode spa H2. explode tha H3. explode tpa H4.
  repeat split.
Qed.

(** X21.  An ARP packet that [__init__] accepted is a request or a reply,
    and [assemble], the operation fitting sixteen bits, writes it exactly
    when the frame has 28 bytes: hardware type 1, protocol 0x0800, lengths
    6 and 4, the operation, then the four addresses, each cut or filled
    with zero bytes to the 6 or 4 bytes of its field, and as it is when it
    has that length; the frame keeps its length and its bytes from the
    29th on. *)
Theorem arp_assemble_frame (ps : Arp.Ps)
    (mac_bytes : MacAddress -> list byte)
    (ip4_bytes : Arp.Ip4Address -> list byte)
    (sha : option MacAddress) (spa : option Arp.Ip4Address)
    (tha : option MacAddress) (tpa : option Arp.Ip4Address) (oper : option Z)
    (self : Arp.ArpAssembler) (frame : list byte) :
  Arp.init ps sha spa tha tpa oper = Some self ->
  0 <= Arp._oper self < 2 ^ 16 ->
  (Arp._oper self = Arp.ARP_OP_REQUEST ps \/ Arp._oper self = Arp.ARP_OP_REPLY ps)
  /\ ((length frame < 28)%nat -> Arp.assemble mac_bytes ip4_bytes self frame = None)
  /\ ((28 <= length frame)%nat ->
      exists frame',
        Arp.assemble mac_bytes ip4_bytes self frame = Some frame'
        /\ length frame' = length frame
        /\ slice frame' 0 6 = [x00; x01; x08; x00; x06; x04]
        /\ Ip6.unpack_be (slice frame' 6 8) = Arp._oper self
        /\ slice frame' 8 14 = Struct.pack_s 6 (mac_bytes (Arp._sha self))
        /\ slice frame' 14 18 = Struct.pack_s 4 (ip4_bytes (Arp._spa self))
        /\ slice frame' 18 24 = Struct.pack_s 6 (mac_bytes (Arp._tha self))
        /\ slice frame' 24 28 = Struct.pack_s 4 (ip4_bytes (Arp._tpa self))
        /\ skipn 28 frame' = skipn 28 frame
        /\ (length (mac_bytes (Arp._sha self)) = 6%nat ->
            slice frame' 8 14 = mac_bytes (Arp._sha self))
        /\ (length (ip4_bytes (Arp._spa self)) = 4%nat ->
            slice frame' 14 18 = ip4_bytes (Arp._spa self))
        /\ (length (mac_bytes (Arp._tha self)) = 6%nat ->
            slice frame' 18 24 = mac_bytes (Arp._tha self))
        /\ (length (ip4_bytes (Arp._tpa self)) = 4%nat ->
            slice frame' 24 28 = ip4_bytes (Arp._tpa self))).
Proof.
  intros Hinit Hoper. unfold Arp.init in Hinit.
  match type of Hinit with
  | (if ?c then _ else _) = _ => destruct c eqn:Hop; [|discriminate Hinit]
  end.
  apply some_inj in Hinit. subst self.
  cbn [Arp._oper Arp._sha Arp._spa Arp._tha Arp._tpa] in *.
  set (op := match oper with Some o => o | None => Arp.ARP_OP_REQUEST ps end) in *.
  set (a1 := match sha with Some a => a | None => 0 end).
  set (a2 := match spa with Some a => a | None => 0 end).
  set (a3 := match tha with Some a => a | None => 0 end).
  set (a4 := match tpa with Some a => a | None => 0 end).
  assert (forall fr,
            Arp.assemble mac_bytes ip4_bytes
              {| Arp._hrtype := 1; Arp._prtype := 0x0800; Arp._hrlen := 6;
                 Arp._prlen := 4; Arp._oper := op; Arp._sha := a1;
                 Arp._spa := a2; Arp._tha := a3; Arp._tpa := a4 |} fr
            = Struct.pack_into
                (([x00; x01; x08; x00; x06; x04] ++ Struct.be_bytes 2 op)
                 ++ Struct.pack_s 6 (mac_bytes a1)
                 ++ Struct.pack_s 4 (ip4_bytes a2)
                 ++ Struct.pack_s 6 (mac_bytes a3)
                 ++ Struct.pack_s 4 (ip4_bytes a4)) fr 0) as Hasm.
  { intros fr. unfold Arp.assemble.
    cbn [Arp._hrtype Arp._prtype Arp._hrlen Arp._prlen Arp._oper Arp._sha
         Arp._spa Arp._tha Arp._tpa].
    rewrite (StructFacts.pack_uint_some 2 op) by (cbn [Z.of_nat]; lia).
    reflexivity. }
  split.
  { apply orb_true_iff in Hop. destruct Hop as [Hop|Hop];
      apply Z.eqb_eq in Hop; [left | right]; exact Hop. }
  pose proof (StructFacts.length_be_bytes 2 op) as Lop.
  pose proof (length_pack_s 6 (mac_bytes a1)) as L1.
  pose proof (length_pack_s 4 (ip4_bytes a2)) as L2.
  pose proof (length_pack_s 6 (mac_bytes a3)) as L3.
  pose proof (length_pack_s 4 (ip4_bytes a4)) as L4.
  split.
  - intros Hshort. rewrite Hasm. unfold Struct.pack_into.
    rewrite !length_app, Lop, L1, L2, L3, L4.
    destruct (Nat.leb_spec (0 + (length [x00; x01; x08; x00; x06; x04] + 2
                                 + (6 + (4 + (6 + 4))))) (length frame))
      as [Hle|Hgt]; [cbn [length Nat.add] in Hle; lia | reflexivity].
  - intros Hroom. rewrite Hasm. unfold Struct.pack_into.
    rewrite !length_app, Lop, L1, L2, L3, L4.
    destruct (Nat.leb_spec (0 + (length [x00; x01; x08; x00; x06; x04] + 2
                                 + (6 + (4 + (6 + 4))))) (length frame))
      as [Hle|Hgt]; [|cbn [length Nat.add] in Hgt; lia].
    eexists. split; [reflexivity|].
    change (0 + (length [x00; x01; x08; x00; x06; x04] + 2 + (6 + (4 + (6 + 4)))))%nat
      with 28%nat.
    cbn [firstn]. rewrite app_nil_l, <- !app_assoc.
    pose proof (StructFacts.unpack_be_bytes 2 op) as Uop.
    rewrite Z.mod_small in Uop by (cbn [Z.of_nat]; lia).
    set (lo := Struct.be_bytes 2 op) in *. clearbody lo. explode lo Lop.
    assert (length ([x00; x01; x08; x00; x06; x04] ++ [b; b0]) = 8%nat) as Lh
      by reflexivity.
    destruct (behind_arp_header ([x00; x01; x08; x00; x06; x04] ++ [b; b0])
                (Struct.pack_s 6 (mac_bytes a1)) (Struct.pack_s 4 (ip4_bytes a2))
                (Struct.pack_s 6 (mac_bytes a3)) (Struct.pack_s 4 (ip4_bytes a4))
                (skipn 28 frame) Lh L1 L2 L3 L4) as (S1 & S2 & S3 & S4 & S5).
    rewrite <- !app_assoc in S1, S2, S3, S4, S5.
    split.
    { cbn [app length]. rewrite !length_app, L1, L2, L3, L4, length_skipn. lia. }
    split; [reflexivity|]. split; [exact Uop|].
    split; [exact S1|]. split; [exact S2|]. split; [exact S3|].
    split; [exact S4|]. split; [exact S5|].
    split; [intros Hl; rewrite S1; now apply pack_s_exact|].
    split; [intros Hl; rewrite S2; now apply pack_s_exact|].
    split; [intros Hl; rewrite S3; now apply pack_s_exact|].
    intros Hl; rewrite S4; now apply pack_s_exact.
Qed.

Lemma arp_assemble_frame_witness :
  Arp.init SampleArp.ps (Some 0x0050569a0b1c) (Some 0xc0a80101)
    (Some 0x0050569a0b1d) (Some 0xc0a80102) (Some 2) = Some SampleArp.reply
  /\ 0 <= Arp._oper SampleArp.reply < 2 ^ 16
  /\ (Arp._oper SampleArp.reply = Arp.ARP_OP_REQUEST SampleArp.ps
      \/ Arp._oper SampleArp.reply = Arp.ARP_OP_REPLY SampleArp.ps).
Proof.
  split; [reflexivity|].
  assert (0 <= Arp._oper SampleArp.reply < 2 ^ 16) as Hoper by (cbn; lia).
  split; [exact Hoper|].
  exact (proj1 (arp_assemble_frame SampleArp.ps SampleArp.mac_bytes
                  SampleArp.ip4_bytes (Some 0x0050569a0b1c) (Some 0xc0a80101)
                  (Some 0x0050569a0b1d) (Some 0xc0a80102) (Some 2)
                  SampleArp.reply SampleArp.frame eq_refl Hoper)).
Defined.

(* ===================================================================== *)
(** * Properties of the DHCPv4 client *)
(* ===================================================================== *)

Section Dhcp4Client.

Variable ps : Dhcp4.Ps.
Variable mac_bytes : MacAddress -> list byte.
Variable str_address : Arp.Ip4Address -> list byte.
Variable str_mask : Dhcp4.Ip4Mask -> list byte.
Variable mac : MacAddress.
Variable xid : Z.
Variable recv : nat -> Dhcp4.Received.

Local Abbreviation run :=
  (Dhcp4.fetch ps mac_bytes str_address str_mask mac xid recv).

(** X22.  [fetch] opens its socket, binds it to port 68, connects it to
    the broadcast address at port 67, sends a Discover and waits for an
    answer; after an Offer, and only then, it sends a Request and waits
    again.  When no receive ends in an exception other than the timeout, it
    closes the socket once, as its last call, also when it then ends in the
    exception of an Ack without a mask or with no router; when a receive
    does end in another exception, [fetch] ends in an exception with the
    socket never closed.  It sends at most a Discover and a Request, both
    with the same transaction number and its link-layer address, the
    Request naming the server and the address of the Offer.  It returns a
    lease only after an Offer and then an Ack with a subnet mask, and the
    lease is the address of the Ack followed by its mask; it returns no
    lease and no router when the first packet is no Offer, the second no
    Ack, or either does not come in time. *)
Theorem dhcp4_fetch_protocol :
  (exists calls,
     (calls = []
      \/ exists offer,
           recv 0%nat = Dhcp4.Packet offer
           /\ Dhcp4.dhcp_msg_type offer = Dhcp4.DHCP4_MSG_OFFER ps
           /\ calls
              = [Dhcp4.CallSend
                   (Dhcp4.request ps mac_bytes mac xid
                      (Dhcp4.dhcp_srv_id offer) (Dhcp4.dhcp_yiaddr offer));
                 Dhcp4.CallRecv 5])
     /\ existsb Dhcp4.is_close calls = false
     /\ (~ Dhcp4.recv_raises ps recv ->
         fst run
         = Dhcp4.CallSocket :: Dhcp4.CallBind 0 68
           :: Dhcp4.CallConnect 0xFFFFFFFF 67
           :: Dhcp4.CallSend (Dhcp4.discover ps mac_bytes mac xid)
           :: Dhcp4.CallRecv 5 :: calls ++ [Dhcp4.CallClose])
     /\ (Dhcp4.recv_raises ps recv ->
         fst run
         = Dhcp4.CallSocket :: Dhcp4.CallBind 0 68
           :: Dhcp4.CallConnect 0xFFFFFFFF 67
           :: Dhcp4.CallSend (Dhcp4.discover ps mac_bytes mac xid)
           :: Dhcp4.CallRecv 5 :: calls
         /\ existsb Dhcp4.is_close (fst run) = false
         /\ snd run = None))
  /\ (existsb Dhcp4.is_close (fst run) = false <-> Dhcp4.recv_raises ps recv)
  /\ Forall (fun p => Dhcp4.dhcp_xid p = xid
                      /\ Dhcp4.dhcp_chaddr p = mac_bytes mac
                      /\ Dhcp4.dhcp_op p = Dhcp4.DHCP4_OP_REQUEST ps)
       (Dhcp4.sent (fst run))
  /\ (forall lease router,
        snd run = Some (Some lease, router) ->
        exists offer ack mask,
          recv 0%nat = Dhcp4.Packet offer
          /\ Dhcp4.dhcp_msg_type offer = Dhcp4.DHCP4_MSG_OFFER ps
          /\ recv 1%nat = Dhcp4.Packet ack
          /\ Dhcp4.dhcp_msg_type ack = Dhcp4.DHCP4_MSG_ACK ps
          /\ Dhcp4.dhcp_subnet_mask ack = Some mask
          /\ lease = str_address (Dhcp4.dhcp_yiaddr ack) ++ str_mask mask)
  /\ (forall offer ack mask,
        recv 0%nat = Dhcp4.Packet offer ->
        Dhcp4.dhcp_msg_type offer = Dhcp4.DHCP4_MSG_OFFER ps ->
        recv 1%nat = Dhcp4.Packet ack ->
        Dhcp4.dhcp_msg_type ack = Dhcp4.DHCP4_MSG_ACK ps ->
        Dhcp4.dhcp_subnet_mask ack = Some mask ->
        Dhcp4.dhcp_router ack <> Some [] ->
        snd run
        = Some (Some (str_address (Dhcp4.dhcp_yiaddr ack) ++ str_mask mask),
                match Dhcp4.dhcp_router ack with
                | Some (router :: _) => Some (str_address router)
                | _ => None
                end))
  /\ (~ Dhcp4.recv_raises ps recv ->
      (forall offer, recv 0%nat = Dhcp4.Packet offer ->
                     Dhcp4.dhcp_msg_type offer <> Dhcp4.DHCP4_MSG_OFFER ps)
      \/ (forall ack, recv 1%nat = Dhcp4.Packet ack ->
                      Dhcp4.dhcp_msg_type ack <> Dhcp4.DHCP4_MSG_ACK ps) ->
      snd run = Some (None, None)).
Proof.
  unfold Dhcp4.fetch, Dhcp4.recv_raises.
  destruct (recv 0%nat) as [|offer|] eqn:R0.
  - (* no answer in time *)
    assert (~ (Dhcp4.ReceiveTimeout = Dhcp4.Raised
               \/ exists o, Dhcp4.ReceiveTimeout = Dhcp4.Packet o
                            /\ Dhcp4.dhcp_msg_type o = Dhcp4.DHCP4_MSG_OFFER ps
                            /\ recv 1%nat = Dhcp4.Raised)) as Hno.
    { intros [H | (o & H & _)]; discriminate H. }
    cbn [fst snd app].
    split.
    { exists []. split; [now left|]. split; [reflexivity|].
      split; [reflexivity | intros H; contradiction]. }
    split; [split; [intros H; discriminate H | intros H; contradiction]|].
    split; [repeat constructor|].
    split; [intros lease router H; discriminate H|].
    split; [intros o ack mask H; discriminate H|].
    reflexivity.
  - destruct (Z.eqb_spec (Dhcp4.dhcp_msg_type offer) (Dhcp4.DHCP4_MSG_OFFER ps))
      as [Hoffer|Hoffer]; cbn [negb].
    2:{ (* the answer is no Offer *)
        assert (~ (Dhcp4.Packet offer = Dhcp4.Raised
                   \/ exists o, Dhcp4.Packet offer = Dhcp4.Packet o
                                /\ Dhcp4.dhcp_msg_type o = Dhcp4.DHCP4_MSG_OFFER ps
                                /\ recv 1%nat = Dhcp4.Raised)) as Hno.
        { intros [H | (o & H & Ho & _)]; [discriminate H|].
          injection H as <-. contradiction. }
        cbn [fst snd app].
        split.
        { exists []. split; [now left|]. split; [reflexivity|].
          split; [reflexivity | intros H; contradiction]. }
        split; [split; [intros H; discriminate H | intros H; contradiction]|].
        split; [repeat constructor|].
        split; [intros lease router H; discriminate H|].
        split; [intros o ack mask H Ho; injection H as <-; contradiction|].
        reflexivity. }
    assert ([Dhcp4.CallSend
               (Dhcp4.request ps mac_bytes mac xid (Dhcp4.dhcp_srv_id offer)
                  (Dhcp4.dhcp_yiaddr offer));
             Dhcp4.CallRecv 5] = []
            \/ exists offer0,
                 Dhcp4.Packet offer = Dhcp4.Packet offer0
                 /\ Dhcp4.dhcp_msg_type offer0 = Dhcp4.DHCP4_MSG_OFFER ps
                 /\ [Dhcp4.CallSend
                       (Dhcp4.request ps mac_bytes mac xid (Dhcp4.dhcp_srv_id offer)
                          (Dhcp4.dhcp_yiaddr offer));
                     Dhcp4.CallRecv 5]
                    = [Dhcp4.CallSend
                         (Dhcp4.request ps mac_bytes mac xid
                            (Dhcp4.dhcp_srv_id offer0)
                            (Dhcp4.dhcp_yiaddr offer0));
                       Dhcp4.CallRecv 5]) as Hcalls.
    { right. exists offer. repeat split. exact Hoffer. }
    destruct (recv 1%nat) as [|ack|] eqn:R1.
    + (* no second answer in time *)
      assert (~ (Dhcp4.Packet offer = Dhcp4.Raised
                 \/ exists o, Dhcp4.Packet offer = Dhcp4.Packet o
                              /\ Dhcp4.dhcp_msg_type o = Dhcp4.DHCP4_MSG_OFFER ps
                              /\ Dhcp4.ReceiveTimeout = Dhcp4.Raised)) as Hno.
      { intros [H | (o & _ & _ & H)]; discriminate H. }
      cbn [fst snd app].
      split.
      { eexists. split; [exact Hcalls|]. split; [reflexivity|].
        split; [reflexivity | intros H; contradiction]. }
      split; [split; [intros H; discriminate H | intros H; contradiction]|].
      split; [repeat constructor|].
      split; [intros lease router H; discriminate H|].
      split; [intros o ack mask _ _ H; discriminate H|].
      reflexivity.
    + destruct (Z.eqb_spec (Dhcp4.dhcp_msg_type ack) (Dhcp4.DHCP4_MSG_ACK ps))
        as [Hack|Hack]; cbn [negb].
      2:{ (* the second answer is no Ack *)
          assert (~ (Dhcp4.Packet offer = Dhcp4.Raised
                     \/ exists o, Dhcp4.Packet offer = Dhcp4.Packet o
                                  /\ Dhcp4.dhcp_msg_type o = Dhcp4.DHCP4_MSG_OFFER ps
                                  /\ Dhcp4.Packet ack = Dhcp4.Raised)) as Hno.
          { intros [H | (o & _ & _ & H)]; discriminate H. }
          cbn [fst snd app].
          split.
          { eexists. split; [exact Hcalls|]. split; [reflexivity|].
            split; [reflexivity | intros H; contradiction]. }
          split; [split; [intros H; discriminate H | intros H; contradiction]|].
          split; [repeat constructor|].
          split; [intros lease router H; discriminate H|].
          split; [intros o a mask _ _ H Ha; injection H as <-; contradiction|].
          reflexivity. }
      (* an Offer, then an Ack *)
      assert (~ (Dhcp4.Packet offer = Dhcp4.Raised
                 \/ exists o, Dhcp4.Packet offer = Dhcp4.Packet o
                              /\ Dhcp4.dhcp_msg_type o = Dhcp4.DHCP4_MSG_OFFER ps
                              /\ Dhcp4.Packet ack = Dhcp4.Raised)) as Hno.
      { intros [H | (o & _ & _ & H)]; discriminate H. }
      cbn [fst snd app].
      split.
      { eexists. split; [exact Hcalls|]. split; [reflexivity|].
        split; [reflexivity | intros H; contradiction]. }
      split; [split; [intros H; discriminate H | intros H; contradiction]|].
      split; [repeat constructor|].
      split; [|split].
      * intros lease router H. exists offer, ack.
        destruct (Dhcp4.dhcp_subnet_mask ack) as [mask|]; [|discriminate H].
        exists mask.
        assert (lease = str_address (Dhcp4.dhcp_yiaddr ack) ++ str_mask mask) as Hl.
        { destruct (Dhcp4.dhcp_router ack) as [[|r l]|];
            try discriminate H; apply some_inj in H; congruence. }
        repeat split; assumption.
      * intros o a mask Ho _ Ha _ Hmask Hrouter.
        injection Ha as <-.
        rewrite Hmask.
        destruct (Dhcp4.dhcp_router ack) as [[|r l]|]; [contradiction| |]; reflexivity.
      * intros _ [Hn|Hn].
        -- exfalso. exact (Hn offer eq_refl Hoffer).
        -- exfalso. exact (Hn ack eq_refl Hack).
    + (* the second receive ends in another exception *)
      assert (Dhcp4.Packet offer = Dhcp4.Raised
              \/ exists o, Dhcp4.Packet offer = Dhcp4.Packet o
                           /\ Dhcp4.dhcp_msg_type o = Dhcp4.DHCP4_MSG_OFFER ps
                           /\ Dhcp4.Raised = Dhcp4.Raised) as Hyes.
      { right. exists offer. repeat split. exact Hoffer. }
      cbn [fst snd app].
      split.
      { eexists. split; [exact Hcalls|]. split; [reflexivity|].
        split; [intros H; contradiction | intros _; repeat split]. }
      split; [split; [intros _; exact Hyes | reflexivity]|].
      split; [repeat constructor|].
      split; [intros lease router H; discriminate H|].
      split; [intros o ack mask _ _ H; discriminate H|].
      intros H; contradiction.
  - (* the first receive ends in another exception *)
    assert (Dhcp4.Raised = Dhcp4.Raised
            \/ exists o, Dhcp4.Raised = Dhcp4.Packet o
                         /\ Dhcp4.dhcp_msg_type o = Dhcp4.DHCP4_MSG_OFFER ps
                         /\ recv 1%nat = Dhcp4.Raised) as Hyes by now left.
    cbn [fst snd app].
    split.
    { exists []. split; [now left|]. split; [reflexivity|].
      split; [intros H; contradiction | intros _; repeat split]. }
    split; [split; [intros _; exact Hyes | reflexivity]|].
    split; [repeat constructor|].
    split; [intros lease router H; discriminate H|].
    split; [intros o ack mask H; discriminate H|].
    intros H; contradiction.
Qed.

End Dhcp4Client.
